(** * Feedback Pulse: the ingestion, deduplication and analysis pipeline

    A shallow embedding of the Python sources ([main.py], [src/parser.py],
    [src/analyzer.py], [src/translator.py], [src/security.py],
    [src/config.py]) and the properties of the specification checked
    against it.

    Conventions.
    - A Python [str] is a list of Unicode code points ([pystr]); dictionary
      keys, language codes and exception messages, which the code only
      compares for equality, are Rocq strings.
    - A Python [float] that is a number is a rational: every finite double
      is one.  Comparisons are made on the rationals.  The operations that
      round, the [sum] and the divisions of the statistics, are not
      computed: they are the fields of [FloatArith].
    - What an untyped parameter is handed is a [pyarg]: a value of a
      built-in type, or an object of another class with the outcome of its
      truth test.
    - A call that may raise returns a [result]; [try]/[except] is written
      with [try_except], clause by clause as in the source.
    - What the sources obtain from outside (the browser session, language
      detection, the translation service and its cache file, the sentiment
      lexicon, the Unicode tables) is a field of the record [Runtime]; the
      same question gets the same answer throughout a run. *)

From Stdlib Require Import QArith.
From stdpp Require Import gmap strings list.

Set Warnings "-register-all".
Local Open Scope Z_scope.

(** ** Python exceptions and results *)

Module Py.

(** The exception classes the sources raise or catch.  Every one of them
    derives from [Exception]. *)
Inductive exn_class :=
  | ParserError | NetworkError | ParsingError
  | SecurityError | ValidationError | EncryptionError
  | TranslationError | LangDetectException
  | WebDriverException | TimeoutException
  | AttributeError | TypeError | ValueError | KeyError
  | UnicodeEncodeError | UnboundLocalError | OtherException.

Record exn := Exn { exn_cls : exn_class; exn_msg : string }.

(** [issubclass c p]: the class statements of [parser.py] and
    [security.py] and the library classes' own, reflexively. *)
Definition issubclass (c p : exn_class) : bool :=
  match c, p with
  | NetworkError, (NetworkError | ParserError) => true
  | ParsingError, (ParsingError | ParserError) => true
  | ParserError, ParserError => true
  | ValidationError, (ValidationError | SecurityError) => true
  | EncryptionError, (EncryptionError | SecurityError) => true
  | SecurityError, SecurityError => true
  | TranslationError, TranslationError => true
  | LangDetectException, LangDetectException => true
  | TimeoutException, (TimeoutException | WebDriverException) => true
  | WebDriverException, WebDriverException => true
  | AttributeError, AttributeError => true
  | TypeError, TypeError => true
  | ValueError, ValueError => true
  | KeyError, KeyError => true
  | UnicodeEncodeError, (UnicodeEncodeError | ValueError) => true
  | UnboundLocalError, UnboundLocalError => true
  | OtherException, OtherException => true
  | _, _ => false
  end.

Inductive result (A : Type) :=
  | Ok (a : A)
  | Raise (e : exn).
Arguments Ok {A} a.
Arguments Raise {A} e.

Definition bind {A B} (m : result A) (k : A -> result B) : result B :=
  match m with
  | Ok a => k a
  | Raise e => Raise e
  end.

(** An [except] clause: [Some c] is [except c], [None] is
    [except Exception]. *)
Definition clause_matches (c : option exn_class) (e : exn) : bool :=
  match c with
  | Some p => issubclass (exn_cls e) p
  | None => true
  end.

(** [try: body  except c1: h1 ... except cn: hn]; the first clause whose
    class matches runs, an exception no clause matches propagates. *)
Fixpoint try_except {A} (body : result A)
    (handlers : list (option exn_class * (exn -> result A))) : result A :=
  match body with
  | Ok a => Ok a
  | Raise e =>
      match handlers with
      | [] => Raise e
      | (c, h) :: rest =>
          if clause_matches c e then h e else try_except (Raise e) rest
      end
  end.

Definition raises {A} (m : result A) : Prop := exists e, m = Raise e.
Definition raises_class {A} (m : result A) (c : exn_class) : Prop :=
  exists msg, m = Raise (Exn c msg).

End Py.
Export Py.

(** The sequencing of calls that may raise, in stdpp's monad notation:
    [x ← m; k] runs [k] when [m] returns, and propagates what [m] raises. *)
#[global] Instance result_ret : MRet result := fun A a => Ok a.
#[global] Instance result_bind : MBind result := fun A B k m => bind m k.

(** ** Python strings *)

Definition pystr := list N.

(** An ASCII literal as a Python string. *)
Definition str (s : string) : pystr :=
  map Ascii.N_of_ascii (String.list_ascii_of_string s).

(** [str.encode()]: UTF-8.  A surrogate code point cannot be encoded
    (UnicodeEncodeError). *)
Definition encode_char (c : N) : result (list Z) :=
  let z := Z.of_N c in
  if z <? 0x80 then Ok [z]
  else if z <? 0x800 then
    Ok [Z.lor 0xC0 (Z.shiftr z 6); Z.lor 0x80 (Z.land z 0x3F)]
  else if (0xD800 <=? z) && (z <=? 0xDFFF) then
    Raise (Exn UnicodeEncodeError "surrogates not allowed")
  else if z <? 0x10000 then
    Ok [Z.lor 0xE0 (Z.shiftr z 12);
        Z.lor 0x80 (Z.land (Z.shiftr z 6) 0x3F);
        Z.lor 0x80 (Z.land z 0x3F)]
  else
    Ok [Z.lor 0xF0 (Z.land (Z.shiftr z 18) 0x07);
        Z.lor 0x80 (Z.land (Z.shiftr z 12) 0x3F);
        Z.lor 0x80 (Z.land (Z.shiftr z 6) 0x3F);
        Z.lor 0x80 (Z.land z 0x3F)].

Fixpoint encode (s : pystr) : result (list Z) :=
  match s with
  | [] => Ok []
  | c :: rest =>
      bs ← encode_char c;
      more ← encode rest;
      Ok (bs ++ more)
  end.

(** ** hashlib.sha256 (FIPS 180-4) on 32-bit words held in [Z] *)

Module SHA256.

Definition w32 (x : Z) : Z := x mod 2 ^ 32.
Definition add32 (x y : Z) : Z := w32 (x + y).
Definition rotr (n x : Z) : Z :=
  w32 (Z.lor (Z.shiftr x n) (Z.shiftl x (32 - n))).
Definition shr (n x : Z) : Z := Z.shiftr x n.

Definition Ch (x y z : Z) : Z :=
  Z.lxor (Z.land x y) (Z.land (Z.lxor x (2 ^ 32 - 1)) z).
Definition Maj (x y z : Z) : Z :=
  Z.lxor (Z.lxor (Z.land x y) (Z.land x z)) (Z.land y z).
Definition Sigma0 (x : Z) : Z :=
  Z.lxor (Z.lxor (rotr 2 x) (rotr 13 x)) (rotr 22 x).
Definition Sigma1 (x : Z) : Z :=
  Z.lxor (Z.lxor (rotr 6 x) (rotr 11 x)) (rotr 25 x).
Definition sigma0 (x : Z) : Z :=
  Z.lxor (Z.lxor (rotr 7 x) (rotr 18 x)) (shr 3 x).
Definition sigma1 (x : Z) : Z :=
  Z.lxor (Z.lxor (rotr 17 x) (rotr 19 x)) (shr 10 x).

(** The constants are the fractional bits of the square and cube roots of
    the first primes. *)
Definition is_prime (n : nat) : bool :=
  forallb (fun d => negb (Nat.eqb (n mod d) 0)) (seq 2 (n - 2)).
Definition primes : list Z :=
  map Z.of_nat (filter (fun n => is_prime n = true) (seq 2 310)).

(** The integer cube root of a number below 2^105, bit by bit. *)
Definition icbrt (n : Z) : Z :=
  fold_left
    (fun r b => let r' := r + 2 ^ Z.of_nat b in
                if r' * r' * r' <=? n then r' else r)
    (rev (seq 0 35)) 0.

Definition H0 : list Z :=
  Eval vm_compute in
    map (fun p => w32 (Z.sqrt (p * 2 ^ 64))) (take 8 primes).
Definition K : list Z :=
  Eval vm_compute in
    map (fun p => w32 (icbrt (p * 2 ^ 96))) (take 64 primes).

(** Padding: the bit 1, zeros, and the bit length on 64 bits. *)
Definition be_bytes (n : nat) (x : Z) : list Z :=
  map (fun i => Z.land (Z.shiftr x (8 * Z.of_nat i)) 0xFF) (rev (seq 0 n)).
Definition pad (msg : list Z) : list Z :=
  let len := Z.of_nat (length msg) in
  let zeros := Z.to_nat ((55 - len) mod 64) in
  msg ++ [0x80] ++ replicate zeros 0 ++ be_bytes 8 (8 * len).

Fixpoint be_words (bs : list Z) : list Z :=
  match bs with
  | a :: b :: c :: d :: rest =>
      (Z.shiftl a 24 + Z.shiftl b 16 + Z.shiftl c 8 + d) :: be_words rest
  | _ => []
  end.

(** The message schedule, kept newest word first. *)
Fixpoint extend (n : nat) (rev_w : list Z) : list Z :=
  match n with
  | O => rev_w
  | S n' =>
      let w i := nth i rev_w 0 in
      extend n'
        (add32 (add32 (sigma1 (w 1%nat)) (w 6%nat))
               (add32 (sigma0 (w 14%nat)) (w 15%nat)) :: rev_w)
  end.
Definition schedule (block : list Z) : list Z :=
  rev (extend 48 (rev block)).

Record regs := Regs { ra : Z; rb : Z; rc : Z; rd : Z;
                      re : Z; rf : Z; rg : Z; rh : Z }.

Definition round (s : regs) (kw : Z * Z) : regs :=
  let t1 := add32 (add32 (add32 (rh s) (Sigma1 (re s)))
                         (add32 (Ch (re s) (rf s) (rg s)) (fst kw)))
                  (snd kw) in
  let t2 := add32 (Sigma0 (ra s)) (Maj (ra s) (rb s) (rc s)) in
  Regs (add32 t1 t2) (ra s) (rb s) (rc s) (add32 (rd s) t1) (re s) (rf s) (rg s).

Definition regs_of (h : list Z) : regs :=
  let g i := nth i h 0 in
  Regs (g 0%nat) (g 1%nat) (g 2%nat) (g 3%nat)
       (g 4%nat) (g 5%nat) (g 6%nat) (g 7%nat).
Definition list_of (s : regs) : list Z :=
  [ra s; rb s; rc s; rd s; re s; rf s; rg s; rh s].

Definition compress (h : list Z) (block : list Z) : list Z :=
  let s := fold_left round (combine K (schedule block)) (regs_of h) in
  zip_with add32 h (list_of s).

Fixpoint blocks (n : nat) (ws : list Z) : list (list Z) :=
  match n with
  | O => []
  | S n' => take 16 ws :: blocks n' (drop 16 ws)
  end.

Definition digest (msg : list Z) : list Z :=
  let ws := be_words (pad msg) in
  let h := fold_left compress (blocks (length ws / 16) ws) H0 in
  flat_map (be_bytes 4) h.

Definition hex_digit (d : Z) : Ascii.ascii :=
  Ascii.ascii_of_nat (Z.to_nat (if d <? 10 then 48 + d else 87 + d)).
Definition hexdigest (msg : list Z) : string :=
  String.string_of_list_ascii
    (flat_map (fun b => [hex_digit (Z.shiftr b 4); hex_digit (Z.land b 0xF)])
              (digest msg)).

End SHA256.

(** [SecurityManager.hash_data]:
    [hashlib.sha256(data.encode()).hexdigest()]. *)
Definition hash_data (data : pystr) : result string :=
  bs ← encode data;
  Ok (SHA256.hexdigest bs).

(** ** Python values *)

(** The values a JSON document or an untyped argument can hold: the
    built-in values, whose truth test does not raise. *)
Inductive pyval :=
  | PNone
  | PBool (b : bool)
  | PInt (z : Z)
  | PFloat (q : Q)
  | PStr (s : pystr)
  | PList (l : list pyval)
  | PDict (d : gmap string pyval).

(** Truthiness: what [if x] and [not x] test. *)
Definition truthy (v : pyval) : bool :=
  match v with
  | PNone => false
  | PBool b => b
  | PInt z => negb (z =? 0)
  | PFloat q => negb (Qeq_bool q 0)
  | PStr s => negb (bool_decide (s = []))
  | PList l => negb (bool_decide (length l = 0%nat))
  | PDict d => negb (bool_decide (size d = 0%nat))
  end.

(** [isinstance(v, str)]. *)
Definition isinstance_str (v : pyval) : bool :=
  match v with PStr _ => true | _ => false end.

(** [isinstance(v, int)]: [bool] is a subclass of [int]. *)
Definition as_int (v : pyval) : option Z :=
  match v with
  | PInt z => Some z
  | PBool b => Some (if b then 1 else 0)
  | _ => None
  end.

(** [isinstance(v, (int, float))], with the number's value. *)
Definition as_number (v : pyval) : option Q :=
  match v with
  | PFloat q => Some q
  | _ => inject_Z <$> as_int v
  end.

(** [d.get(key)]: [None] for a missing key. *)
Definition dict_get (d : gmap string pyval) (key : string) : pyval :=
  default PNone (d !! key).

(** What an untyped parameter can be handed: one of the values above, or
    an object of another class that is no [str], of which only the truth
    test matters here: it answers, or it raises ([__bool__] and [__len__]
    are the class's own). *)
Inductive pyarg :=
  | Builtin (v : pyval)
  | Object (truth : result bool).
Coercion Builtin : pyval >-> pyarg.

(** [bool(x)], which [not x], [if x] and [x and ...] evaluate first. *)
Definition truth_test (x : pyarg) : result bool :=
  match x with
  | Builtin v => Ok (truthy v)
  | Object truth => truth
  end.

(** A Python [float]: a number, or one of [inf], [-inf] and [nan]. *)
Inductive pyfloat :=
  | Finite (q : Q)
  | NotFinite.

(** The arithmetic of floats the statistics use.  A [float] is an IEEE
    double and what the operations return is rounded, so they are taken
    as they are: [sum(xs)] on a list of floats, [x / n] for a float and an
    [int], and [a / b] for two [int]s. *)
Record FloatArith := {
  float_sum : list Q -> pyfloat;
  float_div : pyfloat -> Z -> pyfloat;
  int_div : Z -> Z -> pyfloat
}.

(** ** The outside world *)

(** [parser.py], the dataclass [Review]. *)
Record Review := mkReview {
  r_text : pystr;
  r_rating : Q;
  r_author : pystr;
  r_date : pystr
}.

Record Runtime := {
  (** [str.isalnum] on a code point from 128 on (the Unicode database) *)
  unicode_isalnum : N -> bool;
  (** [langdetect.detect] *)
  detect : pystr -> result string;
  (** [self.cache.get_cached_translation(text, target_lang)] on what
      [translation_cache.json] holds: the translation found, or the
      AttributeError of a file whose JSON has another shape than a
      dictionary of dictionaries *)
  cached_translation : pystr -> string -> result (option pystr);
  (** [googletrans.Translator.detect(text).lang] *)
  google_detect : pystr -> result string;
  (** [googletrans.Translator.translate(text, dest=target_lang).text] *)
  google_translate : pystr -> string -> result pystr;
  (** [TextBlob(text).sentiment.polarity] *)
  polarity : pystr -> result Q;
  (** what the body of [_load_reviews] ends in at attempt [i]: the reviews
      extracted from the page, or the exception of the browser session *)
  page : nat -> result (list Review)
}.

(** ** src/translator.py *)

Module Translator.
Section Translator.

Context (rt : Runtime).

(** The [try] of [TextTranslator.translate]: any failure of the service
    becomes a TranslationError. *)
Definition translate_uncached (text : pystr) (target_lang : string)
    : result pystr :=
  try_except
    (detected ← google_detect rt text;
     if String.eqb detected target_lang then Ok text
     else google_translate rt text target_lang)
    [(None,
       fun e => Raise (Exn TranslationError
                         ("Failed to translate text: " +:+ exn_msg e)))].

(** [TextTranslator.translate].  The cache is looked up before the [try],
    so what the lookup raises is raised by the function.  A translation
    found is written to the cache and returned; with a service that
    answers the same text the same way, a later call reads the same value
    back, so the cache is read here and not written. *)
Definition translate (text : pystr) (target_lang : string) : result pystr :=
  if bool_decide (text = []) then Ok text
  else
    cached ← cached_translation rt text target_lang;
    match cached with
    | Some cached =>
        if negb (bool_decide (cached = [])) then Ok cached
        else translate_uncached text target_lang
    | None => translate_uncached text target_lang
    end.

End Translator.
End Translator.
Export Translator.

(** ** src/analyzer.py *)

(** [str.isspace], which is also the class [\s] of [re] on a [str]. *)
Definition is_space (c : N) : bool :=
  let z := Z.of_N c in
  ((9 <=? z) && (z <=? 13)) || ((28 <=? z) && (z <=? 32))
  || (z =? 0x85) || (z =? 0xA0) || (z =? 0x1680)
  || ((0x2000 <=? z) && (z <=? 0x200A))
  || (z =? 0x2028) || (z =? 0x2029) || (z =? 0x202F)
  || (z =? 0x205F) || (z =? 0x3000).

(** [str.strip()]. *)
Fixpoint lstrip (s : pystr) : pystr :=
  match s with
  | c :: rest => if is_space c then lstrip rest else s
  | [] => []
  end.
Definition strip (s : pystr) : pystr := rev (lstrip (rev (lstrip s))).

Module Analyzer.
Section Analyzer.

Context (rt : Runtime).
(** [self.target_language] *)
Context (target_language : string).

Definition is_ascii_alnum (c : N) : bool :=
  let z := Z.of_N c in
  ((48 <=? z) && (z <=? 57)) || ((65 <=? z) && (z <=? 90))
  || ((97 <=? z) && (z <=? 122)).

(** The class [\w]: alphanumeric or the underscore. *)
Definition is_word (c : N) : bool :=
  if (Z.of_N c <? 128) then is_ascii_alnum c || (Z.of_N c =? 95)
  else unicode_isalnum rt c.

(** The class [[\w\s.,!?-]] whose complement the first [re.sub]
    replaces. *)
Definition is_kept (c : N) : bool :=
  is_word c || is_space c
  || bool_decide (c ∈ [46; 44; 33; 63; 45]%N).

(** [re.sub(r'\s+', ' ', text)]: [in_run] tells that the run of
    whitespace being read has given its blank already. *)
Fixpoint collapse_spaces (in_run : bool) (s : pystr) : pystr :=
  match s with
  | [] => []
  | c :: rest =>
      if is_space c then
        if in_run then collapse_spaces true rest
        else 32%N :: collapse_spaces true rest
      else c :: collapse_spaces false rest
  end.

Definition _preprocess_text (text : pyval) : pystr :=
  match text with
  | PStr s =>
      if bool_decide (s = []) then []
      else
        let text := map (fun c => if is_kept c then c else 32%N) s in
        let text := collapse_spaces false text in
        strip text
  | _ => []
  end.

(** The two memoised helpers are called on the preprocessed text, a
    [str]; [lru_cache] does not change what they return. *)
Definition _detect_language (text : pystr) : result string :=
  if bool_decide (text = []) then Ok "unknown"
  else
    try_except (detect rt text)
      [(Some LangDetectException, fun _ => Ok "unknown");
       (None, fun _ => Ok "unknown")].

Definition _get_sentiment (text : pystr) : result Q :=
  if bool_decide (text = []) then Ok 0%Q
  else try_except (polarity rt text) [(None, fun _ => Ok 0%Q)].

(** [analyze_sentiment].  The guard [not text or not isinstance(text, str)]
    stands before the [try]: on an object of another class it asks the
    object for its truth, raises what that test raises, and returns the
    fallback otherwise.  The inner [try] either goes on with the
    translated text ([inl]) or returns from the function ([inr]). *)
Definition analyze_sentiment (text : pyarg) : result (Q * string) :=
  match text with
  | Object truth => truth;; Ok (0%Q, "unknown")
  | Builtin text =>
      if negb (truthy text) || negb (isinstance_str text) then
        Ok (0%Q, "unknown")
      else
        try_except
          (let text := _preprocess_text text in
           if bool_decide (text = []) then Ok (0%Q, "unknown")
           else
             detected_lang ← _detect_language text;
             step ←
               (if negb (String.eqb detected_lang target_language) then
                  try_except
                    (translated ← translate rt text target_language;
                     Ok (inl translated))
                    [(None, fun _ => Ok (inr (0%Q, detected_lang)))]
                else Ok (inl text));
             match step with
             | inr returned => Ok returned
             | inl text =>
                 sentiment ← _get_sentiment text;
                 Ok (sentiment, detected_lang)
             end)
          [(None, fun _ => Ok (0%Q, "unknown"))]
  end.

(** [concurrent.futures.as_completed] on the futures that are pending:
    it gives each of them once, in the order in which they complete.
    [next] tells at each step which of the pending ones completes first,
    by its position among them; [n] is their number. *)
Fixpoint as_completed {A} (next : nat -> nat) (n : nat) (pending : list A)
    : list A :=
  match n with
  | O => []
  | S n' =>
      let i := (next n' mod length pending)%nat in
      match pending !! i with
      | Some future => future :: as_completed next n' (delete i pending)
      | None => []
      end
  end.

(** What the loop over the completed futures appends for one future: its
    result, or the fallback when [future.result()] raises. *)
Definition collect (future : result (Q * string)) : Q * string :=
  match future with
  | Ok result => result
  | Raise _ => (0%Q, "unknown")
  end.

(** [analyze_batch] of an analyzer with [self.max_workers = max_workers]:
    the pool, whose constructor raises ValueError when it is given no
    worker, one future per text in submission order, and the loop over
    them as they complete. *)
Definition analyze_batch (max_workers : Z) (next : nat -> nat)
    (texts : list pyarg) : result (list (Q * string)) :=
  match texts with
  | [] => Ok []
  | _ =>
      if max_workers <=? 0 then
        Raise (Exn ValueError "max_workers must be greater than 0")
      else
        let futures := map analyze_sentiment texts in
        Ok (map collect (as_completed next (length futures) futures))
  end.

(** What the loop appends for the future of one text. *)
Definition collected (text : pyarg) : Q * string :=
  collect (analyze_sentiment text).

(** [get_sentiment_label] *)
Definition get_sentiment_label (sentiment : Q) : string :=
  if Qlt_le_dec (3 # 10) sentiment then "positive"
  else if Qlt_le_dec sentiment (- (3 # 10)) then "negative"
  else "neutral".

End Analyzer.
End Analyzer.
Export Analyzer.

(** ** src/parser.py *)

Module Parser.

(** What a run of [parse_reviews] does besides returning. *)
Inductive event :=
  | Attempt (attempt : nat)
  | Sleep (seconds : Z)
  | Cleanup.

Definition is_attempt (ev : event) : bool :=
  match ev with Attempt _ => true | _ => false end.

(** The events of the retried attempts [j], ..., [j + m - 1]: each is
    followed by its backoff and by the disposal of the session. *)
Definition retried (j m : nat) : list event :=
  flat_map (fun i => [Attempt i; Sleep (2 ^ Z.of_nat i); Cleanup]) (seq j m).

Section Parser.

Context (rt : Runtime).

Definition _load_reviews (attempt : nat) : result (list Review) :=
  try_except (page rt attempt)
    [(Some TimeoutException,
       fun _ => Raise (Exn NetworkError "Timeout while loading reviews"));
     (Some WebDriverException,
       fun e => Raise (Exn NetworkError ("WebDriver error: " +:+ exn_msg e)));
     (None,
       fun e => Raise (Exn ParsingError ("Error parsing reviews: " +:+ exn_msg e)))].

(** The loop [for attempt in range(self.max_retries)].  A loop that ends
    without returning makes the function return [None]. *)
Fixpoint parse_reviews_loop (max_retries : Z) (attempts : list nat)
    : result (option (list Review)) * list event :=
  match attempts with
  | [] => (Ok None, [])
  | attempt :: rest =>
      match _load_reviews attempt with
      | Ok reviews => (Ok (Some reviews), [Attempt attempt])
      | Raise e =>
          if issubclass (exn_cls e) NetworkError then
            if bool_decide (Z.of_nat attempt = max_retries - 1) then
              (Raise e, [Attempt attempt])
            else
              let '(r, evs) := parse_reviews_loop max_retries rest in
              (r, Attempt attempt :: Sleep (2 ^ Z.of_nat attempt)
                    :: Cleanup :: evs)
          else (Raise e, [Attempt attempt])
      end
  end.

Definition parse_reviews_run (max_retries : Z)
    : result (option (list Review)) * list event :=
  parse_reviews_loop max_retries (seq 0 (Z.to_nat max_retries)).

Definition parse_reviews (max_retries : Z)
    : result (option (list Review)) :=
  fst (parse_reviews_run max_retries).

(** The number of calls of [_load_reviews] in a run. *)
Definition attempts_made (max_retries : Z) : nat :=
  length (List.filter is_attempt (snd (parse_reviews_run max_retries))).

End Parser.
End Parser.
Export Parser.

(** ** src/security.py *)

Module Security.

(** The methods of the class statement of [SecurityManager], in the order
    of the source. *)
Inductive method :=
  | m_init | m_initialize_encryption | m_encrypt_data | m_decrypt_data
  | m_generate_secure_token | m_hash_data | m_validate_url
  | m_validate_telegram_token | m_validate_chat_id | m_sanitize_text
  | m_secure_config | m_load_secure_config | m_save_secure_config
  | m_validate_review.

Definition class_dict : list (string * method) :=
  [("__init__", m_init);
   ("_initialize_encryption", m_initialize_encryption);
   ("encrypt_data", m_encrypt_data);
   ("decrypt_data", m_decrypt_data);
   ("generate_secure_token", m_generate_secure_token);
   ("hash_data", m_hash_data);
   ("validate_url", m_validate_url);
   ("validate_telegram_token", m_validate_telegram_token);
   ("validate_chat_id", m_validate_chat_id);
   ("sanitize_text", m_sanitize_text);
   ("secure_config", m_secure_config);
   ("load_secure_config", m_load_secure_config);
   ("save_secure_config", m_save_secure_config);
   ("validate_review", m_validate_review)].

(** An instance holds what [__init__] assigns. *)
Record SecurityManager := {
  logger : string;
  key_file : string;
  fernet : list Z
}.

Inductive attribute :=
  | InstanceAttribute (name : string)
  | BoundMethod (m : method).

Fixpoint assoc {A} (key : string) (l : list (string * A)) : option A :=
  match l with
  | [] => None
  | (k, v) :: rest => if String.eqb k key then Some v else assoc key rest
  end.

(** Attribute access [sm.name]: the instance's own attributes, then the
    class; the class defines no [__getattr__]. *)
Definition getattr (sm : SecurityManager) (name : string) : result attribute :=
  if bool_decide (name ∈ ["logger"; "key_file"; "fernet"]) then
    Ok (InstanceAttribute name)
  else
    match assoc name class_dict with
    | Some m => Ok (BoundMethod m)
    | None =>
        Raise (Exn AttributeError
                 ("'SecurityManager' object has no attribute '" +:+ name +:+ "'"))
    end.

(** What [validate_review] is handed: [main.py] passes the [Review]
    object, the tests a dictionary. *)
Inductive review_arg :=
  | ReviewObject (r : Review)
  | ReviewDict (d : gmap string pyval).

Definition validate_review (review : review_arg) : result bool :=
  try_except
    (match review with
     | ReviewObject _ =>
         (* [field in review] on an object that is no container *)
         Raise (Exn TypeError "argument of type 'Review' is not iterable")
     | ReviewDict d =>
         if negb (forallb (fun field => bool_decide (is_Some (d !! field)))
                          ["text"; "rating"; "date"])
         then Ok false
         else if negb (match dict_get d "text" with
                       | PStr s => negb (bool_decide (strip s = []))
                       | _ => false
                       end)
         then Ok false
         else if negb (match as_number (dict_get d "rating") with
                       | Some q => Qle_bool 0 q && Qle_bool q 5
                       | None => false
                       end)
         then Ok false
         else if negb (isinstance_str (dict_get d "date")) then Ok false
         else Ok true
     end)
    [(None, fun _ => Ok false)].

End Security.
Export Security.

(** ** src/config.py *)

Module Config.

Abbreviation config := (gmap string pyval).

Definition required_sections : list string :=
  ["parser"; "analyzer"; "notifier"; "cache"; "logging"; "security"].

Definition valid_levels : list string :=
  ["DEBUG"; "INFO"; "WARNING"; "ERROR"; "CRITICAL"].

(** [level in valid_levels]: only a [str] equals a [str]. *)
Definition is_valid_level (level : pyval) : bool :=
  match level with
  | PStr s => bool_decide (s ∈ str <$> valid_levels)
  | _ => false
  end.

(** [section.get(key)] *)
Definition get (section : pyval) (key : string) : result pyval :=
  match section with
  | PDict d => Ok (dict_get d key)
  | _ => Raise (Exn AttributeError "object has no attribute 'get'")
  end.

(** [config[section]] *)
Definition getitem (cfg : config) (key : string) : result pyval :=
  match cfg !! key with
  | Some v => Ok v
  | None => Raise (Exn KeyError key)
  end.

(** [if not isinstance(section.get(key), int) or section[key] < 1:
    raise ValueError(msg)]; the subscript reads the value [get] found. *)
Definition require_positive_int (section : pyval) (key msg : string)
    : result unit :=
  v ← get section key;
  match as_int v with
  | Some z => if z <? 1 then Raise (Exn ValueError msg) else Ok tt
  | None => Raise (Exn ValueError msg)
  end.

(** [_validate_config], block by block as the comments of the source
    divide it. *)

(** The loop over [required_sections]. *)
Definition validate_sections (cfg : config) : result unit :=
  foldr (fun section rest =>
           if bool_decide (cfg !! section = None) then
             Raise (Exn ValueError
                      ("Отсутствует секция " +:+ section +:+ " в конфигурации"))
           else rest)
        (Ok tt) required_sections.

Definition validate_parser (parser : pyval) : result unit :=
  require_positive_int parser "max_retries"
    "max_retries должен быть положительным целым числом";;
  require_positive_int parser "timeout"
    "timeout должен быть положительным целым числом".

Definition validate_analyzer (analyzer : pyval) : result unit :=
  min_confidence ← get analyzer "min_confidence";
  match as_number min_confidence with
  | Some q =>
      if negb (Qle_bool 0 q && Qle_bool q 1) then
        Raise (Exn ValueError "min_confidence должен быть числом от 0 до 1")
      else Ok tt
  | None =>
      Raise (Exn ValueError "min_confidence должен быть числом от 0 до 1")
  end.

Definition validate_notifier (notifier : pyval) : result unit :=
  enabled ← get notifier "enabled";
  if truthy enabled then
    token ← get notifier "telegram_token";
    if negb (truthy token) then
      Raise (Exn ValueError
               "telegram_token обязателен при включенных уведомлениях")
    else
      chat_id ← get notifier "chat_id";
      if negb (truthy chat_id) then
        Raise (Exn ValueError
                 "chat_id обязателен при включенных уведомлениях")
      else Ok tt
  else Ok tt.

Definition validate_cache (cache : pyval) : result unit :=
  require_positive_int cache "max_size"
    "max_size должен быть положительным целым числом".

Definition validate_logging (logging_config : pyval) : result unit :=
  level ← get logging_config "level";
  if negb (is_valid_level level) then
    Raise (Exn ValueError
             "level должен быть одним из: DEBUG, INFO, WARNING, ERROR, CRITICAL")
  else Ok tt.

Definition _validate_config (cfg : config) : result unit :=
  validate_sections cfg;;
  parser ← getitem cfg "parser";
  validate_parser parser;;
  analyzer ← getitem cfg "analyzer";
  validate_analyzer analyzer;;
  notifier ← getitem cfg "notifier";
  validate_notifier notifier;;
  cache ← getitem cfg "cache";
  validate_cache cache;;
  logging_config ← getitem cfg "logging";
  validate_logging logging_config.

(** [field cfg section key] is the value under [key] of the section,
    [None] when the section holds no such value. *)
Definition field (cfg : config) (section key : string) : pyval :=
  match cfg !! section with
  | Some (PDict d) => dict_get d key
  | _ => PNone
  end.

(** The constraints as the specification lists them, word for word, to be
    compared with [_validate_config]: a number that is below 1, a number
    that lies outside [0, 1], a level that is none of the five names, the
    value [true] with an empty string. *)
Definition below_one (v : pyval) : bool :=
  match as_number v with
  | Some q => negb (Qle_bool 1 q)
  | None => false
  end.

Definition outside_unit_interval (v : pyval) : bool :=
  match as_number v with
  | Some q => negb (Qle_bool 0 q && Qle_bool q 1)
  | None => false
  end.

Definition is_true (v : pyval) : bool :=
  match v with PBool true => true | _ => false end.

Definition is_empty_str (v : pyval) : bool :=
  match v with PStr [] => true | _ => false end.

Definition stated_violation (cfg : config) : bool :=
  existsb (fun section => bool_decide (cfg !! section = None))
          required_sections
  || below_one (field cfg "parser" "max_retries")
  || below_one (field cfg "parser" "timeout")
  || outside_unit_interval (field cfg "analyzer" "min_confidence")
  || below_one (field cfg "cache" "max_size")
  || negb (is_valid_level (field cfg "logging" "level"))
  || is_true (field cfg "notifier" "enabled")
     && (is_empty_str (field cfg "notifier" "telegram_token")
         || is_empty_str (field cfg "notifier" "chat_id")).

(** The constraints as [_validate_config] checks them: a value has to be
    there, be a number of the kind asked for and lie in the range; the
    notifier's switch and its two strings are read for their truth. *)
Definition at_least_one (v : pyval) : Prop :=
  exists z, as_int v = Some z /\ 1 <= z.

Definition in_unit_interval (v : pyval) : Prop :=
  exists q, as_number v = Some q /\ (0 <= q)%Q /\ (q <= 1)%Q.

Definition known_level (v : pyval) : Prop :=
  exists level, level ∈ valid_levels /\ v = PStr (str level).

Definition constraint_violated (cfg : config) : Prop :=
  (exists section, section ∈ required_sections /\ cfg !! section = None)
  \/ ~ at_least_one (field cfg "parser" "max_retries")
  \/ ~ at_least_one (field cfg "parser" "timeout")
  \/ ~ in_unit_interval (field cfg "analyzer" "min_confidence")
  \/ ~ at_least_one (field cfg "cache" "max_size")
  \/ ~ known_level (field cfg "logging" "level")
  \/ (truthy (field cfg "notifier" "enabled") = true
      /\ (truthy (field cfg "notifier" "telegram_token") = false
          \/ truthy (field cfg "notifier" "chat_id") = false)).

(** A section is an object of the document. *)
Definition is_object (cfg : config) (section : string) : Prop :=
  forall v, cfg !! section = Some v -> exists d, v = PDict d.

(** The dictionary [_create_default_config] builds from the dataclass
    defaults. *)
Definition default_config : config :=
  list_to_map
    [("parser", PDict (list_to_map
        [("max_retries", PInt 3); ("timeout", PInt 10);
         ("max_workers", PInt 4); ("scroll_pause_time", PFloat 2);
         ("max_reviews", PNone); ("min_rating", PFloat 0);
         ("max_rating", PFloat 5)]));
     ("analyzer", PDict (list_to_map
        [("target_language", PStr (str "en"));
         ("min_confidence", PFloat (6 # 10));
         ("batch_size", PInt 10); ("cache_size", PInt 1000);
         ("sentiment_thresholds", PDict (list_to_map
            [("positive", PFloat (3 # 10));
             ("negative", PFloat (- (3 # 10)));
             ("neutral", PFloat 0)]))]));
     ("notifier", PDict (list_to_map
        [("enabled", PBool true); ("telegram_token", PStr (str ""));
         ("chat_id", PStr (str "")); ("notify_on_negative", PBool true);
         ("notify_on_error", PBool true); ("notify_on_startup", PBool true);
         ("notify_on_shutdown", PBool true)]));
     ("cache", PDict (list_to_map
        [("enabled", PBool true); ("max_size", PInt 1000);
         ("ttl_days", PInt 30); ("compression", PBool true);
         ("backup_count", PInt 5)]));
     ("logging", PDict (list_to_map
        [("level", PStr (str "INFO")); ("directory", PStr (str "logs"));
         ("max_bytes", PInt (10 * 1024 * 1024)); ("backup_count", PInt 5);
         ("format", PStr (str "json")); ("console_output", PBool true)]));
     ("security", PDict (list_to_map
        [("hash_algorithm", PStr (str "sha256"));
         ("min_password_length", PInt 8); ("max_login_attempts", PInt 3);
         ("session_timeout", PInt 3600);
         ("allowed_ips", PList [PStr (str "127.0.0.1")])]))].

(** The field names of the six dataclasses. *)
Definition dataclass_fields (section : string) : list string :=
  if String.eqb section "parser" then
    ["max_retries"; "timeout"; "max_workers"; "scroll_pause_time";
     "max_reviews"; "min_rating"; "max_rating"]
  else if String.eqb section "analyzer" then
    ["target_language"; "min_confidence"; "batch_size"; "cache_size";
     "sentiment_thresholds"]
  else if String.eqb section "notifier" then
    ["enabled"; "telegram_token"; "chat_id"; "notify_on_negative";
     "notify_on_error"; "notify_on_startup"; "notify_on_shutdown"]
  else if String.eqb section "cache" then
    ["enabled"; "max_size"; "ttl_days"; "compression"; "backup_count"]
  else if String.eqb section "logging" then
    ["level"; "directory"; "max_bytes"; "backup_count"; "format";
     "console_output"]
  else
    ["hash_algorithm"; "min_password_length"; "max_login_attempts";
     "session_timeout"; "allowed_ips"].

(** [_update_configs]: each dataclass is built from the section's items
    as keyword arguments, so the section must be a mapping whose keys are
    fields of the dataclass. *)
Definition _update_configs (cfg : config) : result unit :=
  foldr (fun section rest =>
           v ← getitem cfg section;
           match v with
           | PDict d =>
               if forallb (fun key => bool_decide (key ∈ dataclass_fields section))
                          (elements (dom d))
               then rest
               else Raise (Exn TypeError "unexpected keyword argument")
           | _ => Raise (Exn TypeError "argument after ** must be a mapping")
           end)
        (Ok tt) required_sections.

(** [save_config]; writing the file is not modelled. *)
Definition save_config (cfg : config) : result unit :=
  _validate_config cfg;;
  _update_configs cfg.

(** [load_config]: [file] is the JSON object of [config.json], [None]
    when the file does not exist. *)
Definition load_config (file : option config) : result config :=
  cfg ← match file with
        | None => save_config default_config;; Ok default_config
        | Some cfg => Ok cfg
        end;
  _validate_config cfg;;
  _update_configs cfg;;
  Ok cfg.

End Config.
Export Config.

(** ** main.py *)

Module Main.

(** The dictionaries [process_reviews_batch] appends to the cache. *)
Record CacheEntry := mkEntry {
  c_text : pystr;
  c_hash : string;
  c_sentiment : Q;
  c_language : string;
  c_rating : Q;
  c_author : pystr;
  c_date : pystr
}.

(** A [for] loop whose body may raise. *)
Fixpoint for_each {S A} (body : S -> A -> result S) (items : list A) (s : S)
    : result S :=
  match items with
  | [] => Ok s
  | x :: rest => s' ← body s x; for_each body rest s'
  end.

(** [load_cache]: [invoke] stands for calling a method the class has. *)
Definition load_cache
    (invoke : method -> string -> result (list CacheEntry))
    (security_manager : SecurityManager) : result (list CacheEntry) :=
  try_except
    (load_secure_cache ← getattr security_manager "load_secure_cache";
     match load_secure_cache with
     | BoundMethod m => invoke m "reviews_cache.json"
     | InstanceAttribute _ =>
         Raise (Exn TypeError "object is not callable")
     end)
    [(Some SecurityError, fun _ => Ok []);
     (Some ValidationError, fun _ => Ok []);
     (None, fun _ => Ok [])].

(** The cache [main] hands to [process_reviews_batch]. *)
Definition initial_cache
    (invoke : method -> string -> result (list CacheEntry))
    (security_manager : SecurityManager) (cache_enabled : bool)
    : result (list CacheEntry) :=
  if cache_enabled then load_cache invoke security_manager else Ok [].

Section Batch.

Context (rt : Runtime).
(** [parser.max_retries] and [analyzer.target_language] *)
Context (max_retries : Z) (target_language : string).

(** The first loop, which keeps the reviews whose hash no cached entry
    has; [keep_if_new] is its body. *)
Definition keep_if_new (cache : list CacheEntry)
    (new_reviews : list Review) (review : Review) : result (list Review) :=
  review_hash ← hash_data (r_text review);
  if negb (existsb (fun cached => String.eqb (c_hash cached) review_hash)
                   cache)
  then Ok (new_reviews ++ [review])
  else Ok new_reviews.

Definition filter_new (cache : list CacheEntry) (reviews : list Review)
    : result (list Review) :=
  for_each (keep_if_new cache) reviews [].

(** The body of the second loop, with its own [try]. *)
Definition process_review (cache : list CacheEntry) (review : Review)
    : result (list CacheEntry) :=
  try_except
    (validate_review (ReviewObject review);;
     '(sentiment, lang) ← analyze_sentiment rt target_language
                            (PStr (r_text review));
     review_hash ← hash_data (r_text review);
     Ok (cache ++ [ {| c_text := r_text review;
                       c_hash := review_hash;
                       c_sentiment := sentiment;
                       c_language := lang;
                       c_rating := r_rating review;
                       c_author := r_author review;
                       c_date := r_date review |} ]))
    [(Some ValidationError, fun _ => Ok cache);
     (None, fun _ => Ok cache)].

(** [process_reviews_batch].  The handlers of the outer [try] return the
    list the function was given: what can raise in its body does so
    before the first [append]. *)
Definition process_reviews_batch (cache : list CacheEntry)
    : result (list CacheEntry) :=
  try_except
    (parsed ← parse_reviews rt max_retries;
     reviews ← match parsed with
               | Some reviews => Ok reviews
               | None =>
                   Raise (Exn TypeError "object of type 'NoneType' has no len()")
               end;
     new_reviews ← filter_new cache reviews;
     if bool_decide (new_reviews = []) then Ok cache
     else for_each process_review new_reviews cache)
    [(Some NetworkError, fun _ => Ok cache);
     (Some ParsingError, fun _ => Ok cache);
     (None, fun _ => Ok cache)].

(** Two notions the properties below are stated with.  [is_new]: what
    the first loop decides for one review.  [entry_for]: the dictionary
    the second loop appends for it. *)
Definition is_new (cache : list CacheEntry) (review : Review) : bool :=
  match hash_data (r_text review) with
  | Ok review_hash =>
      negb (existsb (fun cached => String.eqb (c_hash cached) review_hash)
                    cache)
  | Raise _ => false
  end.

Definition entry_for (review : Review) : option CacheEntry :=
  match analyze_sentiment rt target_language (PStr (r_text review)),
        hash_data (r_text review) with
  | Ok (sentiment, lang), Ok review_hash =>
      Some (mkEntry (r_text review) review_hash sentiment lang
                    (r_rating review) (r_author review) (r_date review))
  | _, _ => None
  end.

(** The number of entries of a cache that carry a given hash. *)
Definition entries_with_hash (h : string) (cache : list CacheEntry) : nat :=
  length (List.filter (fun e => String.eqb (c_hash e) h) cache).

End Batch.



Section ClaimedStatistics.

Context (rt : Runtime) (target_language : string) (fa : FloatArith).




End ClaimedStatistics.

(** [main] up to its first statement: [pipeline] is all that follows
    [config_manager.load_config()] inside the [try], the fetch included.
    When [load_config] raises, the handler reads [notifier_config] and
    the [finally] block reads [parser], locals no statement has bound
    yet. *)
Definition main {T} (file : option config) (pipeline : config -> result T)
    : result T :=
  match load_config file with
  | Ok cfg => pipeline cfg
  | Raise _ =>
      Raise (Exn UnboundLocalError
               "local variable 'parser' referenced before assignment")
  end.

End Main.
Export Main.

(** ** Concrete runs *)

Module Fixtures.

Definition great : pystr := str "Great service!".
Definition great_spaced : pystr := str "Great  service!".
Definition mauvais : pystr := str "Tres mauvais service".
Definition slow : pystr := str "Slow delivery".

Definition review_of (text : pystr) : Review :=
  {| r_text := text; r_rating := 5; r_author := str "Anonymous";
     r_date := str "2024-01-01" |}.

(** An entry a former run left in the cache. *)
Definition old_entry : Main.CacheEntry :=
  Main.mkEntry slow
    "315475e0bb65a8929704689cb267e921e1f8ccea281d9086a92ba3abaa5c8237"
    (1 # 4) "en" 3 (str "Anonymous") (str "2023-12-31").

(** A machine without network access and with a sentiment lexicon that
    knows one sentence: detection answers, translation fails, scoring
    fails on any other text. *)
Definition offline (reviews : list Review) : Runtime :=
  {| unicode_isalnum := fun _ => false;
     detect := fun text =>
       if bool_decide (text = mauvais) then Ok "fr" else Ok "en";
     cached_translation := fun _ _ => Ok None;
     google_detect := fun _ => Raise (Exn OtherException "timed out");
     google_translate := fun _ _ => Raise (Exn OtherException "timed out");
     polarity := fun text =>
       if bool_decide (text = great) then Ok 1%Q
       else Raise (Exn OtherException "lexicon not found");
     page := fun _ => Ok reviews |}.

(** The default configuration with a token and a chat identifier. *)
Definition configured : Config.config :=
  <["notifier" := PDict (list_to_map
      [("enabled", PBool true);
       ("telegram_token", PStr (str "123456:token"));
       ("chat_id", PStr (str "42"))])]> Config.default_config.

(** The same with a number of retries that is no integer. *)
Definition fractional_retries : Config.config :=
  <["parser" := PDict (list_to_map
      [("max_retries", PFloat (5 # 2)); ("timeout", PInt 10)])]> configured.

(** The same with [null] where the notifier's section should be. *)
Definition notifier_null : Config.config :=
  <["notifier" := PNone]> configured.

(** An array of several numbers, handed over where a text is expected:
    its truth test raises. *)
Definition ambiguous : pyarg :=
  Object (Raise (Exn ValueError
                   "The truth value of an array with more than one element is ambiguous"))%string.

(** Three futures of which the third completes first. *)
Definition third_first (k : nat) : nat :=
  if (k =? 2)%nat then 2%nat else 0%nat.

Definition no_reviews : Runtime := offline [].
Definition two_reviews : Runtime :=
  offline [review_of great; review_of mauvais].
Definition spaced_reviews : Runtime :=
  offline [review_of great; review_of great_spaced].
Definition twice_the_same : Runtime :=
  offline [review_of great; review_of great].

(** A source that times out on the first [failures] attempts and then
    ends as [final] says. *)
Definition flaky (failures : nat) (final : result (list Review)) : Runtime :=
  {| unicode_isalnum := fun _ => false;
     detect := fun _ => Ok "en";
     cached_translation := fun _ _ => Ok None;
     google_detect := fun _ => Ok "en";
     google_translate := fun text _ => Ok text;
     polarity := fun _ => Ok 0%Q;
     page := fun attempt =>
       if (attempt <? failures)%nat then
         Raise (Exn TimeoutException "timeout")
       else final |}.

End Fixtures.

(** * The rest of the sources *)

(** ** src/translator.py: the translation cache and [translate_review] *)

Module TranslationCache.

(** [self.cache] as the program writes it: a dictionary of dictionaries,
    text to target language to translation.  It is the empty dictionary
    when [translation_cache.json] is missing or cannot be read. *)
Abbreviation cache := (gmap pystr (gmap string pystr)).

(** [self.cache.get(text, {}).get(target_lang)] *)
Definition get_cached_translation (c : cache) (text : pystr)
    (target_lang : string) : option pystr :=
  default ∅ (c !! text) !! target_lang.

(** [cache_translation]; the file [_save_cache] writes is not modelled, a
    failure to write it is logged and swallowed. *)
Definition cache_translation (c : cache) (text : pystr) (target_lang : string)
    (translation : pystr) : cache :=
  let c := if bool_decide (c !! text = None) then <[text := ∅]> c else c in
  <[text := <[target_lang := translation]> (default ∅ (c !! text))]> c.

(** The memo [lru_cache(maxsize=1000)] keeps in front of [translate]: the
    calls that returned, with what they returned, the most recently used
    first.  A call that raised is not kept. *)
Abbreviation memo := (list (pystr * string * pystr)).

Definition maxsize : nat := 1000.

Definition is_call (text : pystr) (target_lang : string)
    (entry : pystr * string * pystr) : bool :=
  bool_decide (fst entry = (text, target_lang)).

Definition memo_find (m : memo) (text : pystr) (target_lang : string)
    : option pystr :=
  snd <$> List.find (is_call text target_lang) m.

(** A hit moves the call to the front; a new result is put at the front
    and the least recently used one is dropped when the memo is full. *)
Definition memo_hit (m : memo) (text : pystr) (target_lang : string)
    (result : pystr) : memo :=
  (text, target_lang, result)
    :: List.filter (fun entry => negb (is_call text target_lang entry)) m.

Definition memo_add (m : memo) (text : pystr) (target_lang : string)
    (result : pystr) : memo :=
  take maxsize ((text, target_lang, result) :: m).

Section Translate.

Context (rt : Runtime).

(** The [try] of [TextTranslator.translate] with the cache it writes: the
    result and the cache after it. *)
Definition translate_uncached_with_cache (c : cache) (text : pystr)
    (target_lang : string) : result pystr * cache :=
  match google_detect rt text with
  | Raise e =>
      (Raise (Exn TranslationError
                ("Failed to translate text: " +:+ exn_msg e)), c)
  | Ok detected =>
      if String.eqb detected target_lang then
        (Ok text, cache_translation c text target_lang text)
      else
        match google_translate rt text target_lang with
        | Ok translation =>
            (Ok translation, cache_translation c text target_lang translation)
        | Raise e =>
            (Raise (Exn TranslationError
                      ("Failed to translate text: " +:+ exn_msg e)), c)
        end
  end.

(** The body of [TextTranslator.translate] with the cache it reads and
    writes. *)
Definition translate_with_cache (c : cache) (text : pystr)
    (target_lang : string) : result pystr * cache :=
  if bool_decide (text = []) then (Ok text, c)
  else
    match get_cached_translation c text target_lang with
    | Some cached =>
        if negb (bool_decide (cached = [])) then (Ok cached, c)
        else translate_uncached_with_cache c text target_lang
    | None => translate_uncached_with_cache c text target_lang
    end.

(** [TextTranslator.translate] as it is called, the decorator included: a
    call the memo holds is answered from it and the body does not run. *)
Definition translate_memoised (m : memo) (c : cache) (text : pystr)
    (target_lang : string) : result pystr * memo * cache :=
  match memo_find m text target_lang with
  | Some result => (Ok result, memo_hit m text target_lang result, c)
  | None =>
      let '(r, c') := translate_with_cache c text target_lang in
      match r with
      | Ok result => (Ok result, memo_add m text target_lang result, c')
      | Raise e => (Raise e, m, c')
      end
  end.

(** The runtime whose cache is [c]. *)
Definition with_cache (c : cache) : Runtime :=
  {| unicode_isalnum := unicode_isalnum rt;
     detect := detect rt;
     cached_translation :=
       fun text target_lang => Ok (get_cached_translation c text target_lang);
     google_detect := google_detect rt;
     google_translate := google_translate rt;
     polarity := polarity rt;
     page := page rt |}.


End Translate.
End TranslationCache.
Export TranslationCache.


(** ** src/parser.py: the browser session and the backoff *)

Module Session.

(** The property [driver] of a parser whose session is not started:
    [start] is what creating the Chrome driver ends in. *)
Definition driver {A} (start : result A) : result A :=
  try_except start
    [(None,
       fun _ => Raise (Exn NetworkError "Failed to initialize Chrome driver"))].

(** The seconds a run of [parse_reviews] spends in [time.sleep] between
    its attempts. *)
Definition backoff (evs : list event) : Z :=
  foldr (fun ev total =>
           match ev with Sleep seconds => seconds + total | _ => total end)
        0 evs.

(** The number of sessions a run disposes of. *)
Definition cleanups (evs : list event) : nat :=
  length (List.filter (fun ev => match ev with Cleanup => true | _ => false end)
                      evs).

End Session.
Export Session.

(** ** main.py and src/security.py: the reviews as dictionaries *)

Module ReviewData.

(** The fields of a review as a dictionary, the form [validate_review]
    reads. *)
Definition review_dict (review : Review) : gmap string pyval :=
  list_to_map
    [("text", PStr (r_text review)); ("rating", PFloat (r_rating review));
     ("author", PStr (r_author review)); ("date", PStr (r_date review))].

(** The hashes of the entries of a cache. *)
Definition hashes (cache : list CacheEntry) : list string := map c_hash cache.

End ReviewData.
Export ReviewData.


(** ** What a JSON file can hold *)

Module Json.

(** [needle in haystack] on two strings: the needle is a substring. *)
Fixpoint starts_with (needle haystack : pystr) : bool :=
  match needle, haystack with
  | [], _ => true
  | c :: needle', c' :: haystack' => (c =? c')%N && starts_with needle' haystack'
  | _ :: _, [] => false
  end.

Fixpoint str_contains (needle haystack : pystr) : bool :=
  starts_with needle haystack
  || match haystack with
     | [] => false
     | _ :: haystack' => str_contains needle haystack'
     end.

(** [key in document] for a string [key] and whatever [json.load]
    returned: a key of an object, an element of an array, a substring of a
    string; a number, a boolean and [null] are not iterable. *)
Definition contains (key : string) (document : pyval) : result bool :=
  match document with
  | PDict d => Ok (bool_decide (is_Some (d !! key)))
  | PList l =>
      Ok (existsb (fun x => match x with
                            | PStr s => bool_decide (s = str key)
                            | _ => false
                            end) l)
  | PStr s => Ok (str_contains (str key) s)
  | _ => Raise (Exn TypeError "argument is not iterable")
  end.

(** [document[key]] for a string [key]: only an object has string keys. *)
Definition subscript (key : string) (document : pyval) : result pyval :=
  match document with
  | PDict d =>
      match d !! key with
      | Some v => Ok v
      | None => Raise (Exn KeyError key)
      end
  | _ => Raise (Exn TypeError "indices must be integers")
  end.

End Json.

(** ** src/config.py: the configuration file *)

Module ConfigFile.

(** [config.json]: no file, a file whose text is no JSON (what a write
    that failed leaves behind), or a file that holds a JSON value.  Apart
    from that the file system is taken not to fail. *)
Inductive content :=
  | Missing
  | Damaged
  | Holds (document : pyval).

Section ConfigFile.

(** What [json.dump(config, f, indent=4, ensure_ascii=False)] ends in on a
    file opened for writing in UTF-8: it raises UnicodeEncodeError in the
    middle of the text when a string of the document holds a lone
    surrogate. *)
Context (json_dump : config -> result unit).

(** [save_config]: the file is replaced after the validation and before
    the dataclasses are rebuilt; a write that raises leaves the text it
    had written so far. *)
Definition save_config (cfg : config) (file : content)
    : result unit * content :=
  match _validate_config cfg with
  | Raise e => (Raise e, file)
  | Ok _ =>
      match json_dump cfg with
      | Raise e => (Raise e, Damaged)
      | Ok _ => (_update_configs cfg, Holds (PDict cfg))
      end
  end.

(** [_validate_config] on a document that is no object: the loop over the
    required sections, then [config['parser']]. *)
Definition validate_other (document : pyval) : result unit :=
  for_each (fun (_ : unit) section =>
              present ← Json.contains section document;
              if negb present then
                Raise (Exn ValueError
                         ("Отсутствует секция " +:+ section +:+ " в конфигурации"))
              else Ok tt)
           required_sections tt;;
  Json.subscript "parser" document;;
  Ok tt.

Definition load_config (file : content) : result config * content :=
  let '(created, file) :=
    match file with
    | Missing => save_config default_config Missing
    | _ => (Ok tt, file)
    end in
  (created;;
   match file with
   | Missing => Raise (Exn OtherException "No such file or directory")
   | Damaged => Raise (Exn ValueError "Expecting value")
   | Holds (PDict cfg) =>
       _validate_config cfg;;
       _update_configs cfg;;
       Ok cfg
   | Holds document =>
       validate_other document;;
       Raise (Exn TypeError "argument after ** must be a mapping")
   end,
   file).

End ConfigFile.

End ConfigFile.

(** ** src/analyzer.py: the statistics *)

Module AnalyzerStats.

(** The dictionary [get_sentiment_stats] returns, one field per key. *)
Record SentimentStats := {
  average : pyfloat;
  positive : pyfloat;
  negative : pyfloat;
  neutral : pyfloat
}.

(** [sum(1 for s in sentiments if ...)], one per condition: [s[0] > 0.3],
    [s[0] < -0.3] and [-0.3 <= s[0] <= 0.3]. *)
Definition count_positive (sentiments : list (Q * string)) : nat :=
  length (List.filter (fun s => negb (Qle_bool (fst s) (3 # 10))) sentiments).
Definition count_negative (sentiments : list (Q * string)) : nat :=
  length (List.filter (fun s => negb (Qle_bool (- (3 # 10)) (fst s)))
                      sentiments).
Definition count_neutral (sentiments : list (Q * string)) : nat :=
  length (List.filter
            (fun s => Qle_bool (- (3 # 10)) (fst s) && Qle_bool (fst s) (3 # 10))
            sentiments).

Section Stats.

Context (rt : Runtime) (target_language : string) (fa : FloatArith).

Definition no_stats : SentimentStats :=
  {| average := Finite 0; positive := Finite 0;
     negative := Finite 0; neutral := Finite 0 |}.

(** [get_sentiment_stats] of an analyzer with [max_workers] workers;
    [next] is the order in which the futures of [analyze_batch] complete.
    The average is a float divided by an [int], each fraction an [int]
    divided by an [int]. *)
Definition get_sentiment_stats (max_workers : Z) (next : nat -> nat)
    (texts : list pyarg) : result SentimentStats :=
  match texts with
  | [] => Ok no_stats
  | _ =>
      sentiments ← analyze_batch rt target_language max_workers next texts;
      let total := length sentiments in
      if bool_decide (total = 0%nat) then Ok no_stats
      else
        Ok {| average :=
                float_div fa (float_sum fa (map fst sentiments))
                          (Z.of_nat total);
              positive :=
                int_div fa (Z.of_nat (count_positive sentiments))
                        (Z.of_nat total);
              negative :=
                int_div fa (Z.of_nat (count_negative sentiments))
                        (Z.of_nat total);
              neutral :=
                int_div fa (Z.of_nat (count_neutral sentiments))
                        (Z.of_nat total) |}
  end.

(** The number of texts [get_sentiment_label] gives a label. *)
Definition labelled (label : string) (texts : list pyarg) : nat :=
  length (List.filter
            (fun text =>
               String.eqb
                 (get_sentiment_label (fst (collected rt target_language text)))
                 label)
            texts).

(** [get_language_distribution]: the loop over the texts on the
    [defaultdict]; the language is detected on the text as given.  The
    test [text and isinstance(text, str)] stands in no [try]: it asks an
    object for its truth first and raises what that raises. *)
Definition count_language (language_counts : gmap string nat) (text : pyarg)
    : result (gmap string nat) :=
  match text with
  | Object truth => truth;; Ok language_counts
  | Builtin (PStr s) =>
      if negb (bool_decide (s = [])) then
        lang ← _detect_language rt s;
        Ok (<[lang := S (default 0%nat (language_counts !! lang))]>
              language_counts)
      else Ok language_counts
  | Builtin _ => Ok language_counts
  end.

Definition get_language_distribution (texts : list pyarg)
    : result (gmap string nat) :=
  match texts with
  | [] => Ok ∅
  | _ => for_each count_language texts ∅
  end.

(** The language [get_language_distribution] counts a text under, when it
    counts it, and the number of texts it counts under a language. *)
Definition language_of (text : pyarg) : option string :=
  match text with
  | Builtin (PStr s) =>
      if bool_decide (s = []) then None
      else match _detect_language rt s with
           | Ok lang => Some lang
           | Raise _ => None
           end
  | _ => None
  end.

Definition occurrences (lang : string) (texts : list pyarg) : nat :=
  length (List.filter
            (fun text => bool_decide (language_of text = Some lang)) texts).

Definition counted (texts : list pyarg) : nat :=
  length (List.filter (fun text => bool_decide (is_Some (language_of text)))
                      texts).

(** The sum of the values of the dictionary. *)
Definition total_count (language_counts : gmap string nat) : nat :=
  map_fold (fun _ count total => (count + total)%nat) 0%nat language_counts.

End Stats.

End AnalyzerStats.
Export AnalyzerStats.

(** ** src/security.py: [sanitize_text] *)

Module Sanitize.

(** [re.sub(r'<[^>]+>', '', text)], read from left to right.  [inside] is
    [None] outside a tag; after a [<] it holds the characters read from
    that [<] on, which are dropped when a [>] closes them, put back when
    the [>] follows the [<] at once (no match starts at that [<], and none
    at the [>]), and put back when the text ends (no [>] is left, so no
    match starts anywhere in them). *)
Fixpoint remove_tags (inside : option pystr) (s : pystr) : pystr :=
  match s with
  | [] => default [] inside
  | c :: rest =>
      match inside with
      | None =>
          if (c =? 60)%N then remove_tags (Some [c]) rest
          else c :: remove_tags None rest
      | Some read =>
          if (c =? 62)%N then
            if (2 <=? length read)%nat then remove_tags None rest
            else read ++ c :: remove_tags None rest
          else remove_tags (Some (read ++ [c])) rest
      end
  end.

Section Sanitize.

Context (rt : Runtime).

(** [sanitize_text]: the tags, then the characters outside the class
    [[\w\s.,!?-]], then [strip]. *)
Definition sanitize_text (text : pystr) : pystr :=
  let text := remove_tags None text in
  let text := List.filter (is_kept rt) text in
  strip text.

End Sanitize.

End Sanitize.
Export Sanitize.

(** ** Notions for the properties of the text functions *)

Module TextShape.

(** A text that does not begin with whitespace. *)
Definition starts_clean (s : pystr) : Prop :=
  match s with
  | c :: _ => is_space c = false
  | [] => True
  end.

(** The whitespace of a text is made of single blanks: every whitespace
    character is U+0020 and is not next to another one; [after_space]
    tells that the character before the text was whitespace. *)
Fixpoint single_blanks (after_space : bool) (s : pystr) : bool :=
  match s with
  | [] => true
  | c :: rest =>
      if is_space c then
        negb after_space && (c =? 32)%N && single_blanks true rest
      else single_blanks false rest
  end.

End TextShape.
Export TextShape.

(** ** src/parser.py: the extraction of one review *)

Module Extractor.

(** What [element.find_element(By.CSS_SELECTOR, selector)] ends in: the
    element found, with its text, or one of the two exceptions
    [_get_element_text] catches, or any other one. *)
Inductive lookup :=
  | Found (text : pystr)
  | NoSuchElement
  | StaleElement
  | LookupError (e : exn).

(** A review container of the page: the outcome of the lookup of each
    selector. *)
Definition element := string -> lookup.

(** [s.split()[0]]: the first run of characters that are not whitespace,
    [None] when there is none (IndexError). *)
Fixpoint token (s : pystr) : pystr :=
  match s with
  | c :: rest => if is_space c then [] else c :: token rest
  | [] => []
  end.
Definition first_token (s : pystr) : option pystr :=
  match lstrip s with
  | [] => None
  | s' => Some (token s')
  end.

Section Extractor.

(** [float] on a string, [None] for ValueError, and
    [datetime.now().strftime('%Y-%m-%d')].  Of what [float] reads, [inf],
    [-inf] and [nan] pass no comparison of the range test. *)
Context (py_float : pystr -> option pyfloat) (today : pystr).

Definition _get_element_text (e : element) (selector : string)
    : result (option pystr) :=
  match e selector with
  | Found text => Ok (Some (strip text))
  | NoSuchElement => Ok None
  | StaleElement => Ok None
  | LookupError err => Raise err
  end.

(** [x or fallback] on an optional string. *)
Definition or_else (x : option pystr) (fallback : pystr) : pystr :=
  match x with
  | Some s => if bool_decide (s = []) then fallback else s
  | None => fallback
  end.

(** [_parse_review_element]: [None] is the Python [None]. *)
Definition _parse_review_element (e : element) : result (option Review) :=
  try_except
    (text ← _get_element_text e ".review-text";
     match text with
     | None | Some [] => Ok None
     | Some text =>
         rating_text ← _get_element_text e ".rating";
         match rating_text with
         | None | Some [] => Ok None
         | Some rating_text =>
             (* the inner [try]: IndexError and ValueError return None *)
             match first_token rating_text with
             | None => Ok None
             | Some tok =>
                 match py_float tok with
                 | None | Some NotFinite => Ok None
                 | Some (Finite rating) =>
                     if negb (Qle_bool 0 rating && Qle_bool rating 5) then
                       Ok None
                     else
                       author ← _get_element_text e ".author-name";
                       date ← _get_element_text e ".review-date";
                       Ok (Some {| r_text := text;
                                   r_rating := rating;
                                   r_author := or_else author (str "Anonymous");
                                   r_date := or_else date today |})
                 end
             end
         end
     end)
    [(None, fun _ => Ok None)].

(** The part of [_load_reviews] that follows the wait, on the containers
    found, for a parser with [self.max_workers = max_workers]: the pool,
    whose constructor raises ValueError when it is given no worker, and
    [list(filter(None, executor.map(...)))]. *)
Definition extract_reviews (max_workers : Z) (review_elements : list element)
    : result (list Review) :=
  match review_elements with
  | [] => Ok []
  | _ =>
      if max_workers <=? 0 then
        Raise (Exn ValueError "max_workers must be greater than 0")
      else
        for_each (fun (acc : list (option Review)) e =>
                    r ← _parse_review_element e; Ok (acc ++ [r]))
                 review_elements []
        ≫= fun parsed : list (option Review) => Ok (omap id parsed)
  end.

End Extractor.

End Extractor.
Export Extractor.

(** ** main.py: [save_cache] and the cache file *)

Module CacheFile.

(** The content of [reviews_cache.json], [None] when there is no file. *)
Abbreviation cache_file := (option (list CacheEntry)).

(** [save_cache]: [invoke] stands for calling a method the class has, on
    the file as it is; it gives the file as the call leaves it. *)
Definition save_cache
    (invoke : method -> string -> list CacheEntry -> cache_file
              -> result unit * cache_file)
    (security_manager : SecurityManager) (cache : list CacheEntry)
    (file : cache_file) : result unit * cache_file :=
  match getattr security_manager "save_secure_cache" with
  | Ok (BoundMethod m) =>
      let '(r, file) := invoke m "reviews_cache.json" cache file in
      (try_except r [(None, fun _ => Ok tt)], file)
  | Ok (InstanceAttribute _) => (Ok tt, file)
  | Raise _ => (Ok tt, file)
  end.

(** The statements of [main] from the loading of the cache to its saving
    (lines 193 to 211): what they return is the cache the statistics are
    made of. *)
Definition run_batch (rt : Runtime)
    (invoke_load : method -> string -> cache_file -> result (list CacheEntry))
    (invoke_save : method -> string -> list CacheEntry -> cache_file
                   -> result unit * cache_file)
    (security_manager : SecurityManager) (max_retries : Z)
    (target_language : string) (cache_enabled : bool) (file : cache_file)
    : result (list CacheEntry) * cache_file :=
  match initial_cache (fun m name => invoke_load m name file)
                      security_manager cache_enabled with
  | Raise e => (Raise e, file)
  | Ok cache =>
      match process_reviews_batch rt max_retries target_language cache with
      | Raise e => (Raise e, file)
      | Ok cache =>
          if cache_enabled then
            let '(saved, file) :=
              save_cache invoke_save security_manager cache file in
            (saved;; Ok cache, file)
          else (Ok cache, file)
      end
  end.

End CacheFile.
Export CacheFile.

(** ** src/security.py and main.py: the protected configuration *)

Module SecureConfig.
Section SecureConfig.

(** The cipher of the manager on strings: the bodies of the [try] of
    [encrypt_data] and of [decrypt_data] on a [str],
    [self.fernet.encrypt(data.encode()).decode()] and
    [self.fernet.decrypt(encrypted_data.encode()).decode()]. *)
Context (fernet_encrypt fernet_decrypt : pystr -> result pystr).

Definition encrypt_data (data : pyval) : result pystr :=
  try_except
    (match data with
     | PStr s => fernet_encrypt s
     | _ => Raise (Exn AttributeError "object has no attribute 'encode'")
     end)
    [(None, fun _ => Raise (Exn EncryptionError "Failed to encrypt data"))].

Definition decrypt_data (encrypted_data : pyval) : result pystr :=
  try_except
    (match encrypted_data with
     | PStr s => fernet_decrypt s
     | _ => Raise (Exn AttributeError "object has no attribute 'encode'")
     end)
    [(None, fun _ => Raise (Exn EncryptionError "Failed to decrypt data"))].

Definition secure_config (cfg : config) : result config :=
  match cfg !! "telegram_token" with
  | Some token =>
      encrypted ← encrypt_data token;
      Ok (<["telegram_token" := PStr encrypted]> cfg)
  | None => Ok cfg
  end.

(** The file of the configuration: the JSON value it holds, [None] when
    there is no file or its text is no JSON. *)
Abbreviation config_file := (option pyval).

(** [save_secure_config] with the file it writes: the file is opened
    after [secure_config] has returned, and [json.dump] with its default
    [ensure_ascii] writes any document. *)
Definition save_secure_config (cfg : config) (file : config_file)
    : result unit * config_file :=
  match secure_config cfg with
  | Ok secured => (Ok tt, Some (PDict secured))
  | Raise _ =>
      (Raise (Exn SecurityError "Failed to save secure configuration"), file)
  end.

(** [load_secure_config]: what [json.load] returned is tested with [in]
    and subscripted, whatever it is, and returned. *)
Definition load_secure_config (file : config_file) : result pyval :=
  try_except
    (document ← match file with
                | Some document => Ok document
                | None => Raise (Exn OtherException "No such file or directory")
                end;
     present ← Json.contains "telegram_token" document;
     if negb present then Ok document
     else
       token ← Json.subscript "telegram_token" document;
       decrypted ← decrypt_data token;
       match document with
       | PDict d => Ok (PDict (<["telegram_token" := PStr decrypted]> d))
       | _ => Raise (Exn TypeError "object does not support item assignment")
       end)
    [(None,
       fun _ => Raise (Exn SecurityError "Failed to load secure configuration"))].

(** [load_config] of [main.py]: [list(config.keys())] needs a dictionary,
    and each handler logs and raises again. *)
Definition load_config (file : config_file) : result config :=
  try_except
    (document ← load_secure_config file;
     match document with
     | PDict cfg => Ok cfg
     | _ => Raise (Exn AttributeError "object has no attribute 'keys'")
     end)
    [(Some SecurityError, fun e => Raise e);
     (Some ValidationError, fun e => Raise e);
     (None, fun e => Raise e)].

End SecureConfig.
End SecureConfig.

(** ** main.py: the program *)

Module Program.

(** The settings of [notifier_config] that [main] reads: the values of the
    section, the dataclass defaults (all [True]) for the keys it leaves
    out. *)
Record NotifierFlags := {
  enabled : bool;
  notify_on_startup : bool;
  notify_on_shutdown : bool;
  notify_on_error : bool
}.

Definition flag (cfg : config) (key : string) : bool :=
  match cfg !! "notifier" with
  | Some (PDict d) => truthy (default (PBool true) (d !! key))
  | _ => true
  end.

Definition notifier_flags (cfg : config) : NotifierFlags :=
  {| enabled := flag cfg "enabled";
     notify_on_startup := flag cfg "notify_on_startup";
     notify_on_shutdown := flag cfg "notify_on_shutdown";
     notify_on_error := flag cfg "notify_on_error" |}.

(** The local variables of [main] that its [except] and [finally] blocks
    read, bound or not. *)
Record locals := {
  parser : bool;
  notifier_config : option NotifierFlags;
  notifier : bool
}.

Definition no_locals : locals :=
  {| parser := false; notifier_config := None; notifier := false |}.

(** What [main] calls outside the sources modelled here: the creation of
    the log files, of the key file, of the translator with its cache
    file, of the Telegram client, and the sending of a message. *)
Record World := {
  setup_logging : result unit;
  SecurityManager_init : result unit;
  TextTranslator_init : result unit;
  TelegramNotifier_init : result unit;
  send_message : result unit
}.

(** A call with keyword arguments of a function without [**kwargs]: a
    keyword that names no parameter is a TypeError, raised before the
    body runs. *)
Definition call {A} (params kwargs : list string) (body : result A)
    : result A :=
  match List.find (fun keyword => negb (bool_decide (keyword ∈ params))) kwargs
  with
  | Some keyword =>
      Raise (Exn TypeError
               ("got an unexpected keyword argument '" +:+ keyword +:+ "'"))
  | None => body
  end.

(** The parameters of the functions [main] calls with keywords. *)
Definition setup_logging_params : list string :=
  ["log_dir"; "log_level"; "max_bytes"; "backup_count"].
Definition ReviewParser_params : list string :=
  ["max_retries"; "timeout"; "max_workers"].
Definition SentimentAnalyzer_params : list string :=
  ["target_language"; "max_workers"].

(** Statements of [main]: they read and bind the locals and may raise. *)
Definition stmt (A : Type) : Type := locals -> result A * locals.

Definition pure {A} (a : A) : stmt A := fun l => (Ok a, l).

Definition andthen {A B} (s : stmt A) (k : A -> stmt B) : stmt B :=
  fun l =>
    match s l with
    | (Ok a, l') => k a l'
    | (Raise e, l') => (Raise e, l')
    end.

Definition lift {A} (r : result A) : stmt A := fun l => (r, l).

Definition unbound {A} (name : string) : result A :=
  Raise (Exn UnboundLocalError
           ("local variable '" +:+ name +:+ "' referenced before assignment")).

Definition bind_parser : stmt unit :=
  fun l => (Ok tt, {| parser := true;
                      notifier_config := notifier_config l;
                      notifier := notifier l |}).
Definition bind_notifier_config (flags : NotifierFlags) : stmt unit :=
  fun l => (Ok tt, {| parser := parser l;
                      notifier_config := Some flags;
                      notifier := notifier l |}).
Definition bind_notifier : stmt unit :=
  fun l => (Ok tt, {| parser := parser l;
                      notifier_config := notifier_config l;
                      notifier := true |}).

Definition read_parser : stmt unit :=
  fun l => (if parser l then Ok tt else unbound "parser", l).
Definition read_notifier_config : stmt NotifierFlags :=
  fun l => (match notifier_config l with
            | Some flags => Ok flags
            | None => unbound "notifier_config"
            end, l).
Definition read_notifier : stmt unit :=
  fun l => (if notifier l then Ok tt else unbound "notifier", l).

Section Main.

(** The content of [config.json], the world, and the statements of the
    [try] block from the loading of the cache on: the batch, the saving
    of the cache and the statistics. *)
Context (file : option config) (world : World) (pipeline : stmt unit).

(** The [try] block. *)
Definition body : stmt unit :=
  andthen (lift (Config.load_config file)) (fun cfg =>
  andthen (lift (call setup_logging_params
                   ["log_dir"; "log_level"; "max_bytes"; "backup_count"]
                   (setup_logging world))) (fun _ =>
  andthen (lift (SecurityManager_init world)) (fun _ =>
  andthen (lift (call ReviewParser_params
                   ["max_retries"; "timeout"; "max_workers"] (Ok tt))) (fun _ =>
  andthen bind_parser (fun _ =>
  andthen (lift (call SentimentAnalyzer_params
                   ["target_language"; "min_confidence"; "batch_size"]
                   (TextTranslator_init world))) (fun _ =>
  andthen (bind_notifier_config (notifier_flags cfg)) (fun _ =>
  andthen (if enabled (notifier_flags cfg) then
             andthen (lift (TelegramNotifier_init world)) (fun _ =>
             andthen bind_notifier (fun _ =>
             if notify_on_startup (notifier_flags cfg) then
               andthen read_notifier (fun _ => lift (send_message world))
             else pure tt))
           else pure tt) (fun _ =>
  pipeline)))))))).

(** The clause [except Exception as e]. *)
Definition handler (e : exn) : stmt unit :=
  andthen read_notifier_config (fun flags =>
  andthen (if enabled flags && notify_on_error flags then
             andthen read_notifier (fun _ => lift (send_message world))
           else pure tt) (fun _ =>
  lift (Raise e))).

(** The [finally] block: [parser.cleanup()], which swallows what the
    browser raises. *)
Definition finalizer : stmt unit := read_parser.

(** [main]: the [try] block, its handler when it raises, and the
    [finally] block in every case; an exception of the [finally] block
    replaces the one in flight. *)
Definition main : stmt unit :=
  fun l =>
    let '(r, l) := body l in
    let '(r, l) := match r with
                   | Ok _ => (r, l)
                   | Raise e => handler e l
                   end in
    let '(cleaned, l) := finalizer l in
    (match cleaned with Ok _ => r | Raise e => Raise e end, l).

End Main.

End Program.

(** ** Notions for the properties of [hash_data] *)

Module Fingerprint.

(** The code points [str.encode()] refuses. *)
Definition is_surrogate (c : N) : bool :=
  ((0xD800 <=? c) && (c <=? 0xDFFF))%N.

(** The characters of [hexdigest()]: the digits and [a] to [f]. *)
Definition is_hex_digit (a : Ascii.ascii) : bool :=
  let n := Ascii.nat_of_ascii a in
  ((48 <=? n) && (n <=? 57) || (97 <=? n) && (n <=? 102))%nat.

(** A text whose characters can all be encoded. *)
Definition encodable (s : pystr) : bool :=
  forallb (fun c => negb (is_surrogate c)) s.

End Fingerprint.
Export Fingerprint.

Module Utf8.

(** The code points of a Python [str]: at most U+10FFFF. *)
Definition is_code_point (c : N) : Prop := (c <= 0x10FFFF)%N.

(** The UTF-8 bytes of one code point, in arithmetic. *)
Definition utf8_bytes (z : Z) : list Z :=
  if z <? 0x80 then [z]
  else if z <? 0x800 then [0xC0 + z / 64; 0x80 + z mod 64]
  else if z <? 0x10000 then
    [0xE0 + z / 4096; 0x80 + (z / 64) mod 64; 0x80 + z mod 64]
  else
    [0xF0 + (z / 262144) mod 8; 0x80 + (z / 4096) mod 64;
     0x80 + (z / 64) mod 64; 0x80 + z mod 64].

End Utf8.
Export Utf8.

(** ** Further concrete inputs *)

Module MoreFixtures.

(** A review no rule of [validate_review] accepts: a blank text and a
    rating of 7. *)
Definition unrated : Review :=
  {| r_text := str " "; r_rating := 7; r_author := str "";
     r_date := str "2024-01-01" |}.

(** A text with a lone surrogate, which [str.encode()] refuses. *)
Definition broken : pystr := [72; 0xD800]%N.

(** A review container as the page shows it, and the numbers [float]
    reads on that page. *)
Definition container : element :=
  fun selector =>
    if String.eqb selector ".review-text" then Found (str "  Great service! ")
    else if String.eqb selector ".rating" then Found (str "4.5 stars")
    else if String.eqb selector ".author-name" then NoSuchElement
    else StaleElement.

Definition read_float (tok : pystr) : option pyfloat :=
  if bool_decide (tok = str "4.5") then Some (Finite (9 # 2))
  else if bool_decide (tok = str "nan") then Some NotFinite
  else None.



End MoreFixtures.
(** * Properties *)

(** ** Test vectors of the digest *)

Example sha256_abc :
  hash_data (str "abc")
  = Ok "ba7816bf8f01cfea414140de5dae2223b00361a396177a9cb410ff61f20015ad".
Proof. vm_compute. reflexivity. Qed.

Example sha256_empty :
  hash_data (str "")
  = Ok "e3b0c44298fc1c149afbf4c8996fb92427ae41e4649b934ca495991b7852b855".
Proof. vm_compute. reflexivity. Qed.

Example sha256_two_blocks :
  hash_data (str "abcdbcdecdefdefgefghfghighijhijkijkljklmklmnlmnomnopnopq")
  = Ok "248d6a61d20638b8e5c026930c3e6039a33ce45964ff2167f6ecedd419db06c1".
Proof. vm_compute. reflexivity. Qed.

(** ** Exceptions *)

Lemma try_except_ok {A} (a : A) handlers : try_except (Ok a) handlers = Ok a.
Proof. by destruct handlers. Qed.

(** A [try] that ends in [except Exception] whose handler returns does not
    raise. *)
Lemma try_except_catch_all {A} (body : result A) (fallback : A) :
  try_except body [(None, fun _ => Ok fallback)]
  = match body with Ok a => Ok a | Raise _ => Ok fallback end.
Proof. by destruct body. Qed.

Lemma try_except_eq_catch {A} (body : result A) (h : exn -> result A) :
  try_except body [(None, h)]
  = match body with Ok a => Ok a | Raise e => h e end.
Proof. by destruct body. Qed.

Lemma bind_ok {A B} (a : A) (k : A -> result B) : (Ok a ≫= k) = k a.
Proof. reflexivity. Qed.

Lemma bind_raise {A B} (e : exn) (k : A -> result B) : (Raise e ≫= k) = Raise e.
Proof. reflexivity. Qed.

Lemma omap_ext_in {A B} (f g : A -> option B) (l : list A) :
  (forall x, x ∈ l -> f x = g x) -> omap f l = omap g l.
Proof.
  induction l as [|x l IH]; intros H; [done|]. csimpl.
  rewrite (H x) by left. rewrite IH; [done|].
  intros y Hy. apply H. by right.
Qed.

(** ** The analyzer *)

Section AnalyzerFacts.

Context (rt : Runtime) (target_language : string).

Lemma _detect_language_returns text :
  exists lang, _detect_language rt text = Ok lang.
Proof.
  unfold _detect_language. case_bool_decide; [by eexists|].
  destruct (detect rt text) as [lang|e]; simpl; [by eexists|].
  destruct (issubclass _ _); by eexists.
Qed.

Lemma _get_sentiment_returns text :
  exists s, _get_sentiment rt text = Ok s.
Proof.
  unfold _get_sentiment. case_bool_decide; [by eexists|].
  rewrite try_except_catch_all. destruct (polarity rt text); by eexists.
Qed.

Lemma _get_sentiment_failure text e :
  polarity rt text = Raise e -> _get_sentiment rt text = Ok 0%Q.
Proof.
  intros H. unfold _get_sentiment. case_bool_decide; [done|].
  by rewrite H.
Qed.

(** On a value of a built-in type the function returns. *)
Lemma analyze_sentiment_returns (text : pyval) :
  exists r, analyze_sentiment rt target_language text = Ok r.
Proof.
  unfold analyze_sentiment.
  destruct (negb (truthy text) || negb (isinstance_str text)); [by eexists|].
  rewrite try_except_catch_all.
  match goal with |- context [match ?b with Ok _ => _ | Raise _ => _ end] =>
    destruct b end; by eexists.
Qed.

Lemma analyze_sentiment_not_str (text : pyval) :
  isinstance_str text = false ->
  analyze_sentiment rt target_language text = Ok (0%Q, "unknown").
Proof.
  intros H. unfold analyze_sentiment. rewrite H.
  by rewrite orb_true_r.
Qed.

(** On any argument the function goes the way of the truth test its guard
    starts with. *)
Lemma analyze_sentiment_outcome (text : pyarg) :
  match truth_test text with
  | Raise e => analyze_sentiment rt target_language text = Raise e
  | Ok _ => exists r, analyze_sentiment rt target_language text = Ok r
  end.
Proof.
  destruct text as [v|[b|e]]; cbn [truth_test].
  - apply analyze_sentiment_returns.
  - by eexists.
  - done.
Qed.

(** What the loop of [analyze_batch] appends for a text is what the
    analysis returned, or the fallback for an analysis that raised. *)
Lemma collected_cases (text : pyarg) :
  analyze_sentiment rt target_language text
  = Ok (collected rt target_language text)
  \/ (raises (analyze_sentiment rt target_language text)
      /\ collected rt target_language text = (0%Q, "unknown")).
Proof.
  unfold Analyzer.collected, collect.
  destruct (analyze_sentiment rt target_language text) as [r|e];
    [by left|right; split; [by eexists|done]].
Qed.

Lemma _preprocess_text_nonempty s :
  _preprocess_text rt (PStr s) <> [] -> s <> [].
Proof. intros H ->. by apply H. Qed.

(** The function on a text that survives preprocessing: the part of the
    body after the two guards. *)
Lemma analyze_sentiment_str s :
  _preprocess_text rt (PStr s) <> [] ->
  analyze_sentiment rt target_language (PStr s)
  = try_except
      (let text := _preprocess_text rt (PStr s) in
       detected_lang ← _detect_language rt text;
       step ←
         (if negb (String.eqb detected_lang target_language) then
            try_except
              (translated ← translate rt text target_language;
               Ok (inl translated))
              [(None, fun _ => Ok (inr (0%Q, detected_lang)))]
          else Ok (inl text));
       match step with
       | inr returned => Ok returned
       | inl text =>
           sentiment ← _get_sentiment rt text;
           Ok (sentiment, detected_lang)
       end)
      [(None, fun _ => Ok (0%Q, "unknown"))].
Proof.
  intros Hne. pose proof (_preprocess_text_nonempty _ Hne) as Hs.
  unfold analyze_sentiment.
  replace (truthy (PStr s)) with true
    by (simpl; by rewrite bool_decide_eq_false_2).
  simpl negb. simpl orb. cbv iota.
  by rewrite (bool_decide_eq_false_2 _ Hne).
Qed.

Lemma translation_failure s lang e :
  let text := _preprocess_text rt (PStr s) in
  text <> [] ->
  _detect_language rt text = Ok lang ->
  lang <> target_language ->
  translate rt text target_language = Raise e ->
  analyze_sentiment rt target_language (PStr s) = Ok (0%Q, lang).
Proof.
  intros text Hne Hlang Hdiff Htr.
  rewrite analyze_sentiment_str by done. fold text.
  cbv zeta. rewrite Hlang. simpl.
  apply String.eqb_neq in Hdiff. rewrite Hdiff. simpl.
  by rewrite Htr.
Qed.

(** [scored] is the text the sentiment is computed from: the preprocessed
    text, or its translation when the detected language is not the target
    one. *)
Lemma scoring_failure s lang scored e :
  let text := _preprocess_text rt (PStr s) in
  text <> [] ->
  _detect_language rt text = Ok lang ->
  (lang = target_language /\ scored = text)
  \/ (lang <> target_language
      /\ translate rt text target_language = Ok scored) ->
  polarity rt scored = Raise e ->
  analyze_sentiment rt target_language (PStr s) = Ok (0%Q, lang).
Proof.
  intros text Hne Hlang Hscored Hp.
  rewrite analyze_sentiment_str by done. fold text.
  cbv zeta. rewrite Hlang. simpl.
  destruct Hscored as [[-> ->]|[Hdiff Htr]].
  - rewrite String.eqb_refl. simpl.
    by rewrite (_get_sentiment_failure _ _ Hp).
  - apply String.eqb_neq in Hdiff. rewrite Hdiff. simpl.
    rewrite Htr. simpl.
    by rewrite (_get_sentiment_failure _ _ Hp).
Qed.

End AnalyzerFacts.

Section AnalyzerClaims.

Context (rt : Runtime) (target_language : string).

(** C6 (amended).  [analyze_sentiment] raises in one case only: it is
    given an object that is no string and whose truth test raises, and
    then it raises what the test raised, the guard standing before the
    [try].  For every other argument it returns a pair.  It returns
    exactly (0.0, "unknown") for the empty string, for [None], for any
    other value of a built-in type that is not a string, for an object
    whose truth test answers, and for a text that preprocessing leaves
    empty.  When the translation call or the scoring call fails it
    returns 0.0 with the language that was detected, and a failed
    detection gives the language "unknown". *)
Theorem analyze_sentiment_total_with_fallbacks :
  (forall (text : pyarg) e,
      truth_test text = Raise e ->
      analyze_sentiment rt target_language text = Raise e)
  /\ (forall (text : pyarg) b,
        truth_test text = Ok b ->
        exists sentiment lang,
          analyze_sentiment rt target_language text = Ok (sentiment, lang))
  /\ analyze_sentiment rt target_language (PStr []) = Ok (0%Q, "unknown")
  /\ analyze_sentiment rt target_language PNone = Ok (0%Q, "unknown")
  /\ (forall text : pyval, isinstance_str text = false ->
        analyze_sentiment rt target_language text = Ok (0%Q, "unknown"))
  /\ (forall b,
        analyze_sentiment rt target_language (Object (Ok b))
        = Ok (0%Q, "unknown"))
  /\ (forall s, _preprocess_text rt (PStr s) = [] ->
        analyze_sentiment rt target_language (PStr s) = Ok (0%Q, "unknown"))
  /\ (forall s lang e,
        _preprocess_text rt (PStr s) <> [] ->
        _detect_language rt (_preprocess_text rt (PStr s)) = Ok lang ->
        lang <> target_language ->
        translate rt (_preprocess_text rt (PStr s)) target_language = Raise e ->
        analyze_sentiment rt target_language (PStr s) = Ok (0%Q, lang))
  /\ (forall s lang scored e,
        _preprocess_text rt (PStr s) <> [] ->
        _detect_language rt (_preprocess_text rt (PStr s)) = Ok lang ->
        (lang = target_language /\ scored = _preprocess_text rt (PStr s))
        \/ (lang <> target_language
            /\ translate rt (_preprocess_text rt (PStr s)) target_language
               = Ok scored) ->
        polarity rt scored = Raise e ->
        analyze_sentiment rt target_language (PStr s) = Ok (0%Q, lang))
  /\ (forall text e, text <> [] -> detect rt text = Raise e ->
        _detect_language rt text = Ok "unknown").
Proof.
  split_and!.
  - intros text e He.
    pose proof (analyze_sentiment_outcome rt target_language text) as H.
    by rewrite He in H.
  - intros text b Hb.
    pose proof (analyze_sentiment_outcome rt target_language text) as H.
    rewrite Hb in H. destruct H as [[sentiment lang] H].
    by exists sentiment, lang.
  - reflexivity.
  - reflexivity.
  - apply analyze_sentiment_not_str.
  - reflexivity.
  - intros s Hempty. unfold analyze_sentiment.
    destruct (negb (truthy (PStr s)) || negb (isinstance_str (PStr s)));
      [done|].
    by rewrite Hempty.
  - intros s lang e. apply translation_failure.
  - intros s lang scored e. apply scoring_failure.
  - intros text e Hne He. unfold _detect_language.
    rewrite (bool_decide_eq_false_2 _ Hne), He. simpl.
    by destruct (issubclass _ _).
Qed.

(** C7.  When the language detected for a text differs from the target
    language and the translation call raises, [analyze_sentiment] returns
    exactly (0.0, detected language): it neither scores the untranslated
    text nor raises. *)
Theorem translation_failure_fallback (s : pystr) (detected_lang : string)
    (e : exn) :
  _preprocess_text rt (PStr s) <> [] ->
  _detect_language rt (_preprocess_text rt (PStr s)) = Ok detected_lang ->
  detected_lang <> target_language ->
  translate rt (_preprocess_text rt (PStr s)) target_language = Raise e ->
  analyze_sentiment rt target_language (PStr s) = Ok (0%Q, detected_lang).
Proof. apply translation_failure. Qed.

(** Every pending future completes, once. *)
Lemma as_completed_Permutation {A} (next : nat -> nat) (pending : list A) :
  as_completed next (length pending) pending ≡ₚ pending.
Proof.
  remember (length pending) as n eqn:Hn. revert pending Hn.
  induction n as [|n IH]; intros pending Hn.
  - by destruct pending.
  - cbn [as_completed].
    assert (Hlt : (next n mod length pending < length pending)%nat)
      by (apply Nat.mod_upper_bound; lia).
    destruct (lookup_lt_is_Some_2 pending _ Hlt) as [future Hfuture].
    rewrite Hfuture.
    etrans; [|symmetry; by apply delete_Permutation].
    constructor. apply IH.
    rewrite length_delete by done. lia.
Qed.

(** And the futures can complete in any order: each one is the order of
    some [next]. *)
Lemma as_completed_ext {A} (next next' : nat -> nat) n (pending : list A) :
  (forall k, (k < n)%nat -> next k = next' k) ->
  as_completed next n pending = as_completed next' n pending.
Proof.
  revert pending. induction n as [|n IH]; intros pending Hsame; [done|].
  cbn [as_completed]. rewrite Hsame by lia.
  destruct (pending !! _); [|done].
  f_equal. apply IH. intros k Hk. apply Hsame. lia.
Qed.

Lemma as_completed_any_order {A} (pending order : list A) :
  pending ≡ₚ order ->
  exists next, as_completed next (length pending) pending = order.
Proof.
  intros Hperm. revert pending Hperm.
  induction order as [|future order IH]; intros pending Hperm.
  - apply Permutation_nil_r in Hperm as ->. by exists (fun _ => 0%nat).
  - assert (Hin : future ∈ pending) by (rewrite Hperm; left).
    apply list_elem_of_lookup in Hin as [i Hi].
    assert (Hrest : delete i pending ≡ₚ order).
    { apply (Permutation_cons_inv (a := future)).
      by rewrite <- delete_Permutation. }
    destruct (IH _ Hrest) as [next Hnext].
    pose proof (lookup_lt_Some _ _ _ Hi) as Hlt.
    assert (Hlen : length pending = S (length (delete i pending))).
    { rewrite length_delete by eauto. lia. }
    exists (fun k => if (k =? length (delete i pending))%nat then i
                     else next k).
    rewrite Hlen at 1. cbn [as_completed]. rewrite Nat.eqb_refl.
    rewrite Nat.mod_small by done. rewrite Hi. f_equal.
    rewrite <- Hnext. apply as_completed_ext. intros k Hk.
    destruct (Nat.eqb_spec k (length (delete i pending))); [lia|done].
Qed.

Lemma analyze_batch_eq (max_workers : Z) (next : nat -> nat)
    (texts : list pyarg) :
  1 <= max_workers ->
  exists results,
    analyze_batch rt target_language max_workers next texts = Ok results
    /\ results ≡ₚ map (collected rt target_language) texts.
Proof.
  intros Hworkers. unfold analyze_batch.
  destruct texts as [|text texts]; [by exists []|].
  destruct (Z.leb_spec max_workers 0); [lia|].
  eexists. split; [done|].
  rewrite as_completed_Permutation.
  unfold Analyzer.collected. by rewrite map_map.
Qed.

(** C8 (amended).  On an analyzer with at least one worker, for a list of
    [n] arguments [analyze_batch] returns a list of exactly [n] results,
    whatever the order in which the futures complete.  Each result is a
    (sentiment, language) pair: the one [analyze_sentiment] returned for
    one of the arguments, or the fallback (0.0, "unknown") for an argument
    on which it raised.  Together the results are those of all the
    arguments, each once. *)
Theorem analyze_batch_complete (max_workers : Z) (next : nat -> nat)
    (texts : list pyarg) :
  1 <= max_workers ->
  exists results,
    analyze_batch rt target_language max_workers next texts = Ok results
    /\ length results = length texts
    /\ results ≡ₚ map (collected rt target_language) texts
    /\ Forall (fun result => exists text,
                 text ∈ texts
                 /\ (analyze_sentiment rt target_language text = Ok result
                     \/ (raises (analyze_sentiment rt target_language text)
                         /\ result = (0%Q, "unknown"))))
              results.
Proof.
  intros Hworkers.
  destruct (analyze_batch_eq max_workers next texts Hworkers)
    as (results & Hrun & Hall).
  exists results. split_and!; [done| |done|].
  - rewrite Hall. by rewrite length_map.
  - rewrite Hall. apply Forall_forall. intros result Hin.
    apply list_elem_of_fmap in Hin as (text & -> & Hin).
    exists text. split; [done|]. apply collected_cases.
Qed.

End AnalyzerClaims.

(** ** The fetch controller *)

Section ParserFacts.

Context (rt : Runtime).

Lemma retried_attempts j m :
  length (List.filter is_attempt (retried j m)) = m.
Proof.
  revert j. induction m as [|m IH]; intros j; [done|].
  unfold retried in *. simpl. by rewrite IH.
Qed.

Lemma _load_reviews_raises_parser_errors attempt e :
  _load_reviews rt attempt = Raise e ->
  exn_cls e = NetworkError \/ exn_cls e = ParsingError.
Proof.
  unfold _load_reviews. destruct (page rt attempt) as [reviews|e0]; [done|].
  simpl. repeat (destruct (issubclass _ _)); intros [= <-]; auto.
Qed.

(** While the load raises NetworkError and the attempt is not the last
    one, the loop sleeps, discards the session and goes on. *)
Lemma parse_reviews_loop_retries max_retries m : forall j n,
  (forall i, (j <= i < j + m)%nat ->
             raises_class (_load_reviews rt i) NetworkError) ->
  (forall i, (j <= i < j + m)%nat -> Z.of_nat i <> max_retries - 1) ->
  parse_reviews_loop rt max_retries (seq j (m + n))
  = (fst (parse_reviews_loop rt max_retries (seq (j + m) n)),
     retried j m ++ snd (parse_reviews_loop rt max_retries (seq (j + m) n))).
Proof.
  induction m as [|m IH]; intros j n Hfail Hlast.
  - rewrite Nat.add_0_r. simpl. by destruct (parse_reviews_loop _ _ _).
  - simpl. destruct (Hfail j ltac:(lia)) as [msg ->]. simpl.
    rewrite bool_decide_eq_false_2 by (apply Hlast; lia).
    rewrite IH.
    + replace (S j + m)%nat with (j + S m)%nat by lia. done.
    + intros i Hi. apply Hfail. lia.
    + intros i Hi. apply Hlast. lia.
Qed.

(** A run decided at attempt [j], after [j] retried attempts. *)
Lemma parse_reviews_run_decided (k j : nat) r :
  (j < k)%nat ->
  (forall i, (i < j)%nat -> raises_class (_load_reviews rt i) NetworkError) ->
  (forall n, parse_reviews_loop rt (Z.of_nat k) (j :: n) = (r, [Attempt j])) ->
  parse_reviews_run rt (Z.of_nat k) = (r, retried 0 j ++ [Attempt j]).
Proof.
  intros Hj Hfail Hlast. unfold parse_reviews_run.
  rewrite Nat2Z.id. replace k with (j + S (k - S j))%nat at 2 by lia.
  rewrite parse_reviews_loop_retries.
  - simpl seq. by rewrite Hlast.
  - intros i Hi. apply Hfail. lia.
  - intros i Hi. lia.
Qed.

Lemma attempts_made_decided (k j : nat) r :
  parse_reviews_run rt (Z.of_nat k) = (r, retried 0 j ++ [Attempt j]) ->
  parse_reviews rt (Z.of_nat k) = r /\ attempts_made rt (Z.of_nat k) = S j.
Proof.
  intros H. unfold parse_reviews, attempts_made. rewrite H. simpl.
  split; [done|].
  rewrite List.filter_app, length_app, retried_attempts. simpl. lia.
Qed.

(** C4.  With [max_retries = k], [k >= 1]: when the load raises
    NetworkError on [k] attempts in a row, [parse_reviews] raises the
    NetworkError of the last attempt after exactly [k] attempts; when the
    first [k - 1] attempts raise NetworkError and attempt [k] returns the
    list [L], it returns [L] and makes no further attempt; a ParsingError
    at any attempt is raised at once, with no attempt after it. *)
Theorem retry_bound (k : nat) :
  (1 <= k)%nat ->
  ((forall i, (i < k)%nat -> raises_class (_load_reviews rt i) NetworkError) ->
     exists e, _load_reviews rt (k - 1) = Raise e
               /\ exn_cls e = NetworkError
               /\ parse_reviews rt (Z.of_nat k) = Raise e
               /\ attempts_made rt (Z.of_nat k) = k)
  /\ (forall L,
        (forall i, (i < k - 1)%nat ->
                   raises_class (_load_reviews rt i) NetworkError) ->
        _load_reviews rt (k - 1) = Ok L ->
        parse_reviews rt (Z.of_nat k) = Ok (Some L)
        /\ attempts_made rt (Z.of_nat k) = k)
  /\ (forall j e,
        (j < k)%nat ->
        (forall i, (i < j)%nat ->
                   raises_class (_load_reviews rt i) NetworkError) ->
        _load_reviews rt j = Raise e ->
        exn_cls e = ParsingError ->
        parse_reviews rt (Z.of_nat k) = Raise e
        /\ attempts_made rt (Z.of_nat k) = S j).
Proof.
  intros Hk. destruct k as [|k']; [lia|].
  replace (S k' - 1)%nat with k' by lia. split_and!.
  - intros Hfail. destruct (Hfail k' ltac:(lia)) as [msg Hlast].
    exists (Exn NetworkError msg). split; [done|]. split; [done|].
    apply attempts_made_decided, parse_reviews_run_decided; [lia| |].
    + intros i Hi. apply Hfail. lia.
    + intros n. simpl. rewrite Hlast. simpl.
      by rewrite bool_decide_eq_true_2 by lia.
  - intros L Hfail Hlast.
    apply attempts_made_decided, parse_reviews_run_decided; [lia|done|].
    intros n. simpl. by rewrite Hlast.
  - intros j e Hj Hfail He Hcls.
    apply attempts_made_decided, parse_reviews_run_decided; [done|done|].
    intros n. simpl. rewrite He. by rewrite Hcls.
Qed.

(** A source that answers at the first attempt. *)
Lemma parse_reviews_first_attempt max_retries reviews :
  1 <= max_retries ->
  page rt 0 = Ok reviews ->
  parse_reviews rt max_retries = Ok (Some reviews).
Proof.
  intros Hmax Hpage. unfold parse_reviews, parse_reviews_run.
  destruct (Z.to_nat max_retries) as [|n] eqn:Hn; [lia|].
  simpl. unfold _load_reviews. by rewrite Hpage.
Qed.

End ParserFacts.

(** The witness of C4: two timeouts, then the page loads. *)
Lemma retry_bound_witness :
  parse_reviews (Fixtures.flaky 2 (Ok [Fixtures.review_of Fixtures.great])) 3
  = Ok (Some [Fixtures.review_of Fixtures.great])
  /\ attempts_made (Fixtures.flaky 2 (Ok [Fixtures.review_of Fixtures.great])) 3
     = 3%nat.
Proof.
  apply (proj1 (proj2
    (retry_bound (Fixtures.flaky 2 (Ok [Fixtures.review_of Fixtures.great]))
                 3 ltac:(lia)))).
  - intros i Hi. exists "Timeout while loading reviews".
    destruct i as [|[|i]]; [reflexivity|reflexivity|simpl in Hi; lia].
  - reflexivity.
Defined.

(** ** The batch orchestrator *)

#[local] Arguments hash_data : simpl never.
#[local] Arguments translate : simpl never.
#[local] Arguments analyze_sentiment : simpl never.
#[local] Arguments keep_if_new : simpl never.
#[local] Arguments Main.is_new : simpl never.
#[local] Arguments Main.entry_for : simpl never.
#[local] Arguments Main.process_review : simpl never.
#[local] Arguments parse_reviews : simpl never.

Section BatchFacts.

Context (rt : Runtime) (max_retries : Z) (target_language : string).

Lemma validate_review_object r : validate_review (ReviewObject r) = Ok false.
Proof. reflexivity. Qed.

Lemma for_each_app {S A} (body : S -> A -> result S) l1 l2 s :
  for_each body (l1 ++ l2) s = (for_each body l1 s ≫= for_each body l2).
Proof.
  revert s. induction l1 as [|x l1 IH]; intros s; [done|]. simpl.
  destruct (body s x) as [s'|e]; simpl; [apply IH|done].
Qed.

Lemma keep_if_new_eq cache acc review :
  keep_if_new cache acc review
  = match hash_data (r_text review) with
    | Ok _ => Ok (if is_new cache review then acc ++ [review] else acc)
    | Raise e => Raise e
    end.
Proof.
  unfold keep_if_new, Main.is_new.
  destruct (hash_data (r_text review)) as [h|e]; [|done].
  rewrite bind_ok. by destruct (negb _).
Qed.

(** The first loop keeps, in order, the reviews [is_new] accepts; it
    raises when the text of a review cannot be encoded. *)
Lemma filter_new_acc cache reviews : forall acc new_reviews,
  for_each (keep_if_new cache) reviews acc = Ok new_reviews ->
  new_reviews = acc ++ List.filter (is_new cache) reviews
  /\ Forall (fun review => exists h, hash_data (r_text review) = Ok h) reviews.
Proof.
  induction reviews as [|review reviews IH]; intros acc new_reviews;
    cbn [for_each List.filter].
  - intros [= <-]. by rewrite app_nil_r.
  - rewrite keep_if_new_eq.
    destruct (hash_data (r_text review)) as [h|e] eqn:Hh; [|done].
    rewrite bind_ok.
    destruct (is_new cache review); intros H; apply IH in H as [-> Hall].
    + split; [by rewrite <- app_assoc|]. constructor; [by exists h|done].
    + split; [done|]. constructor; [by exists h|done].
Qed.

Lemma filter_new_spec cache reviews new_reviews :
  filter_new cache reviews = Ok new_reviews ->
  new_reviews = List.filter (is_new cache) reviews
  /\ Forall (fun review => exists h, hash_data (r_text review) = Ok h) reviews.
Proof. intros H. by apply filter_new_acc in H. Qed.

Lemma filter_new_acc_returns cache reviews :
  Forall (fun review => exists h, hash_data (r_text review) = Ok h) reviews ->
  forall acc,
    for_each (keep_if_new cache) reviews acc
    = Ok (acc ++ List.filter (is_new cache) reviews).
Proof.
  induction 1 as [|review reviews [h Hh] _ IH]; intros acc;
    cbn [for_each List.filter].
  - by rewrite app_nil_r.
  - rewrite keep_if_new_eq, Hh, bind_ok.
    destruct (is_new cache review); rewrite IH; [|done].
    by rewrite <- app_assoc.
Qed.

Lemma filter_new_returns cache reviews :
  Forall (fun review => exists h, hash_data (r_text review) = Ok h) reviews ->
  filter_new cache reviews = Ok (List.filter (is_new cache) reviews).
Proof. intros Hall. unfold filter_new. by rewrite filter_new_acc_returns. Qed.

(** The second loop appends the entry of the review, or leaves the cache
    as it is; it does not raise. *)
Lemma process_review_spec cache review :
  process_review rt target_language cache review
  = Ok (cache ++ option_list (entry_for rt target_language review)).
Proof.
  unfold Main.process_review, Main.entry_for.
  rewrite validate_review_object. simpl.
  destruct (analyze_sentiment_returns rt target_language (PStr (r_text review)))
    as [[sentiment lang] ->]. simpl.
  destruct (hash_data (r_text review)) as [h|e]; simpl; [done|].
  rewrite app_nil_r. by destruct (issubclass _ _).
Qed.

Lemma for_each_process_review new_reviews : forall cache,
  for_each (process_review rt target_language) new_reviews cache
  = Ok (cache ++ omap (entry_for rt target_language) new_reviews).
Proof.
  induction new_reviews as [|review new_reviews IH]; intros cache; simpl.
  - by rewrite app_nil_r.
  - rewrite process_review_spec. simpl. rewrite IH.
    rewrite <- app_assoc. by destruct (entry_for rt target_language review).
Qed.

(** The function never raises, and the list it returns starts with the
    list it was given. *)
Lemma process_reviews_batch_after_fetch cache reviews :
  parse_reviews rt max_retries = Ok (Some reviews) ->
  process_reviews_batch rt max_retries target_language cache
  = match filter_new cache reviews with
    | Ok new_reviews => Ok (cache ++ omap (entry_for rt target_language) new_reviews)
    | Raise _ => Ok cache
    end.
Proof.
  intros Hparse. unfold Main.process_reviews_batch.
  rewrite Hparse. simpl.
  destruct (filter_new cache reviews) as [new_reviews|e]; simpl.
  - case_bool_decide as Hnil.
    + subst. simpl. by rewrite app_nil_r.
    + by rewrite for_each_process_review.
  - by repeat (destruct (issubclass _ _)).
Qed.

Lemma process_reviews_batch_fetch_failed cache e :
  parse_reviews rt max_retries = Raise e ->
  process_reviews_batch rt max_retries target_language cache = Ok cache.
Proof.
  intros Hparse. unfold Main.process_reviews_batch.
  rewrite Hparse. simpl. by repeat (destruct (issubclass _ _)).
Qed.

Lemma process_reviews_batch_no_list cache :
  parse_reviews rt max_retries = Ok None ->
  process_reviews_batch rt max_retries target_language cache = Ok cache.
Proof.
  intros Hparse. unfold Main.process_reviews_batch.
  by rewrite Hparse.
Qed.

Lemma process_reviews_batch_extends cache :
  exists added, process_reviews_batch rt max_retries target_language cache = Ok (cache ++ added).
Proof.
  destruct (parse_reviews rt max_retries) as [[reviews|]|e] eqn:Hparse.
  - rewrite (process_reviews_batch_after_fetch _ _ Hparse).
    destruct (filter_new cache reviews) as [new_reviews|e].
    + by eexists.
    + exists []. by rewrite app_nil_r.
  - exists []. rewrite app_nil_r. by apply process_reviews_batch_no_list.
  - exists []. rewrite app_nil_r.
    by eapply process_reviews_batch_fetch_failed.
Qed.

End BatchFacts.

Section BatchClaims.

Context (rt : Runtime) (max_retries : Z) (target_language : string).

(** C3.  When [parse_reviews] raises NetworkError (the retries are
    exhausted) or ParsingError, [process_reviews_batch] returns the cache
    it was given: no entry is added, removed or changed. *)
Theorem fetch_failure_preserves_cache (cache : list CacheEntry) (e : exn) :
  parse_reviews rt max_retries = Raise e ->
  exn_cls e = NetworkError \/ exn_cls e = ParsingError ->
  process_reviews_batch rt max_retries target_language cache = Ok cache.
Proof. intros Hparse _. by eapply process_reviews_batch_fetch_failed. Qed.

Lemma entry_for_hash review e :
  entry_for rt target_language review = Some e ->
  c_text e = r_text review
  /\ hash_data (r_text review) = Ok (c_hash e)
  /\ analyze_sentiment rt target_language (PStr (r_text review))
     = Ok (c_sentiment e, c_language e).
Proof.
  unfold Main.entry_for.
  destruct (analyze_sentiment _ _ _) as [[sentiment lang]|]; [|done].
  destruct (hash_data _) as [h|]; [|done]. by intros [= <-].
Qed.

Lemma entry_for_is_Some review h :
  hash_data (r_text review) = Ok h ->
  exists e, entry_for rt target_language review = Some e /\ c_hash e = h.
Proof.
  intros Hh. unfold Main.entry_for. rewrite Hh.
  destruct (analyze_sentiment_returns rt target_language (PStr (r_text review)))
    as [[sentiment lang] ->]. by eexists.
Qed.

(** C1, at the input that breaks it.  A batch that holds the same review
    twice, processed on an empty cache, leaves two entries with the hash
    of its text: the first loop compares each review with the cache as it
    was before the batch, never with the reviews kept so far. *)
Theorem duplicate_in_batch_is_stored_twice (review : Review) (h : string) :
  1 <= max_retries ->
  page rt 0 = Ok [review; review] ->
  hash_data (r_text review) = Ok h ->
  exists e,
    process_reviews_batch rt max_retries target_language [] = Ok [e; e]
    /\ c_hash e = h
    /\ entries_with_hash h [e; e] = 2%nat.
Proof.
  intros Hmax Hpage Hh.
  destruct (entry_for_is_Some review h Hh) as (e & He & Hhash).
  exists e. split_and!; [|done|].
  - rewrite (process_reviews_batch_after_fetch rt max_retries target_language
               [] [review; review])
      by by apply parse_reviews_first_attempt.
    rewrite filter_new_returns by (repeat constructor; by exists h).
    cbn [List.filter]. unfold Main.is_new. rewrite Hh. simpl.
    by rewrite He.
  - unfold entries_with_hash. simpl. rewrite Hhash, String.eqb_refl. done.
Qed.

(** Across runs the deduplication holds: a run adds no entry whose hash
    the cache it was given already holds. *)
Lemma known_hash_not_stored_again cache cache' h :
  (0 < entries_with_hash h cache)%nat ->
  process_reviews_batch rt max_retries target_language cache = Ok cache' ->
  entries_with_hash h cache' = entries_with_hash h cache.
Proof.
  intros Hknown Hrun.
  assert (Hex : existsb (fun cached => String.eqb (c_hash cached) h) cache = true).
  { unfold entries_with_hash in Hknown.
    destruct (List.filter _ cache) as [|c l] eqn:Hf; [simpl in Hknown; lia|].
    assert (Hin : In c (List.filter (fun e => String.eqb (c_hash e) h) cache))
      by (rewrite Hf; by left).
    apply List.filter_In in Hin as [Hin Hc].
    apply existsb_exists. by exists c. }
  destruct (parse_reviews rt max_retries) as [[reviews|]|e] eqn:Hparse.
  - rewrite (process_reviews_batch_after_fetch _ _ _ _ _ Hparse) in Hrun.
    destruct (filter_new cache reviews) as [new_reviews|] eqn:Hnew;
      [|by injection Hrun as <-].
    injection Hrun as <-. apply filter_new_spec in Hnew as [-> _].
    unfold entries_with_hash. rewrite List.filter_app, length_app.
    cut (List.filter (fun e => String.eqb (c_hash e) h)
           (omap (entry_for rt target_language)
                 (List.filter (Main.is_new cache) reviews)) = []).
    { intros ->. simpl. lia. }
    clear Hparse. induction reviews as [|review reviews IH]; [done|].
    cbn [List.filter].
    destruct (Main.is_new cache review) eqn:Hisnew; [|exact IH].
    csimpl. destruct (entry_for rt target_language review) as [e|] eqn:He;
      [|exact IH].
    cbn [List.filter].
    destruct (String.eqb (c_hash e) h) eqn:Heq; [|exact IH].
    exfalso. apply String.eqb_eq in Heq.
    apply entry_for_hash in He as (_ & He & _).
    unfold Main.is_new in Hisnew. rewrite He, Heq, Hex in Hisnew. done.
  - rewrite process_reviews_batch_no_list in Hrun by done.
    by injection Hrun as <-.
  - rewrite (process_reviews_batch_fetch_failed _ _ _ _ _ Hparse) in Hrun.
    by injection Hrun as <-.
Qed.

(** A run always returns: the cache it was given, followed by the
    entries it added.  Each added entry carries the digest of its own text
    and the pair [analyze_sentiment] returned for that text; after a fetch
    whose texts can all be encoded the added entries are those of the
    reviews [is_new] accepts, in order. *)
Lemma process_reviews_batch_added cache :
  exists added,
    process_reviews_batch rt max_retries target_language cache
    = Ok (cache ++ added)
    /\ Forall (fun e => hash_data (c_text e) = Ok (c_hash e)) added
    /\ Forall (fun e =>
                 analyze_sentiment rt target_language (PStr (c_text e))
                 = Ok (c_sentiment e, c_language e)) added
    /\ (forall reviews,
          parse_reviews rt max_retries = Ok (Some reviews) ->
          Forall (fun review => exists h, hash_data (r_text review) = Ok h)
                 reviews ->
          added = omap (entry_for rt target_language)
                       (List.filter (Main.is_new cache) reviews)).
Proof.
  assert (Hentries : forall new_reviews,
    Forall (fun e => hash_data (c_text e) = Ok (c_hash e))
           (omap (entry_for rt target_language) new_reviews)
    /\ Forall (fun e =>
                 analyze_sentiment rt target_language (PStr (c_text e))
                 = Ok (c_sentiment e, c_language e))
              (omap (entry_for rt target_language) new_reviews)).
  { intros new_reviews. split; apply Forall_forall; intros e He;
      apply list_elem_of_omap in He as (review & _ & He);
      by apply entry_for_hash in He as (-> & ? & ?). }
  destruct (parse_reviews rt max_retries) as [[reviews|]|e] eqn:Hparse.
  - rewrite (process_reviews_batch_after_fetch _ _ _ _ _ Hparse).
    destruct (filter_new cache reviews) as [new_reviews|e] eqn:Hnew.
    + eexists. split; [done|].
      destruct (Hentries new_reviews) as [Hhash Hanalysis].
      split_and!; [done|done|].
      intros reviews' [= <-] _.
      by apply filter_new_spec in Hnew as [-> _].
    + exists []. rewrite app_nil_r. split_and!; [done|done|done|].
      intros reviews' [= <-] Henc.
      rewrite filter_new_returns in Hnew by done. done.
  - exists []. rewrite app_nil_r. split_and!; [|done|done|done].
    by apply process_reviews_batch_no_list.
  - exists []. rewrite app_nil_r. split_and!; [|done|done|done].
    by eapply process_reviews_batch_fetch_failed.
Qed.

(** C5 (amended).  The fingerprint stored with an entry and the one
    compared for deduplication are the digest of the review's text as it
    was fetched, with no preprocessing.  Every entry a run appends carries
    [hash_data] of its own text, so that two entries with the same raw
    text carry the same fingerprint; [is_new] accepts a review exactly
    when no cached entry carries [hash_data] of its text; and after a
    fetch whose texts can all be encoded the run appends one entry for
    each review [is_new] accepts, in order, with the text as fetched. *)
Theorem fingerprint_of_raw_text (cache : list CacheEntry) :
  exists added,
    process_reviews_batch rt max_retries target_language cache
    = Ok (cache ++ added)
    /\ Forall (fun e => hash_data (c_text e) = Ok (c_hash e)) added
    /\ (forall e1 e2, e1 ∈ added -> e2 ∈ added ->
          c_text e1 = c_text e2 -> c_hash e1 = c_hash e2)
    /\ (forall review,
          Main.is_new cache review = true
          <-> exists h, hash_data (r_text review) = Ok h
                        /\ forall cached, cached ∈ cache -> c_hash cached <> h)
    /\ (forall reviews,
          parse_reviews rt max_retries = Ok (Some reviews) ->
          Forall (fun review => exists h, hash_data (r_text review) = Ok h)
                 reviews ->
          map c_text added
          = map r_text (List.filter (Main.is_new cache) reviews)).
Proof.
  destruct (process_reviews_batch_added cache)
    as (added & Hrun & Hhash & _ & Hadded).
  exists added. split_and!; [done|done| | |].
  - intros e1 e2 H1 H2 Htext.
    rewrite Forall_forall in Hhash.
    pose proof (Hhash e1 H1) as Hh1. pose proof (Hhash e2 H2) as Hh2.
    rewrite Htext in Hh1. congruence.
  - intros review. unfold Main.is_new.
    destruct (hash_data (r_text review)) as [h|e];
      [|split; [done|by intros (h' & [=] & _)]].
    rewrite negb_true_iff. split.
    + intros Hnone. exists h. split; [done|]. intros cached Hin Heq.
      assert (existsb (fun cached => String.eqb (c_hash cached) h) cache = true);
        [|congruence].
      apply existsb_exists. exists cached. split.
      * by apply list_elem_of_In.
      * by apply String.eqb_eq.
    + intros (h' & [= <-] & Hnone).
      destruct (existsb _ cache) eqn:Hex; [|done].
      apply existsb_exists in Hex as (cached & Hin & Heq).
      apply String.eqb_eq in Heq. apply list_elem_of_In in Hin.
      by destruct (Hnone cached Hin).
  - intros reviews Hparse Henc. rewrite (Hadded reviews Hparse Henc).
    clear Hparse Hadded. induction Henc as [|review reviews [h Hh] _ IH];
      [done|].
    cbn [List.filter]. destruct (Main.is_new cache review); [|exact IH].
    csimpl. destruct (entry_for_is_Some review h Hh) as (e & He & _).
    rewrite He. csimpl. rewrite IH.
    by apply entry_for_hash in He as (-> & _).
Qed.


End BatchClaims.

(** ** Concrete runs of the batch *)

Section Runs.

Import Fixtures.

(** The witness of C3: the source times out on every attempt, and the
    cache comes back as it was. *)
Lemma fetch_failure_preserves_cache_witness :
  process_reviews_batch (flaky 3 (Ok [])) 3 "en" [old_entry] = Ok [old_entry].
Proof.
  apply (fetch_failure_preserves_cache (flaky 3 (Ok [])) 3 "en" [old_entry]
           (Exn NetworkError "Timeout while loading reviews")).
  - vm_compute. reflexivity.
  - left. reflexivity.
Defined.

(** The witness of the failing input of C1. *)
Lemma duplicate_in_batch_witness :
  exists e,
    process_reviews_batch twice_the_same 3 "en" [] = Ok [e; e]
    /\ c_hash e
       = "2a5820a3b629db30f740c61a6a8f3237abb16403ecb903842714474a7288fadb"
    /\ entries_with_hash
         "2a5820a3b629db30f740c61a6a8f3237abb16403ecb903842714474a7288fadb"
         [e; e] = 2%nat.
Proof.
  apply (duplicate_in_batch_is_stored_twice twice_the_same 3 "en"
           (review_of great)).
  - lia.
  - reflexivity.
  - vm_compute. reflexivity.
Defined.

(** C5, the counterexample.  Two reviews whose texts differ by one blank
    are the same text after preprocessing, yet the run stores them as two
    entries with two fingerprints; the fingerprint stored for the second
    one is not the digest of its preprocessed text. *)
Lemma fingerprint_ignores_preprocessing :
  _preprocess_text spaced_reviews (PStr great_spaced)
  = _preprocess_text spaced_reviews (PStr great)
  /\ hash_data (_preprocess_text spaced_reviews (PStr great_spaced))
     = Ok "2a5820a3b629db30f740c61a6a8f3237abb16403ecb903842714474a7288fadb"
  /\ exists e1 e2,
       process_reviews_batch spaced_reviews 1 "en" [] = Ok [e1; e2]
       /\ c_text e1 = great
       /\ c_text e2 = great_spaced
       /\ c_hash e1
          = "2a5820a3b629db30f740c61a6a8f3237abb16403ecb903842714474a7288fadb"
       /\ c_hash e2
          = "032ee4beff47c4ba8d3d7dfb32b2b8d9cc7e100a1e0d1bd84f1978fe8d4638bb"
       /\ c_hash e1 <> c_hash e2.
Proof.
  split; [vm_compute; reflexivity|]. split; [vm_compute; reflexivity|].
  eexists _, _. split; [vm_compute; reflexivity|].
  repeat split. discriminate.
Qed.

(** The witness of C5 (amended): the two texts that differ by a blank
    are both stored, each under the digest of its own text. *)
Lemma fingerprint_of_raw_text_witness :
  exists added,
    process_reviews_batch spaced_reviews 1 "en" [old_entry]
    = Ok ([old_entry] ++ added)
    /\ Forall (fun e => hash_data (c_text e) = Ok (c_hash e)) added
    /\ map c_text added = [great; great_spaced].
Proof.
  destruct (fingerprint_of_raw_text spaced_reviews 1 "en" [old_entry])
    as (added & Hrun & Hhash & _ & _ & Hadded).
  exists added. split; [exact Hrun|]. split; [exact Hhash|].
  apply (Hadded [review_of great; review_of great_spaced]).
  - vm_compute. reflexivity.
  - repeat constructor; eexists; vm_compute; reflexivity.
Defined.



End Runs.

(** ** Loading the cache *)

(** C2.  For every [SecurityManager] instance [load_cache] returns the
    empty list and does not raise: the class defines no
    [load_secure_cache], the attribute access raises AttributeError, and
    the handler of [Exception] turns it into the empty list.  So the cache
    a run starts with is empty, whether the configuration enables the
    cache or not. *)
Theorem load_cache_is_always_empty
    (invoke : method -> string -> result (list CacheEntry))
    (security_manager : SecurityManager) :
  raises_class (getattr security_manager "load_secure_cache") AttributeError
  /\ load_cache invoke security_manager = Ok []
  /\ forall cache_enabled,
       initial_cache invoke security_manager cache_enabled = Ok [].
Proof.
  split_and!.
  - by eexists.
  - reflexivity.
  - by intros [].
Qed.

(** ** Validation of the configuration *)

(** Membership in a list given by its elements. *)
Ltac in_list :=
  repeat (apply elem_of_cons; first [left; reflexivity | right]).

Section ConfigFacts.

Context (cfg : config).

Lemma validate_sections_cases :
  (validate_sections cfg = Ok tt
   /\ forall section, section ∈ required_sections -> is_Some (cfg !! section))
  \/ (raises_class (validate_sections cfg) ValueError
      /\ exists section, section ∈ required_sections /\ cfg !! section = None).
Proof.
  unfold validate_sections, required_sections.
  cbn [foldr].
  repeat (case_bool_decide;
    [right; split; [by eexists|eexists; split; [|eassumption]; in_list]|]).
  left. split; [done|]. intros section Hin.
  rewrite <- not_eq_None_Some.
  repeat (apply elem_of_cons in Hin as [->|Hin]; [done|]).
  by apply elem_of_nil in Hin.
Qed.

Lemma require_positive_int_cases section key msg v :
  cfg !! section = Some v ->
  (require_positive_int v key msg = Ok tt
   /\ at_least_one (field cfg section key))
  \/ (raises (require_positive_int v key msg)
      /\ ~ at_least_one (field cfg section key)).
Proof.
  intros Hv. unfold field, require_positive_int, at_least_one. rewrite Hv.
  destruct v as [|b|z|q|s|l|d];
    try (right; split; [by eexists|by intros (? & [=] & _)]).
  cbn [get mbind result_bind bind].
  destruct (as_int (dict_get d key)) as [z|] eqn:Hz.
  - destruct (Z.ltb_spec z 1).
    + right. split; [by eexists|]. intros (z' & [= <-] & Hle). lia.
    + left. split; [done|]. by exists z.
  - right. split; [by eexists|]. by intros (? & [=] & _).
Qed.

Lemma require_positive_int_class key msg d e :
  require_positive_int (PDict d) key msg = Raise e -> exn_cls e = ValueError.
Proof.
  unfold require_positive_int. cbn [get]. rewrite bind_ok.
  destruct (as_int _) as [z|]; [destruct (z <? 1)|]; by intros [= <-].
Qed.

Lemma validate_parser_cases v :
  cfg !! "parser" = Some v ->
  (validate_parser v = Ok tt
   /\ at_least_one (field cfg "parser" "max_retries")
   /\ at_least_one (field cfg "parser" "timeout"))
  \/ (raises (validate_parser v)
      /\ (~ at_least_one (field cfg "parser" "max_retries")
          \/ ~ at_least_one (field cfg "parser" "timeout"))).
Proof.
  intros Hv. unfold validate_parser.
  destruct (require_positive_int_cases "parser" "max_retries"
              "max_retries должен быть положительным целым числом" v Hv)
    as [[-> H1]|[[e ->] H1]]; [|right; split; [by eexists|by left]].
  rewrite bind_ok.
  destruct (require_positive_int_cases "parser" "timeout"
              "timeout должен быть положительным целым числом" v Hv)
    as [[-> H2]|[[e ->] H2]]; [by left|right; split; [by eexists|by right]].
Qed.

Lemma validate_analyzer_cases v :
  cfg !! "analyzer" = Some v ->
  (validate_analyzer v = Ok tt
   /\ in_unit_interval (field cfg "analyzer" "min_confidence"))
  \/ (raises (validate_analyzer v)
      /\ ~ in_unit_interval (field cfg "analyzer" "min_confidence")).
Proof.
  intros Hv. unfold field, validate_analyzer, in_unit_interval. rewrite Hv.
  destruct v as [|b|z|q|s|l|d];
    try (right; split; [by eexists|by intros (? & [=] & _)]).
  cbn [get mbind result_bind bind].
  destruct (as_number (dict_get d "min_confidence")) as [q|] eqn:Hq.
  - destruct (Qle_bool 0 q) eqn:H0; destruct (Qle_bool q 1) eqn:H1; simpl.
    + left. split; [done|]. exists q.
      by rewrite <- !Qle_bool_iff.
    + right. split; [by eexists|]. intros (q' & [= <-] & _ & Hle).
      apply Qle_bool_iff in Hle. congruence.
    + right. split; [by eexists|]. intros (q' & [= <-] & Hle & _).
      apply Qle_bool_iff in Hle. congruence.
    + right. split; [by eexists|]. intros (q' & [= <-] & Hle & _).
      apply Qle_bool_iff in Hle. congruence.
  - right. split; [by eexists|]. by intros (? & [=] & _).
Qed.

Lemma validate_notifier_cases d :
  cfg !! "notifier" = Some (PDict d) ->
  (validate_notifier (PDict d) = Ok tt
   /\ ~ (truthy (field cfg "notifier" "enabled") = true
         /\ (truthy (field cfg "notifier" "telegram_token") = false
             \/ truthy (field cfg "notifier" "chat_id") = false)))
  \/ (raises_class (validate_notifier (PDict d)) ValueError
      /\ truthy (field cfg "notifier" "enabled") = true
      /\ (truthy (field cfg "notifier" "telegram_token") = false
          \/ truthy (field cfg "notifier" "chat_id") = false)).
Proof.
  intros Hv. unfold field, validate_notifier. rewrite Hv.
  cbn [get mbind result_bind bind].
  destruct (truthy (dict_get d "enabled")) eqn:He.
  - destruct (truthy (dict_get d "telegram_token")) eqn:Ht; simpl.
    + destruct (truthy (dict_get d "chat_id")) eqn:Hc; simpl.
      * left. split; [done|]. intros (_ & [?|?]); congruence.
      * right. split; [by eexists|]. split; [done|]. by right.
    + right. split; [by eexists|]. split; [done|]. by left.
  - left. split; [done|]. intros (? & _); congruence.
Qed.

(** A section that is no object has no method [get]. *)
Lemma validate_notifier_not_object v :
  (forall d, v <> PDict d) ->
  raises_class (validate_notifier v) AttributeError.
Proof.
  intros Hv. destruct v as [|b|z|q|s|l|d]; try (by eexists).
  by destruct (Hv d).
Qed.

Lemma is_valid_level_spec v : is_valid_level v = true <-> known_level v.
Proof.
  unfold is_valid_level, known_level. destruct v as [|b|z|q|s|l|d];
    try (split; [done|by intros (? & _ & [=])]).
  rewrite bool_decide_eq_true, list_elem_of_fmap. split.
  - intros (l & -> & Hl). by exists l.
  - intros (l & Hl & [= ->]). by exists l.
Qed.

Lemma validate_logging_cases v :
  cfg !! "logging" = Some v ->
  (validate_logging v = Ok tt /\ known_level (field cfg "logging" "level"))
  \/ (raises (validate_logging v)
      /\ ~ known_level (field cfg "logging" "level")).
Proof.
  intros Hv. unfold field, validate_logging. rewrite Hv.
  destruct v as [|b|z|q|s|l|d];
    try (right; split; [by eexists|by intros (? & _ & [=])]).
  cbn [get mbind result_bind bind].
  destruct (is_valid_level (dict_get d "level")) eqn:Hl; simpl.
  - left. split; [done|]. by apply is_valid_level_spec.
  - right. split; [by eexists|]. rewrite <- is_valid_level_spec. congruence.
Qed.

(** The function walks the constraints in order: it returns when all of
    them hold and raises at the first one that does not, or at a notifier
    section that is no object. *)
Lemma _validate_config_cases :
  (_validate_config cfg = Ok tt
   /\ ~ constraint_violated cfg /\ is_object cfg "notifier")
  \/ (raises (_validate_config cfg)
      /\ (constraint_violated cfg \/ ~ is_object cfg "notifier")).
Proof.
  unfold _validate_config, constraint_violated.
  destruct validate_sections_cases as [[-> Hall]|[[msg ->] Hmissing]];
    [|right; split; [by eexists|left; by left]].
  rewrite bind_ok.
  destruct (Hall "parser" ltac:(in_list)) as [vp Hp].
  destruct (Hall "analyzer" ltac:(in_list)) as [va Ha].
  destruct (Hall "notifier" ltac:(in_list)) as [vn Hn].
  destruct (Hall "cache" ltac:(in_list)) as [vc Hc].
  destruct (Hall "logging" ltac:(in_list)) as [vl Hl].
  unfold getitem. rewrite Hp, Ha, Hn, Hc, Hl. rewrite !bind_ok.
  destruct (validate_parser_cases vp Hp) as [(-> & P1 & P2)|[[e ->] P]];
    [|right; split; [by eexists|tauto]].
  rewrite bind_ok.
  destruct (validate_analyzer_cases va Ha) as [(-> & A1)|[[e ->] A1]];
    [|right; split; [by eexists|tauto]].
  rewrite bind_ok.
  assert (Hshape : (exists dn, vn = PDict dn) \/ forall d, vn <> PDict d).
  { destruct vn; try (by right); left; by eexists. }
  destruct Hshape as [[dn ->]|Hshape].
  2:{ destruct (validate_notifier_not_object vn Hshape) as [msg ->].
      right. split; [by eexists|]. right. intros Hobj.
      destruct (Hobj vn Hn) as [d ->]. by destruct (Hshape d). }
  assert (Hobj : is_object cfg "notifier").
  { intros v Hv. rewrite Hn in Hv. injection Hv as <-. by eexists. }
  destruct (validate_notifier_cases dn Hn) as [(-> & N1)|[[e ->] N1]];
    [|right; split; [by eexists|tauto]].
  rewrite bind_ok.
  destruct (require_positive_int_cases "cache" "max_size"
              "max_size должен быть положительным целым числом" vc Hc)
    as [(HC & C1)|[[e HC] C1]]; unfold validate_cache; rewrite HC;
    [|right; split; [by eexists|tauto]].
  rewrite bind_ok.
  destruct (validate_logging_cases vl Hl) as [(-> & L1)|[[e ->] L1]];
    [|right; split; [by eexists|tauto]].
  left. split; [done|]. split; [|done].
  intros [(section & Hin & Hnone)|H].
  - destruct (Hall section Hin) as [v Hv]. congruence.
  - tauto.
Qed.

(** The constraints as the specification lists them are among those the
    function checks. *)
Lemma below_one_not_at_least_one v :
  below_one v = true -> ~ at_least_one v.
Proof.
  unfold below_one, at_least_one. intros Hv (z & Hz & Hle).
  assert (Hq : as_number v = Some (inject_Z z)).
  { destruct v; try discriminate; unfold as_number; by rewrite Hz. }
  rewrite Hq in Hv. apply negb_true_iff in Hv.
  assert (Qle_bool 1 (inject_Z z) = true); [|congruence].
  apply Qle_bool_iff. unfold Qle. simpl. lia.
Qed.

Lemma outside_unit_interval_spec v :
  outside_unit_interval v = true -> ~ in_unit_interval v.
Proof.
  unfold outside_unit_interval, in_unit_interval.
  intros Hv (q & Hq & H0 & H1). rewrite Hq in Hv.
  apply Qle_bool_iff in H0, H1. rewrite H0, H1 in Hv. done.
Qed.

Lemma stated_violation_is_checked :
  stated_violation cfg = true -> constraint_violated cfg.
Proof.
  unfold stated_violation, constraint_violated.
  rewrite !orb_true_iff, andb_true_iff, orb_true_iff.
  intros [[[[[[H|H]|H]|H]|H]|H]|[He Hs]].
  - left. apply existsb_exists in H as (section & Hin & Hnone).
    exists section. split; [by apply list_elem_of_In|].
    by apply bool_decide_eq_true in Hnone.
  - right; left. by apply below_one_not_at_least_one.
  - do 2 right; left. by apply below_one_not_at_least_one.
  - do 3 right; left. by apply outside_unit_interval_spec.
  - do 4 right; left. by apply below_one_not_at_least_one.
  - do 5 right; left. rewrite <- is_valid_level_spec.
    apply negb_true_iff in H. congruence.
  - do 6 right. split.
    + by destruct (field cfg "notifier" "enabled") as [|[]| | | | |].
    + destruct Hs as [Hs|Hs]; [left|right];
        match type of Hs with is_empty_str ?v = true =>
          by destruct v as [| | | |[|]| |] end.
Qed.

End ConfigFacts.

Section ConfigClaims.

Context (cfg : config).

Lemma _validate_config_raises_ValueError e :
  (forall section, section ∈ required_sections -> is_object cfg section) ->
  _validate_config cfg = Raise e -> exn_cls e = ValueError.
Proof.
  intros Hobj. unfold _validate_config.
  destruct (validate_sections_cases cfg) as [[-> Hall]|[[msg ->] _]];
    [|by intros [= <-]].
  rewrite bind_ok.
  destruct (Hall "parser" ltac:(in_list)) as [vp Hp].
  destruct (Hall "analyzer" ltac:(in_list)) as [va Ha].
  destruct (Hall "notifier" ltac:(in_list)) as [vn Hn].
  destruct (Hall "cache" ltac:(in_list)) as [vc Hc].
  destruct (Hall "logging" ltac:(in_list)) as [vl Hl].
  destruct (Hobj "parser" ltac:(in_list) vp Hp) as [dp ->].
  destruct (Hobj "analyzer" ltac:(in_list) va Ha) as [da ->].
  destruct (Hobj "notifier" ltac:(in_list) vn Hn) as [dn ->].
  destruct (Hobj "cache" ltac:(in_list) vc Hc) as [dc ->].
  destruct (Hobj "logging" ltac:(in_list) vl Hl) as [dl ->].
  unfold getitem. rewrite Hp, Ha, Hn, Hc, Hl. rewrite !bind_ok.
  unfold validate_parser, validate_cache.
  destruct (require_positive_int (PDict dp) "max_retries" _) eqn:H1;
    [|intros [= <-]; by eapply require_positive_int_class].
  rewrite bind_ok.
  destruct (require_positive_int (PDict dp) "timeout" _) eqn:H2;
    [|intros [= <-]; by eapply require_positive_int_class].
  rewrite bind_ok.
  destruct (validate_analyzer (PDict da)) eqn:H3.
  2:{ intros [= <-]. revert H3. unfold validate_analyzer.
      cbn [get mbind result_bind bind].
      destruct (as_number _) as [q|]; [destruct (negb _)|];
        by intros [= <-]. }
  rewrite bind_ok.
  destruct (validate_notifier_cases cfg dn Hn) as [(-> & _)|[[msg ->] _]];
    [|by intros [= <-]].
  rewrite bind_ok.
  destruct (require_positive_int (PDict dc) "max_size" _) eqn:H4;
    [|intros [= <-]; by eapply require_positive_int_class].
  rewrite bind_ok. unfold validate_logging.
  cbn [get mbind result_bind bind].
  destruct (negb _); by intros [= <-].
Qed.

(** C9 (amended).  On a configuration whose sections are objects,
    [_validate_config] raises, and raises a ValueError, exactly when one
    of the constraints it checks is violated, and returns otherwise: a
    required section is missing, [max_retries], [timeout] or [max_size] is
    not an integer that is at least 1, [min_confidence] is not a number in
    [0, 1], the logging level is not one of the five names, or the
    notifier's [enabled] is truthy with a token or a chat identifier that
    is missing or falsy.  Whatever the sections are, it raises exactly when
    one of these is violated or the notifier section is no object.  Every
    violation the specification lists is among them and makes it raise.
    In particular a configuration whose notifier is enabled with an empty
    token fails validation, [load_config] raises, and [main] fails without
    running anything that follows [load_config], the fetch included. *)
Theorem validate_config_iff_constraint_violated :
  ((forall section, section ∈ required_sections -> is_object cfg section) ->
   (raises_class (_validate_config cfg) ValueError
    <-> constraint_violated cfg)
   /\ (_validate_config cfg = Ok tt <-> ~ constraint_violated cfg))
  /\ (raises (_validate_config cfg)
      <-> constraint_violated cfg \/ ~ is_object cfg "notifier")
  /\ (stated_violation cfg = true -> raises (_validate_config cfg))
  /\ (truthy (field cfg "notifier" "enabled") = true ->
      truthy (field cfg "notifier" "telegram_token") = false ->
      raises (_validate_config cfg)
      /\ raises (load_config (Some cfg))
      /\ forall T (pipeline : config -> result T),
           raises_class (main (Some cfg) pipeline) UnboundLocalError).
Proof.
  assert (Hiff : raises (_validate_config cfg)
                 <-> constraint_violated cfg \/ ~ is_object cfg "notifier").
  { destruct (_validate_config_cases cfg)
      as [(Hok & Hnot & Hobj)|[Hraise Hviol]].
    - split; [intros [e He]; congruence|]. intros [?|?]; done.
    - done. }
  split_and!; [|done| |].
  - intros Hobj.
    assert (Hnotifier : is_object cfg "notifier")
      by (apply Hobj; in_list).
    split.
    + split.
      * intros [msg He]. destruct (proj1 Hiff) as [?|?]; [by eexists|done|done].
      * intros Hviol. destruct (proj2 Hiff (or_introl Hviol)) as [[cls msg] He].
        pose proof (_validate_config_raises_ValueError _ Hobj He) as Hcls.
        simpl in Hcls. subst cls. by exists msg.
    + destruct (_validate_config_cases cfg)
        as [(Hok & Hnot & _)|[[e Hraise] [Hviol|Hno]]].
      * done.
      * split; [congruence|done].
      * done.
  - intros Hstated. apply Hiff. left. by apply stated_violation_is_checked.
  - intros Henabled Htoken.
    assert (Hraise : raises (_validate_config cfg)).
    { apply Hiff. left. unfold constraint_violated. do 6 right. auto. }
    destruct Hraise as [e He].
    assert (Hload : load_config (Some cfg) = Raise e).
    { unfold load_config. rewrite bind_ok. by rewrite He. }
    split_and!; [by exists e|by exists e|].
    intros T pipeline. unfold main. rewrite Hload. by eexists.
Qed.

End ConfigClaims.

(** C9, the counterexample.  A configuration in which [max_retries] is
    2.5 violates none of the constraints as the specification lists them
    (2.5 is not below 1), and [_validate_config] raises a ValueError on it:
    it asks for an integer. *)
Lemma fractional_retries_are_refused :
  stated_violation Fixtures.fractional_retries = false
  /\ raises_class (_validate_config Fixtures.fractional_retries) ValueError.
Proof. split; [vm_compute; reflexivity|eexists; vm_compute; reflexivity]. Qed.

(** The witness of C9 (amended): the configuration
    [_create_default_config] writes enables the notifier and leaves the
    token empty. *)
Lemma validate_config_witness :
  raises (_validate_config default_config)
  /\ raises (load_config (Some default_config))
  /\ forall T (pipeline : config -> result T),
       raises_class (main (Some default_config) pipeline) UnboundLocalError.
Proof.
  apply (proj2 (proj2 (proj2
           (validate_config_iff_constraint_violated default_config)))).
  - vm_compute. reflexivity.
  - vm_compute. reflexivity.
Defined.

Example configured_is_valid : _validate_config Fixtures.configured = Ok tt.
Proof. vm_compute. reflexivity. Qed.

Example default_config_is_refused :
  raises_class (load_config None) ValueError.
Proof. eexists. vm_compute. reflexivity. Qed.

Example notifier_null_is_refused :
  stated_violation Fixtures.notifier_null = false
  /\ raises_class (_validate_config Fixtures.notifier_null) AttributeError.
Proof. split; [vm_compute; reflexivity|eexists; vm_compute; reflexivity]. Qed.

(** ** Concrete runs of the analyzer *)

Section AnalyzerRuns.

Import Fixtures.

Example preprocess_example :
  _preprocess_text no_reviews
    (PStr ([32; 97; 9; 10; 32; 98; 64; 64; 99; 95; 100; 32; 32]%N))
  = str "a b c_d".
Proof. vm_compute. reflexivity. Qed.

Example sha256_utf8 :
  hash_data ([1055; 1088; 1080; 1074; 1077; 1090; 44; 32; 1084; 1080; 1088;
              33; 32; 128512]%N)
  = Ok "aa9d1677d2e15879dc1d04806d7bb16827a8e6d28e5af08cc1397f07b912845a".
Proof. vm_compute. reflexivity. Qed.

Example lone_surrogate_cannot_be_hashed :
  raises_class (hash_data [0xD800%N]) UnicodeEncodeError.
Proof. eexists. vm_compute. reflexivity. Qed.

(** C6, the counterexample.  Two internal failures after which the
    result is not (0.0, "unknown"): the scoring call raises on an English
    text and the result is (0.0, "en"); the translation call raises on a
    French text and the result is (0.0, "fr").  And an argument on which
    the function raises: an object whose truth test raises. *)
Lemma internal_failure_keeps_detected_language :
  polarity no_reviews slow = Raise (Exn OtherException "lexicon not found")
  /\ analyze_sentiment no_reviews "en" (PStr slow) = Ok (0%Q, "en")
  /\ translate no_reviews mauvais "en"
     = Raise (Exn TranslationError "Failed to translate text: timed out")
  /\ analyze_sentiment no_reviews "en" (PStr mauvais) = Ok (0%Q, "fr")
  /\ (0%Q, "en") <> (0%Q, "unknown")
  /\ (0%Q, "fr") <> (0%Q, "unknown")
  /\ raises_class (analyze_sentiment no_reviews "en" ambiguous) ValueError.
Proof.
  split_and!; try discriminate; try (vm_compute; reflexivity).
  eexists. reflexivity.
Qed.

(** The witness of C6 (amended): the scoring failure and the object whose
    truth test raises, through the theorem. *)
Lemma analyze_sentiment_witness :
  analyze_sentiment no_reviews "en" (PStr slow) = Ok (0%Q, "en")
  /\ raises_class (analyze_sentiment no_reviews "en" ambiguous) ValueError.
Proof.
  destruct (analyze_sentiment_total_with_fallbacks no_reviews "en")
    as (Hraises & _ & _ & _ & _ & _ & _ & _ & Hscoring & _).
  split.
  - apply (Hscoring slow "en" slow (Exn OtherException "lexicon not found")).
    + vm_compute. discriminate.
    + vm_compute. reflexivity.
    + left. split; [reflexivity|]. vm_compute. reflexivity.
    + vm_compute. reflexivity.
  - eexists. apply Hraises. reflexivity.
Defined.

(** The witness of C7: a French review on a machine without network. *)
Lemma translation_failure_fallback_witness :
  analyze_sentiment no_reviews "en" (PStr mauvais) = Ok (0%Q, "fr").
Proof.
  apply (translation_failure_fallback no_reviews "en" mauvais "fr"
           (Exn TranslationError "Failed to translate text: timed out")).
  - vm_compute. discriminate.
  - vm_compute. reflexivity.
  - discriminate.
  - vm_compute. reflexivity.
Defined.

(** C8, the counterexample.  An analyzer built with no worker gives no
    result for a list of one text: the pool refuses to start. *)
Lemma no_worker_no_results :
  raises_class (analyze_batch no_reviews "en" 0 third_first [Builtin (PStr great)])
               ValueError
  /\ forall results,
       analyze_batch no_reviews "en" 0 third_first [Builtin (PStr great)]
       <> Ok results.
Proof. split; [eexists; reflexivity|discriminate]. Qed.

(** The witness of C8 (amended): three arguments, the second of which
    makes the analysis raise, and whose futures complete in the order
    third, first, second. *)
Lemma analyze_batch_complete_witness :
  exists results,
    analyze_batch no_reviews "en" 4 third_first
      [Builtin (PStr great); ambiguous; Builtin (PStr mauvais)]
    = Ok results
    /\ length results = 3%nat
    /\ results
       ≡ₚ map (collected no_reviews "en")
            [Builtin (PStr great); ambiguous; Builtin (PStr mauvais)]
    /\ Forall (fun result => exists text,
                 text ∈ [Builtin (PStr great); ambiguous;
                         Builtin (PStr mauvais)]
                 /\ (analyze_sentiment no_reviews "en" text = Ok result
                     \/ (raises (analyze_sentiment no_reviews "en" text)
                         /\ result = (0%Q, "unknown"))))
              results.
Proof.
  apply (analyze_batch_complete no_reviews "en" 4 third_first
           [Builtin (PStr great); ambiguous; Builtin (PStr mauvais)]).
  lia.
Defined.

Example analyze_batch_order :
  analyze_batch no_reviews "en" 4 third_first
    [Builtin (PStr great); ambiguous; Builtin (PStr mauvais)]
  = Ok [(0%Q, "fr"); (1%Q, "en"); (0%Q, "unknown")].
Proof. vm_compute. reflexivity. Qed.

End AnalyzerRuns.

(** * Further properties of the sources *)

(** ** The translation cache *)

Section TranslationCacheFacts.

Implicit Types c : gmap pystr (gmap string pystr).

Lemma cache_translation_eq c text target_lang translation :
  cache_translation c text target_lang translation
  = <[text := <[target_lang := translation]> (default ∅ (c !! text))]> c.
Proof.
  unfold cache_translation. case_bool_decide as Hnone; [|done].
  rewrite lookup_insert_eq, Hnone. simpl. by rewrite insert_insert_eq.
Qed.

Lemma cache_translation_stored c text target_lang translation :
  get_cached_translation
    (cache_translation c text target_lang translation) text target_lang
  = Some translation.
Proof.
  rewrite cache_translation_eq. unfold get_cached_translation.
  rewrite lookup_insert_eq. simpl. by rewrite lookup_insert_eq.
Qed.

(** X1.  What [cache_translation] stores is what [get_cached_translation]
    finds under the same text and language, and the translations stored
    under any other text or language are left as they were. *)
Theorem cache_translation_lookup c text target_lang translation
    text' target_lang' :
  get_cached_translation
    (cache_translation c text target_lang translation) text' target_lang'
  = if bool_decide (text' = text /\ target_lang' = target_lang)
    then Some translation
    else get_cached_translation c text' target_lang'.
Proof.
  rewrite cache_translation_eq. unfold get_cached_translation.
  destruct (decide (text' = text)) as [->|Htext].
  - rewrite lookup_insert_eq. simpl.
    destruct (decide (target_lang' = target_lang)) as [->|Hlang].
    + rewrite lookup_insert_eq. by rewrite bool_decide_eq_true_2.
    + rewrite lookup_insert_ne by done.
      rewrite bool_decide_eq_false_2; [done|]. by intros [_ ?].
  - rewrite lookup_insert_ne by done.
    rewrite bool_decide_eq_false_2; [done|]. by intros [? _].
Qed.

Context (rt : Runtime).

Lemma translate_uncached_with_cache_result c text target_lang :
  fst (translate_uncached_with_cache rt c text target_lang)
  = translate_uncached (with_cache rt c) text target_lang.
Proof.
  unfold translate_uncached_with_cache, translate_uncached.
  cbn [google_detect google_translate with_cache].
  destruct (google_detect rt text) as [detected|e]; [|done]. simpl.
  destruct (String.eqb detected target_lang); [done|].
  by destruct (google_translate rt text target_lang).
Qed.

Lemma translate_uncached_with_cache_fails c text target_lang e c' :
  translate_uncached_with_cache rt c text target_lang = (Raise e, c') ->
  c' = c /\ exn_cls e = TranslationError.
Proof.
  unfold translate_uncached_with_cache.
  destruct (google_detect rt text) as [detected|e0]; [|by intros [= <- <-]].
  destruct (String.eqb detected target_lang); [done|].
  destruct (google_translate rt text target_lang); [done|].
  by intros [= <- <-].
Qed.

Lemma translate_uncached_with_cache_stores c text target_lang t c' :
  translate_uncached_with_cache rt c text target_lang = (Ok t, c') ->
  get_cached_translation c' text target_lang = Some t.
Proof.
  unfold translate_uncached_with_cache.
  destruct (google_detect rt text) as [detected|e0]; [|done].
  destruct (String.eqb detected target_lang).
  - intros [= <- <-]. apply cache_translation_stored.
  - destruct (google_translate rt text target_lang); [|done].
    intros [= <- <-]. apply cache_translation_stored.
Qed.

Lemma translate_with_cache_fails c text target_lang e c' :
  translate_with_cache rt c text target_lang = (Raise e, c') ->
  c' = c /\ exn_cls e = TranslationError.
Proof.
  unfold translate_with_cache. case_bool_decide; [done|].
  destruct (get_cached_translation c text target_lang) as [cached|];
    [case_bool_decide; [|done]|];
    apply translate_uncached_with_cache_fails.
Qed.

(** A translation that is not empty is answered from the cache from then
    on, whatever the service does. *)
Lemma translate_with_cache_again c text target_lang t c' (rt' : Runtime) :
  translate_with_cache rt c text target_lang = (Ok t, c') ->
  t <> [] ->
  translate_with_cache rt' c' text target_lang = (Ok t, c').
Proof.
  intros Hcall Hne.
  assert (Htext : text <> []).
  { intros ->. unfold translate_with_cache in Hcall.
    rewrite bool_decide_eq_true_2 in Hcall by done.
    injection Hcall as <- _. done. }
  assert (Hcached : get_cached_translation c' text target_lang = Some t).
  { revert Hcall. unfold translate_with_cache.
    rewrite (bool_decide_eq_false_2 _ Htext).
    destruct (get_cached_translation c text target_lang) as [cached|] eqn:Hc;
      [case_bool_decide; [|by intros [= <- <-]]|];
      apply translate_uncached_with_cache_stores. }
  unfold translate_with_cache.
  rewrite (bool_decide_eq_false_2 _ Htext), Hcached.
  by rewrite (bool_decide_eq_false_2 _ Hne).
Qed.

(** A call that returned is at the front of the memo. *)
Lemma translate_memoised_kept m c text target_lang t m' c' :
  translate_memoised rt m c text target_lang = (Ok t, m', c') ->
  memo_find m' text target_lang = Some t.
Proof.
  assert (Hfront : forall rest,
    memo_find ((text, target_lang, t) :: rest) text target_lang = Some t).
  { intros rest. unfold memo_find, is_call. cbn [List.find fst].
    by rewrite bool_decide_eq_true_2. }
  unfold translate_memoised.
  destruct (memo_find m text target_lang) as [found|].
  - intros [= <- <- <-]. apply Hfront.
  - destruct (translate_with_cache rt c text target_lang) as [[t'|e] c''];
      [|done].
    intros [= <- <- <-]. apply Hfront.
Qed.

(** X2.  [translate], with the memo of its decorator and the cache of the
    shape the program writes.  When the memo does not hold the call the
    body runs, and its result is the one of the function that only reads
    the cache.  A call that fails raises a TranslationError and leaves the
    memo and the cache as they were.  After a call that returned, the same
    call made next returns the same value from the memo, an empty translation
    included, whatever the translation service answers and whatever the
    cache holds then, and leaves the cache alone.  Once the memo has
    dropped the call, a translation that is not empty is answered from
    the cache, again without the service. *)
Theorem translate_is_memoised m c text target_lang :
  fst (translate_with_cache rt c text target_lang)
  = translate (with_cache rt c) text target_lang
  /\ (memo_find m text target_lang = None ->
      fst (fst (translate_memoised rt m c text target_lang))
      = translate (with_cache rt c) text target_lang)
  /\ (forall e m' c',
        translate_memoised rt m c text target_lang = (Raise e, m', c') ->
        m' = m /\ c' = c /\ exn_cls e = TranslationError)
  /\ (forall t m' c',
        translate_memoised rt m c text target_lang = (Ok t, m', c') ->
        forall (rt' : Runtime) (c'' : gmap pystr (gmap string pystr)),
          translate_memoised rt' m' c'' text target_lang
          = (Ok t, memo_hit m' text target_lang t, c''))
  /\ (forall t m' c',
        memo_find m text target_lang = None ->
        translate_memoised rt m c text target_lang = (Ok t, m', c') ->
        t <> [] ->
        forall (rt' : Runtime) dropped,
          memo_find dropped text target_lang = None ->
          translate_memoised rt' dropped c' text target_lang
          = (Ok t, memo_add dropped text target_lang t, c')).
Proof.
  assert (Hbody : fst (translate_with_cache rt c text target_lang)
                  = translate (with_cache rt c) text target_lang).
  { unfold translate_with_cache, translate.
    cbn [cached_translation with_cache].
    case_bool_decide; [done|]. rewrite bind_ok.
    destruct (get_cached_translation c text target_lang) as [cached|];
      [destruct (decide (cached = [])) as [Hc|Hc];
         [rewrite !(bool_decide_eq_true_2 _ Hc)
         |by rewrite !(bool_decide_eq_false_2 _ Hc)]|];
      apply translate_uncached_with_cache_result. }
  split_and!.
  - exact Hbody.
  - intros Hmiss. rewrite <- Hbody. unfold translate_memoised. rewrite Hmiss.
    by destruct (translate_with_cache rt c text target_lang) as [[t|e] c'].
  - intros e m' c'. unfold translate_memoised.
    destruct (memo_find m text target_lang) as [found|]; [done|].
    destruct (translate_with_cache rt c text target_lang) as [[t|e'] c'']
      eqn:Hcall; [done|].
    intros [= <- <- <-].
    by apply translate_with_cache_fails in Hcall as [-> ?].
  - intros t m' c' Hcall rt' c''.
    apply translate_memoised_kept in Hcall.
    unfold translate_memoised. by rewrite Hcall.
  - intros t m' c' Hmiss Hcall Hne rt' dropped Hdropped.
    unfold translate_memoised in Hcall. rewrite Hmiss in Hcall.
    destruct (translate_with_cache rt c text target_lang) as [[t'|e] c'']
      eqn:Hbody'; [|done].
    injection Hcall as <- _ <-.
    unfold translate_memoised. rewrite Hdropped.
    by rewrite (translate_with_cache_again _ _ _ _ _ rt' Hbody' Hne).
Qed.



End TranslationCacheFacts.

(** ** The fetch controller: what is retried, and for how long *)

Section SessionFacts.

Context (rt : Runtime).

Lemma backoff_app evs1 evs2 :
  backoff (evs1 ++ evs2) = backoff evs1 + backoff evs2.
Proof.
  induction evs1 as [|[attempt|seconds|] evs1 IH]; simpl; lia.
Qed.

Lemma backoff_retried m : forall j,
  backoff (retried j m) = 2 ^ Z.of_nat (j + m) - 2 ^ Z.of_nat j.
Proof.
  unfold retried. induction m as [|m IH]; intros j.
  - rewrite Nat.add_0_r. simpl. lia.
  - cbn [seq flat_map app backoff foldr]. fold (backoff (flat_map
      (fun i => [Attempt i; Sleep (2 ^ Z.of_nat i); Cleanup]) (seq (S j) m))).
    rewrite IH.
    replace (Z.of_nat (S j + m)) with (Z.of_nat (j + S m)) by lia.
    replace (Z.of_nat (S j)) with (Z.of_nat j + 1) by lia.
    rewrite Z.pow_add_r by lia. lia.
Qed.

Lemma cleanups_retried m : forall j, cleanups (retried j m) = m.
Proof.
  unfold retried, cleanups. induction m as [|m IH]; intros j; [done|].
  simpl. by rewrite IH.
Qed.

Lemma parse_reviews_loop_cons max_retries attempt rest :
  parse_reviews_loop rt max_retries (attempt :: rest)
  = match _load_reviews rt attempt with
    | Ok reviews => (Ok (Some reviews), [Attempt attempt])
    | Raise e =>
        if issubclass (exn_cls e) NetworkError then
          if bool_decide (Z.of_nat attempt = max_retries - 1) then
            (Raise e, [Attempt attempt])
          else
            (fst (parse_reviews_loop rt max_retries rest),
             Attempt attempt :: Sleep (2 ^ Z.of_nat attempt) :: Cleanup
               :: snd (parse_reviews_loop rt max_retries rest))
        else (Raise e, [Attempt attempt])
    end.
Proof.
  simpl. destruct (_load_reviews rt attempt) as [reviews|e]; [done|].
  destruct (issubclass _ _); [|done]. case_bool_decide; [done|].
  by destruct (parse_reviews_loop rt max_retries rest).
Qed.

(** The loop over the attempts [j], ..., [j + m], the last of which is
    the last attempt of the run: some attempts that raise NetworkError and
    are retried, then the attempt that decides. *)
Lemma parse_reviews_loop_events m : forall j,
  exists i, (i <= m)%nat
    /\ (forall i', (i' < i)%nat ->
          raises_class (_load_reviews rt (j + i')) NetworkError)
    /\ parse_reviews_loop rt (Z.of_nat (j + S m)) (seq j (S m))
       = (match _load_reviews rt (j + i) with
          | Ok reviews => Ok (Some reviews)
          | Raise e => Raise e
          end,
          retried j i ++ [Attempt (j + i)])
    /\ (i < m ->
        forall e, _load_reviews rt (j + i) = Raise e ->
                  exn_cls e = ParsingError)%nat.
Proof.
  induction m as [|m IH]; intros j.
  - exists 0%nat. rewrite Nat.add_0_r. split_and!; [lia|intros; lia| |lia].
    change (seq j 1) with [j]. rewrite parse_reviews_loop_cons.
    destruct (_load_reviews rt j) as [reviews|e]; [done|].
    destruct (issubclass _ _); [|done].
    by rewrite bool_decide_eq_true_2 by lia.
  - change (seq j (S (S m))) with (j :: seq (S j) (S m)).
    rewrite parse_reviews_loop_cons.
    destruct (_load_reviews rt j) as [reviews|e] eqn:Hload.
    + exists 0%nat. rewrite Nat.add_0_r, Hload.
      split_and!; [lia|intros; lia|done|done].
    + destruct (issubclass (exn_cls e) NetworkError) eqn:Hsub.
      * rewrite bool_decide_eq_false_2 by lia.
        destruct (IH (S j)) as (i & Hi & Hfail & Hrun & Hlast).
        replace (S j + S m)%nat with (j + S (S m))%nat in Hrun by lia.
        exists (S i). split_and!; [lia| | |].
        -- intros [|i'] Hi'.
           ++ rewrite Nat.add_0_r, Hload.
              destruct (_load_reviews_raises_parser_errors rt j e Hload)
                as [Hcls|Hcls]; destruct e as [cls msg]; simpl in *; subst;
                [by eexists|done].
           ++ replace (j + S i')%nat with (S j + i')%nat by lia.
              apply Hfail. lia.
        -- rewrite Hrun. cbn [fst snd].
           replace (j + S i)%nat with (S j + i)%nat by lia.
           unfold retried. simpl. done.
        -- intros Hlt e' He'. replace (j + S i)%nat with (S j + i)%nat in He' by lia.
           apply (Hlast ltac:(lia) e' He').
      * exists 0%nat. rewrite Nat.add_0_r, Hload.
        split_and!; [lia|intros; lia|done|].
        intros _ e' [= <-].
        destruct (_load_reviews_raises_parser_errors rt j e Hload)
          as [Hcls|Hcls]; [|done]. by rewrite Hcls in Hsub.
Qed.

(** X4.  Whatever the page does, a run of [parse_reviews] with
    [max_retries = k >= 1] is some number [i < k] of attempts that raise
    NetworkError, each followed by its sleep and by the disposal of the
    session, and one last attempt that decides: the run returns the list
    of that attempt or raises its exception, which is a ParsingError
    unless the attempt was the last one allowed.  So the page is loaded
    at most [k] times, and between the attempts the run sleeps [2^i - 1]
    seconds, at most [2^(k-1) - 1], and disposes of [i] sessions. *)
Theorem parse_reviews_run_shape (k : nat) :
  (1 <= k)%nat ->
  exists i, (i < k)%nat
    /\ (forall i', (i' < i)%nat ->
          raises_class (_load_reviews rt i') NetworkError)
    /\ parse_reviews rt (Z.of_nat k)
       = match _load_reviews rt i with
         | Ok reviews => Ok (Some reviews)
         | Raise e => Raise e
         end
    /\ (forall e, (S i < k)%nat -> _load_reviews rt i = Raise e ->
                  exn_cls e = ParsingError)
    /\ snd (parse_reviews_run rt (Z.of_nat k)) = retried 0 i ++ [Attempt i]
    /\ attempts_made rt (Z.of_nat k) = S i
    /\ backoff (snd (parse_reviews_run rt (Z.of_nat k))) = 2 ^ Z.of_nat i - 1
    /\ backoff (snd (parse_reviews_run rt (Z.of_nat k)))
       <= 2 ^ (Z.of_nat k - 1) - 1
    /\ cleanups (snd (parse_reviews_run rt (Z.of_nat k))) = i.
Proof.
  intros Hk. destruct k as [|m]; [lia|].
  destruct (parse_reviews_loop_events m 0) as (i & Hi & Hfail & Hrun & Hlast).
  exists i. unfold attempts_made, parse_reviews, parse_reviews_run.
  rewrite Nat2Z.id. simpl plus in *. rewrite Hrun. cbn [fst snd].
  split_and!; [lia|done|done| |done| | | |].
  - intros e Hlt. apply Hlast. lia.
  - rewrite List.filter_app, length_app, retried_attempts. simpl. lia.
  - rewrite backoff_app, backoff_retried. simpl. lia.
  - rewrite backoff_app, backoff_retried. simpl.
    assert (2 ^ Z.of_nat i <= 2 ^ (Z.of_nat (S m) - 1))
      by (apply Z.pow_le_mono_r; lia).
    lia.
  - unfold cleanups. rewrite List.filter_app, length_app.
    fold (cleanups (retried 0 i)). rewrite cleanups_retried. simpl. lia.
Qed.

(** X5.  A browser that cannot be started is not retried.  The property
    [driver] raises NetworkError, but inside the [try] of [_load_reviews],
    whose last clause turns it into a ParsingError: [parse_reviews]
    raises that ParsingError after one attempt, without sleeping, whatever
    [max_retries] allows. *)
Theorem browser_start_failure_is_not_retried (max_retries : Z) (e : exn) :
  1 <= max_retries ->
  page rt 0 = driver (Raise e) ->
  parse_reviews_run rt max_retries
  = (Raise (Exn ParsingError
              "Error parsing reviews: Failed to initialize Chrome driver"),
     [Attempt 0]).
Proof.
  intros Hmax Hpage. unfold parse_reviews_run.
  destruct (Z.to_nat max_retries) as [|n] eqn:Hn; [lia|].
  cbn [seq parse_reviews_loop]. unfold _load_reviews. by rewrite Hpage.
Qed.

(** X6.  With [max_retries <= 0] the loop of [parse_reviews] has no
    iteration: no page is loaded and the function returns [None], not a
    list and not an exception; [process_reviews_batch] then fails on
    [len(reviews)] and returns the cache it was given. *)
Theorem parse_reviews_without_attempts (max_retries : Z)
    (target_language : string) (cache : list CacheEntry) :
  max_retries <= 0 ->
  parse_reviews_run rt max_retries = (Ok None, [])
  /\ process_reviews_batch rt max_retries target_language cache = Ok cache.
Proof.
  intros Hmax.
  assert (Hrun : parse_reviews_run rt max_retries = (Ok None, [])).
  { unfold parse_reviews_run.
    by replace (Z.to_nat max_retries) with 0%nat by lia. }
  split; [done|]. apply process_reviews_batch_no_list.
  unfold parse_reviews. by rewrite Hrun.
Qed.

End SessionFacts.

Lemma parse_reviews_run_shape_witness :
  exists i, (i < 3)%nat
    /\ parse_reviews
         (Fixtures.flaky 2 (Ok [Fixtures.review_of Fixtures.great])) 3
       = match _load_reviews
                 (Fixtures.flaky 2 (Ok [Fixtures.review_of Fixtures.great])) i
         with
         | Ok reviews => Ok (Some reviews)
         | Raise e => Raise e
         end
    /\ attempts_made
         (Fixtures.flaky 2 (Ok [Fixtures.review_of Fixtures.great])) 3 = S i
    /\ backoff (snd (parse_reviews_run
                       (Fixtures.flaky 2 (Ok [Fixtures.review_of Fixtures.great])) 3))
       = 2 ^ Z.of_nat i - 1.
Proof.
  destruct (parse_reviews_run_shape
              (Fixtures.flaky 2 (Ok [Fixtures.review_of Fixtures.great])) 3
              ltac:(lia))
    as (i & Hi & _ & Hrun & _ & _ & Hmade & Hslept & _).
  exists i. split; [exact Hi|]. split; [exact Hrun|].
  split; [exact Hmade|exact Hslept].
Defined.

Lemma browser_start_failure_witness :
  parse_reviews_run
    (Fixtures.flaky 0 (driver (Raise (Exn OtherException "chromedriver not found"))))
    3
  = (Raise (Exn ParsingError
              "Error parsing reviews: Failed to initialize Chrome driver"),
     [Attempt 0%nat]).
Proof.
  apply (browser_start_failure_is_not_retried
           (Fixtures.flaky 0
              (driver (Raise (Exn OtherException "chromedriver not found"))))
           3 (Exn OtherException "chromedriver not found")).
  - lia.
  - reflexivity.
Defined.

Lemma parse_reviews_without_attempts_witness :
  parse_reviews_run Fixtures.no_reviews 0 = (Ok None, [])
  /\ process_reviews_batch Fixtures.no_reviews 0 "en" [Fixtures.old_entry]
     = Ok [Fixtures.old_entry].
Proof.
  apply (parse_reviews_without_attempts Fixtures.no_reviews 0 "en"
           [Fixtures.old_entry]).
  lia.
Defined.

(** ** The batch orchestrator: validation, deduplication, statistics *)

Section BatchFurther.

Context (rt : Runtime) (max_retries : Z) (target_language : string).

(** X7.  [validate_review] never raises.  On a dictionary it returns
    [True] exactly when the text is a string that is not blank, the rating
    is a number (a Boolean counts as one) from 0 to 5 and the date is a
    string; the author is not looked at. *)
Theorem validate_review_dict (d : gmap string pyval) :
  exists verdict,
    validate_review (ReviewDict d) = Ok verdict
    /\ (verdict = true <->
        exists text rating date,
          d !! "text" = Some (PStr text) /\ strip text <> []
          /\ d !! "rating" = Some rating
          /\ (exists q, as_number rating = Some q /\ (0 <= q)%Q /\ (q <= 5)%Q)
          /\ d !! "date" = Some (PStr date)).
Proof.
  unfold validate_review, dict_get. cbn [forallb].
  destruct (d !! "text") as [text|] eqn:Ht; cbn [default id];
    [|exists false; split; [done|];
      split; [done|by intros (? & ? & ? & [=] & _)]].
  destruct (d !! "rating") as [rating|] eqn:Hr; cbn [default id];
    [|exists false; rewrite bool_decide_eq_true_2 by done; split; [done|];
      split; [done|by intros (? & ? & ? & _ & _ & [=] & _)]].
  destruct (d !! "date") as [date|] eqn:Hd; cbn [default id];
    [|exists false; rewrite !bool_decide_eq_true_2 by done; split; [done|];
      split; [done|by intros (? & ? & ? & _ & _ & _ & _ & [=])]].
  rewrite !bool_decide_eq_true_2 by done. cbn [andb negb].
  destruct text as [| | | |text| |];
    try (exists false; split; [done|];
         split; [done|by intros (? & ? & ? & [=] & _)]).
  case_bool_decide as Hblank; cbn [negb].
  { exists false. split; [done|].
    split; [done|]. by intros (? & ? & ? & [= <-] & ? & _). }
  destruct (as_number rating) as [q|] eqn:Hq;
    [|exists false; split; [done|]; split; [done|];
      intros (? & ? & ? & _ & _ & [= <-] & (? & Hq' & _) & _); congruence].
  destruct (Qle_bool 0 q && Qle_bool q 5) eqn:Hrange; cbn [negb].
  - apply andb_true_iff in Hrange as [H0 H5].
    apply Qle_bool_iff in H0, H5.
    destruct date as [| | | |date| |];
      try (exists false; split; [done|];
           split; [done|by intros (? & ? & ? & _ & _ & _ & _ & [=])]).
    exists true. split; [done|]. split; [|done]. intros _.
    exists text, rating, date. split_and!; try done. by exists q.
  - exists false. split; [done|]. split; [done|].
    intros (? & ? & ? & _ & _ & [= <-] & (q' & Hq' & H0 & H5) & _).
    rewrite Hq in Hq'. injection Hq' as <-.
    apply Qle_bool_iff in H0, H5. rewrite H0, H5 in Hrange. done.
Qed.

(** X8.  The verdict of [validate_review] does not filter the batch.
    [process_reviews_batch] hands it the [Review] object, on which the
    membership test fails and the function answers [False], and the
    answer is not read: a review whose text can be hashed is appended with
    its own fields, also when [validate_review] refuses the dictionary of
    these fields. *)
Theorem validation_does_not_filter (cache : list CacheEntry)
    (review : Review) (h : string) :
  hash_data (r_text review) = Ok h ->
  validate_review (ReviewObject review) = Ok false
  /\ exists sentiment lang,
       analyze_sentiment rt target_language (PStr (r_text review))
       = Ok (sentiment, lang)
       /\ process_review rt target_language cache review
          = Ok (cache ++ [mkEntry (r_text review) h sentiment lang
                            (r_rating review) (r_author review)
                            (r_date review)]).
Proof.
  intros Hh. split; [done|].
  destruct (analyze_sentiment_returns rt target_language (PStr (r_text review)))
    as [[sentiment lang] Ha].
  exists sentiment, lang. split; [done|].
  rewrite process_review_spec. unfold Main.entry_for. by rewrite Ha, Hh.
Qed.

Lemma added_hashes_sublist cache reviews :
  (Ok ∘ c_hash) <$> omap (entry_for rt target_language)
                       (List.filter (Main.is_new cache) reviews)
  `sublist_of` (fun review => hash_data (r_text review)) <$> reviews.
Proof.
  induction reviews as [|review reviews IH]; [done|].
  cbn [List.filter]. destruct (Main.is_new cache review).
  - csimpl. destruct (entry_for rt target_language review) as [e|] eqn:He.
    + apply entry_for_hash in He as (_ & -> & _). csimpl.
      by apply sublist_skip.
    + by apply sublist_cons.
  - csimpl. by apply sublist_cons.
Qed.

Lemma added_hashes_are_new cache reviews e :
  e ∈ omap (entry_for rt target_language)
           (List.filter (Main.is_new cache) reviews) ->
  c_hash e ∉ hashes cache.
Proof.
  intros He. apply list_elem_of_omap in He as (review & Hin & He).
  apply list_elem_of_In, List.filter_In in Hin as [_ Hnew].
  apply entry_for_hash in He as (_ & He & _).
  unfold Main.is_new in Hnew. rewrite He in Hnew.
  apply negb_true_iff in Hnew. intros Hcached.
  apply list_elem_of_fmap in Hcached as (cached & Heq & Hcached).
  assert (existsb (fun cached => String.eqb (c_hash cached) (c_hash e)) cache
          = true); [|congruence].
  apply existsb_exists. exists cached. split.
  - by apply list_elem_of_In.
  - apply String.eqb_eq. done.
Qed.

(** X9.  When the reviews of a batch have hashes that differ from one
    another, a cache whose entries have distinct hashes keeps that
    property through [process_reviews_batch]: together with the
    comparison against the cache, this is what makes an entry unique for
    its hash. *)
Theorem distinct_hashes_are_preserved (cache : list CacheEntry)
    (reviews : list Review) :
  parse_reviews rt max_retries = Ok (Some reviews) ->
  NoDup (hashes cache) ->
  NoDup ((fun review => hash_data (r_text review)) <$> reviews) ->
  exists cache',
    process_reviews_batch rt max_retries target_language cache = Ok cache'
    /\ NoDup (hashes cache').
Proof.
  intros Hparse Hcache Hreviews.
  rewrite (process_reviews_batch_after_fetch _ _ _ _ _ Hparse).
  destruct (filter_new cache reviews) as [new_reviews|] eqn:Hnew;
    [|by exists cache].
  apply filter_new_spec in Hnew as [-> _].
  eexists. split; [done|]. unfold hashes. rewrite map_app.
  apply NoDup_app. split_and!; [done| |].
  - intros h Hh Hadded.
    apply list_elem_of_fmap in Hadded as (e & -> & He).
    by apply added_hashes_are_new in He.
  - apply (NoDup_fmap_1 Ok). rewrite <- list_fmap_compose.
    eapply sublist_NoDup; [done|apply added_hashes_sublist].
Qed.

End BatchFurther.

Section BatchFurtherRuns.

Import Fixtures MoreFixtures.

Lemma validation_does_not_filter_witness :
  validate_review (ReviewDict (review_dict unrated)) = Ok false
  /\ validate_review (ReviewObject unrated) = Ok false
  /\ exists sentiment lang,
       analyze_sentiment no_reviews "en" (PStr (r_text unrated))
       = Ok (sentiment, lang)
       /\ process_review no_reviews "en" [old_entry] unrated
          = Ok ([old_entry]
                  ++ [mkEntry (r_text unrated)
                        "36a9e7f1c95b82ffb99743e0c5c4ce95d83c9a430aac59f84ef3cbfab6145068"
                        sentiment lang (r_rating unrated) (r_author unrated)
                        (r_date unrated)]).
Proof.
  split; [vm_compute; reflexivity|].
  apply (validation_does_not_filter no_reviews "en" [old_entry] unrated).
  vm_compute. reflexivity.
Defined.

Lemma distinct_hashes_are_preserved_witness :
  exists cache',
    process_reviews_batch two_reviews 3 "en" [old_entry] = Ok cache'
    /\ NoDup (hashes cache').
Proof.
  apply (distinct_hashes_are_preserved two_reviews 3 "en" [old_entry]
           [review_of great; review_of mauvais]).
  - vm_compute. reflexivity.
  - apply NoDup_singleton.
  - vm_compute. apply NoDup_cons. split; [|apply NoDup_singleton].
    intros Hin. apply list_elem_of_singleton in Hin. discriminate Hin.
Defined.

End BatchFurtherRuns.

(** ** The configuration manager: what is loaded and what is written *)

Section ConfigFurther.

Context (json_dump : config -> result unit).

Lemma _update_configs_sections (cfg : config) (sections : list string) :
  foldr (fun section rest =>
           v ← getitem cfg section;
           match v with
           | PDict d =>
               if forallb (fun key => bool_decide (key ∈ dataclass_fields section))
                          (elements (dom d))
               then rest
               else Raise (Exn TypeError "unexpected keyword argument")
           | _ => Raise (Exn TypeError "argument after ** must be a mapping")
           end)
        (Ok tt) sections = Ok tt
  <-> Forall (fun section =>
                exists d, cfg !! section = Some (PDict d)
                          /\ forall key, key ∈ dom d ->
                                         key ∈ dataclass_fields section)
             sections.
Proof.
  induction sections as [|section sections IH]; cbn [foldr].
  - split; [by constructor|done].
  - rewrite Forall_cons, <- IH. clear IH.
    match goal with |- context [foldr ?f ?a sections] =>
      generalize (foldr f a sections) end.
    intros rest. unfold getitem.
    destruct (cfg !! section) as [v|];
      [|rewrite bind_raise; split; [done|by intros [(? & [=] & _) _]]].
    rewrite bind_ok.
    destruct v as [|b|z|q|s|l|d];
      try (split; [done|by intros [(? & [=] & _) _]]).
    destruct (forallb _ _) eqn:Hkeys.
    + split; [|by intros [_ ?]]. intros Hrest. split; [|done].
      exists d. split; [done|]. intros key Hkey.
      rewrite forallb_forall in Hkeys.
      apply elem_of_elements, list_elem_of_In, Hkeys in Hkey.
      by apply bool_decide_eq_true in Hkey.
    + split; [done|]. intros [(d' & [= <-] & Hall) _].
      assert (forallb (fun key => bool_decide (key ∈ dataclass_fields section))
                      (elements (dom d)) = true); [|congruence].
      apply forallb_forall. intros key Hkey.
      apply bool_decide_eq_true, Hall, elem_of_elements, list_elem_of_In, Hkey.
Qed.

Lemma _update_configs_raises_TypeError (cfg : config) e :
  (forall section, section ∈ required_sections -> is_Some (cfg !! section)) ->
  _update_configs cfg = Raise e -> exn_cls e = TypeError.
Proof.
  unfold _update_configs. generalize required_sections.
  intros sections Hall.
  induction sections as [|section sections IH]; cbn [foldr]; [done|].
  destruct (Hall section ltac:(by left)) as [v Hv].
  assert (Hrest : forall s, s ∈ sections -> is_Some (cfg !! s))
    by (intros s Hs; apply Hall; by right).
  specialize (IH Hrest). revert IH.
  match goal with |- context [foldr ?f ?a sections] =>
    generalize (foldr f a sections) end.
  intros rest IH. unfold getitem. rewrite Hv, bind_ok.
  destruct v as [|b|z|q|s|l|d]; try by intros [= <-].
  destruct (forallb _ _); [by apply IH|by intros [= <-]].
Qed.

(** X11.  [load_config] returns the document of the file, unchanged, and
    does so exactly when the document passes [_validate_config] and each
    of the six sections is an object all of whose keys are fields of the
    section's dataclass.  A document that passes the validation and is
    refused makes [load_config] raise a TypeError: a key the dataclass
    does not know, also in the security section, which the validation
    does not look at. *)
Theorem load_config_accepts (cfg : config) :
  (forall cfg', load_config (Some cfg) = Ok cfg' <->
     cfg' = cfg
     /\ _validate_config cfg = Ok tt
     /\ Forall (fun section =>
                  exists d, cfg !! section = Some (PDict d)
                            /\ forall key, key ∈ dom d ->
                                           key ∈ dataclass_fields section)
               required_sections)
  /\ (forall e, _validate_config cfg = Ok tt ->
                load_config (Some cfg) = Raise e -> exn_cls e = TypeError).
Proof.
  split.
  - intros cfg'. rewrite <- _update_configs_sections.
    fold (_update_configs cfg). unfold load_config. rewrite bind_ok.
    destruct (_validate_config cfg) as [[]|e];
      [|split; [done|by intros (_ & [=] & _)]].
    rewrite bind_ok.
    destruct (_update_configs cfg) as [[]|e];
      [|split; [done|by intros (_ & _ & [=])]].
    rewrite bind_ok. split; [by intros [= <-]|by intros (-> & _)].
  - intros e Hvalid. unfold load_config. rewrite bind_ok, Hvalid, bind_ok.
    destruct (_update_configs cfg) as [[]|e'] eqn:Hupdate; [done|].
    intros [= <-]. eapply _update_configs_raises_TypeError; [|done].
    destruct (validate_sections_cases cfg) as [[_ Hall]|[[msg Hraise] _]];
      [done|].
    unfold _validate_config in Hvalid. by rewrite Hraise in Hvalid.
Qed.


End ConfigFurther.


(** ** The analyzer: where its answers come from, and its statistics *)

Section AnalyzerFurther.

Context (rt : Runtime) (target_language : string).

Lemma _detect_language_provenance text lang :
  _detect_language rt text = Ok lang ->
  lang = "unknown" \/ detect rt text = Ok lang.
Proof.
  unfold _detect_language. case_bool_decide; [intros [= <-]; by left|].
  destruct (detect rt text) as [l|e]; simpl.
  - intros [= <-]. by right.
  - destruct (issubclass _ _); intros [= <-]; by left.
Qed.

Lemma _get_sentiment_provenance text q :
  _get_sentiment rt text = Ok q -> q = 0%Q \/ polarity rt text = Ok q.
Proof.
  unfold _get_sentiment. case_bool_decide; [intros [= <-]; by left|].
  destruct (polarity rt text) as [p|e]; simpl; intros [= <-]; auto.
Qed.

(** X13.  Where the answer of [analyze_sentiment] comes from.  The
    language is "unknown" or the one [detect] gave for the preprocessed
    text.  The sentiment is the constant 0.0 or the polarity the scorer
    gave, for the preprocessed text when its language is the target one
    and for its translation otherwise; so any range that holds 0 and
    every polarity of the scorer holds every sentiment returned. *)
Theorem analyze_sentiment_provenance (text : pyval) (sentiment : Q)
    (lang : string) :
  analyze_sentiment rt target_language text = Ok (sentiment, lang) ->
  (lang = "unknown" \/ detect rt (_preprocess_text rt text) = Ok lang)
  /\ (sentiment = 0%Q
      \/ (lang = target_language
          /\ polarity rt (_preprocess_text rt text) = Ok sentiment)
      \/ (lang <> target_language
          /\ exists translated,
               translate rt (_preprocess_text rt text) target_language
               = Ok translated
               /\ polarity rt translated = Ok sentiment)).
Proof.
  unfold analyze_sentiment.
  destruct (negb (truthy text) || negb (isinstance_str text));
    [intros [= <- <-]; auto|].
  case_bool_decide as Hne; [intros [= <- <-]; auto|].
  destruct (_detect_language rt (_preprocess_text rt text)) as [detected|e]
    eqn:Hdetect; [|by destruct (_detect_language_returns rt (_preprocess_text rt text))
                        as [l Hl]; rewrite Hl in Hdetect].
  rewrite bind_ok.
  apply _detect_language_provenance in Hdetect.
  destruct (String.eqb_spec detected target_language) as [->|Hdiff];
    cbn [negb].
  - rewrite bind_ok.
    destruct (_get_sentiment rt (_preprocess_text rt text)) as [q|e] eqn:Hq;
      [|by destruct (_get_sentiment_returns rt (_preprocess_text rt text))
             as [s Hs]; rewrite Hs in Hq].
    simpl. intros [= <- <-]. split; [done|].
    apply _get_sentiment_provenance in Hq as [->|Hq]; auto.
  - destruct (translate rt (_preprocess_text rt text) target_language)
      as [translated|e] eqn:Htr; simpl.
    + destruct (_get_sentiment rt translated) as [q|e] eqn:Hq;
        [|by destruct (_get_sentiment_returns rt translated)
               as [s Hs]; rewrite Hs in Hq].
      simpl. intros [= <- <-]. split; [done|].
      apply _get_sentiment_provenance in Hq as [->|Hq]; [by left|].
      right. right. split; [done|]. by exists translated.
    + intros [= <- <-]. auto.
Qed.

(** The three conditions of the statistics and the three labels. *)
Lemma label_positive q :
  negb (Qle_bool q (3 # 10))
  = String.eqb (get_sentiment_label q) "positive".
Proof.
  unfold get_sentiment_label.
  destruct (Qlt_le_dec (3 # 10) q) as [Hlt|Hle].
  - destruct (Qle_bool q (3 # 10)) eqn:Hb; [|done].
    apply Qle_bool_iff in Hb. by apply Qle_not_lt in Hb.
  - apply Qle_bool_iff in Hle. rewrite Hle.
    by destruct (Qlt_le_dec q (- (3 # 10))).
Qed.

Lemma label_negative q :
  negb (Qle_bool (- (3 # 10)) q)
  = String.eqb (get_sentiment_label q) "negative".
Proof.
  unfold get_sentiment_label.
  destruct (Qlt_le_dec (3 # 10) q) as [Hlt|Hle].
  - assert (Hge : (- (3 # 10) <= q)%Q).
    { apply Qlt_le_weak. eapply Qlt_trans; [|exact Hlt]. reflexivity. }
    apply Qle_bool_iff in Hge. by rewrite Hge.
  - destruct (Qlt_le_dec q (- (3 # 10))) as [Hlt|Hge].
    + destruct (Qle_bool (- (3 # 10)) q) eqn:Hb; [|done].
      apply Qle_bool_iff in Hb. by apply Qle_not_lt in Hb.
    + apply Qle_bool_iff in Hge. by rewrite Hge.
Qed.

Lemma label_neutral q :
  Qle_bool (- (3 # 10)) q && Qle_bool q (3 # 10)
  = String.eqb (get_sentiment_label q) "neutral".
Proof.
  pose proof (label_positive q) as Hp. pose proof (label_negative q) as Hn.
  unfold get_sentiment_label in *.
  destruct (Qlt_le_dec (3 # 10) q);
    [|destruct (Qlt_le_dec q (- (3 # 10)))]; simpl in *;
    destruct (Qle_bool (- (3 # 10)) q), (Qle_bool q (3 # 10)); done.
Qed.

Lemma counts_cover sentiments :
  (count_positive sentiments + count_negative sentiments
   + count_neutral sentiments)%nat = length sentiments.
Proof.
  unfold count_positive, count_negative, count_neutral.
  induction sentiments as [|[q l] sentiments IH]; [done|].
  cbn [List.filter fst]. rewrite label_positive, label_negative, label_neutral.
  unfold get_sentiment_label.
  destruct (Qlt_le_dec (3 # 10) q);
    [|destruct (Qlt_le_dec q (- (3 # 10)))]; simpl; lia.
Qed.

Lemma filter_length_Permutation {A} (f : A -> bool) l1 l2 :
  l1 ≡ₚ l2 -> length (List.filter f l1) = length (List.filter f l2).
Proof.
  induction 1 as [|x l1 l2 _ IH|x y l|l1 l2 l3 _ IH1 _ IH2]; simpl.
  - done.
  - destruct (f x); simpl; lia.
  - destruct (f x), (f y); simpl; lia.
  - lia.
Qed.

Lemma filter_length_map {A B} (f : B -> bool) (g : A -> B) l :
  length (List.filter f (map g l)) = length (List.filter (fun x => f (g x)) l).
Proof.
  induction l as [|x l IH]; [done|]. simpl. destruct (f (g x)); simpl; lia.
Qed.

(** X14.  [get_sentiment_stats] on a list of [n >= 1] arguments.  On an
    analyzer with at least one worker it returns, in whatever order the
    futures complete: the three fractions are the numbers of arguments
    [get_sentiment_label] calls positive, negative and neutral, each
    divided by [n] as Python divides two integers; every argument falls
    under exactly one of the three, so the three numbers add up to [n];
    and the average is Python's [sum] of the sentiments, in the order of
    completion, divided by [n].  On an analyzer without a worker it raises
    the ValueError of the pool. *)
Theorem get_sentiment_stats_fractions (fa : FloatArith) (max_workers : Z)
    (next : nat -> nat) (texts : list pyarg) :
  texts <> [] ->
  (1 <= max_workers ->
   exists stats sentiments,
     get_sentiment_stats rt target_language fa max_workers next texts
     = Ok stats
     /\ sentiments ≡ₚ map (collected rt target_language) texts
     /\ average stats
        = float_div fa (float_sum fa (map fst sentiments))
                    (Z.of_nat (length texts))
     /\ positive stats
        = int_div fa (Z.of_nat (labelled rt target_language "positive" texts))
                  (Z.of_nat (length texts))
     /\ negative stats
        = int_div fa (Z.of_nat (labelled rt target_language "negative" texts))
                  (Z.of_nat (length texts))
     /\ neutral stats
        = int_div fa (Z.of_nat (labelled rt target_language "neutral" texts))
                  (Z.of_nat (length texts))
     /\ (labelled rt target_language "positive" texts
         + labelled rt target_language "negative" texts
         + labelled rt target_language "neutral" texts)%nat = length texts)
  /\ (max_workers <= 0 ->
      raises_class
        (get_sentiment_stats rt target_language fa max_workers next texts)
        ValueError).
Proof.
  intros Hne. split.
  - intros Hworkers.
    destruct (analyze_batch_eq rt target_language max_workers next texts
                Hworkers) as (sentiments & Hrun & Hall).
    assert (Hlen : length sentiments = length texts)
      by (rewrite Hall; apply length_map).
    assert (Hpos : (0 < length texts)%nat)
      by (destruct texts; [done|simpl; lia]).
    assert (Hp : count_positive sentiments
                 = labelled rt target_language "positive" texts).
    { unfold count_positive, labelled.
      rewrite (filter_length_Permutation _ _ _ Hall), filter_length_map.
      f_equal. apply List.filter_ext. intros text. apply label_positive. }
    assert (Hg : count_negative sentiments
                 = labelled rt target_language "negative" texts).
    { unfold count_negative, labelled.
      rewrite (filter_length_Permutation _ _ _ Hall), filter_length_map.
      f_equal. apply List.filter_ext. intros text. apply label_negative. }
    assert (Hu : count_neutral sentiments
                 = labelled rt target_language "neutral" texts).
    { unfold count_neutral, labelled.
      rewrite (filter_length_Permutation _ _ _ Hall), filter_length_map.
      f_equal. apply List.filter_ext. intros text. apply label_neutral. }
    unfold get_sentiment_stats.
    destruct texts as [|text texts]; [done|].
    rewrite Hrun, bind_ok, Hlen.
    rewrite bool_decide_eq_false_2 by lia.
    eexists _, sentiments. split; [done|].
    cbn [average positive negative neutral]. rewrite Hp, Hg, Hu.
    split_and!; try done.
    rewrite <- Hp, <- Hg, <- Hu, counts_cover. exact Hlen.
  - intros Hworkers. unfold get_sentiment_stats, analyze_batch.
    destruct texts as [|text texts]; [done|].
    destruct (Z.leb_spec max_workers 0); [|lia].
    by eexists.
Qed.

(** On an element whose truth test answers, the body of the loop
    returns; on the others it raises what the test raises. *)
Lemma count_language_returns language_counts (text : pyarg) b :
  truth_test text = Ok b ->
  count_language rt language_counts text
  = Ok (match language_of rt text with
        | Some lang =>
            <[lang := S (default 0%nat (language_counts !! lang))]>
              language_counts
        | None => language_counts
        end).
Proof.
  unfold count_language, language_of.
  destruct text as [[|b'|z|q|s|l|d]|truth]; try done.
  - intros _. case_bool_decide; [done|]. cbn [negb].
    by destruct (_detect_language_returns rt s) as [lang ->].
  - cbn [truth_test]. by intros ->.
Qed.

Lemma count_language_raises language_counts (text : pyarg) e :
  truth_test text = Raise e ->
  count_language rt language_counts text = Raise e.
Proof.
  destruct text as [v|truth]; [done|]. cbn [truth_test]. by intros ->.
Qed.

Lemma total_count_insert (language_counts : gmap string nat) lang :
  total_count (<[lang := S (default 0%nat (language_counts !! lang))]>
                 language_counts)
  = S (total_count language_counts).
Proof.
  unfold total_count.
  assert (Hcomm : forall (j1 j2 : string) (z1 z2 y : nat),
            (z1 + (z2 + y) = z2 + (z1 + y))%nat) by (intros; lia).
  destruct (language_counts !! lang) as [count|] eqn:Hlang; cbn [default].
  - rewrite <- (insert_delete_eq language_counts lang (S count)) at 1.
    rewrite <- (insert_delete_id language_counts lang count Hlang) at 2.
    rewrite !map_fold_insert_L; try (intros; apply Hcomm; done);
      try apply lookup_delete_eq.
    done.
  - rewrite map_fold_insert_L; try (intros; apply Hcomm; done); done.
Qed.

Lemma for_each_count_language texts :
  Forall (fun text => exists b, truth_test text = Ok b) texts ->
  forall language_counts,
  exists dist,
    for_each (count_language rt) texts language_counts = Ok dist
    /\ (forall lang,
          default 0%nat (dist !! lang)
          = (default 0%nat (language_counts !! lang)
             + occurrences rt lang texts)%nat)
    /\ ((forall lang, language_counts !! lang <> Some 0%nat) ->
        forall lang, dist !! lang <> Some 0%nat)
    /\ total_count dist = (total_count language_counts + counted rt texts)%nat.
Proof.
  unfold occurrences, counted.
  induction 1 as [|text texts [b Hb] _ IH]; intros language_counts.
  - exists language_counts. cbn [for_each List.filter length].
    split_and!; [done|intros; lia|done|lia].
  - cbn [for_each]. rewrite (count_language_returns _ _ _ Hb), bind_ok.
    cbn [List.filter].
    destruct (language_of rt text) as [detected|] eqn:Hlang.
    + destruct (IH (<[detected := S (default 0%nat (language_counts !! detected))]>
                      language_counts))
        as (dist & -> & Hcount & Hzero & Htotal).
      exists dist. split_and!; [done| | |].
      * intros lang. rewrite Hcount.
        destruct (decide (lang = detected)) as [->|Hne].
        -- rewrite lookup_insert_eq, bool_decide_eq_true_2 by done.
           simpl. lia.
        -- rewrite lookup_insert_ne by done.
           rewrite bool_decide_eq_false_2 by congruence. done.
      * intros Hnz. apply Hzero. intros lang.
        destruct (decide (lang = detected)) as [->|Hne].
        -- by rewrite lookup_insert_eq.
        -- rewrite lookup_insert_ne by done. apply Hnz.
      * rewrite Htotal, total_count_insert.
        rewrite bool_decide_eq_true_2 by done. simpl. lia.
    + destruct (IH language_counts) as (dist & -> & Hcount & Hzero & Htotal).
      exists dist. split_and!; [done| |done|].
      * intros lang. rewrite Hcount. by rewrite bool_decide_eq_false_2.
      * rewrite Htotal. rewrite (bool_decide_eq_false_2 (is_Some None));
          [done|]. by intros [? ?].
Qed.

(** X15.  [get_language_distribution] on a list whose elements all answer
    the truth test, as every value of a built-in type does, returns a
    dictionary that holds, under each language, the number of non-empty
    strings of the list for which [_detect_language] answered that
    language ("unknown" when the detection failed), and no language with
    a count of zero; its counts add up to the number of non-empty strings
    of the list, the other elements being skipped.  At the first element
    whose truth test raises it raises what the test raised: the test
    stands in no [try]. *)
Theorem get_language_distribution_counts (texts : list pyarg) :
  (Forall (fun text => exists b, truth_test text = Ok b) texts ->
   exists dist,
     get_language_distribution rt texts = Ok dist
     /\ (forall lang,
           dist !! lang
           = if bool_decide (occurrences rt lang texts = 0%nat) then None
             else Some (occurrences rt lang texts))
     /\ total_count dist = counted rt texts
     /\ counted rt texts
        = length (List.filter
                    (fun text => match text with
                                 | Builtin (PStr s) =>
                                     negb (bool_decide (s = []))
                                 | _ => false
                                 end) texts))
  /\ (forall before text after e,
        texts = before ++ text :: after ->
        Forall (fun text => exists b, truth_test text = Ok b) before ->
        truth_test text = Raise e ->
        get_language_distribution rt texts = Raise e).
Proof.
  split.
  - intros Hall.
    assert (Hcounted :
      counted rt texts
      = length (List.filter
                  (fun text => match text with
                               | Builtin (PStr s) =>
                                   negb (bool_decide (s = []))
                               | _ => false
                               end) texts)).
    { unfold counted. f_equal. apply List.filter_ext. intros text.
      unfold language_of. destruct text as [[|b|z|q|s|l|d]|truth];
        try (apply bool_decide_eq_false_2; by intros [? ?]).
      destruct (decide (s = [])) as [->|Hs].
      - apply bool_decide_eq_false_2. by intros [? ?].
      - rewrite !(bool_decide_eq_false_2 (s = [])) by done.
        destruct (_detect_language_returns rt s) as [lang ->].
        by apply bool_decide_eq_true_2. }
    assert (Hloop : get_language_distribution rt texts
                    = for_each (count_language rt) texts ∅)
      by (by destruct texts).
    rewrite Hloop.
    destruct (for_each_count_language texts Hall ∅)
      as (dist & -> & Hcount & Hzero & Htotal).
    exists dist. split_and!; [done| | |done].
    + intros lang. specialize (Hcount lang).
      rewrite lookup_empty in Hcount. simpl in Hcount.
      case_bool_decide as Hocc.
      * rewrite Hocc in Hcount.
        destruct (dist !! lang) as [count|] eqn:Hd; [|done].
        simpl in Hcount. subst count.
        exfalso. eapply Hzero; [|exact Hd]. intros l. by rewrite lookup_empty.
      * destruct (dist !! lang) as [count|] eqn:Hd; simpl in Hcount;
          [by subst|]. by rewrite <- Hcount in Hocc.
    + rewrite Htotal. unfold total_count. by rewrite map_fold_empty.
  - intros before text after e -> Hbefore Hraise.
    assert (Hloop : get_language_distribution rt (before ++ text :: after)
                    = for_each (count_language rt) (before ++ text :: after) ∅)
      by (by destruct before).
    rewrite Hloop, for_each_app.
    destruct (for_each_count_language before Hbefore ∅) as (dist & -> & _).
    rewrite bind_ok. cbn [for_each].
    by rewrite (count_language_raises _ _ _ Hraise).
Qed.

End AnalyzerFurther.

(** The witness of X14: two texts, one scored 1.0 and one whose
    translation fails. *)
Lemma get_sentiment_stats_fractions_witness :
  labelled Fixtures.no_reviews "en" "positive"
    [Builtin (PStr Fixtures.great); Builtin (PStr Fixtures.mauvais)] = 1%nat
  /\ forall fa, exists stats,
       get_sentiment_stats Fixtures.no_reviews "en" fa 4 Fixtures.third_first
         [Builtin (PStr Fixtures.great); Builtin (PStr Fixtures.mauvais)]
       = Ok stats
       /\ positive stats = int_div fa 1 2
       /\ negative stats = int_div fa 0 2
       /\ neutral stats = int_div fa 1 2.
Proof.
  split; [vm_compute; reflexivity|]. intros fa.
  destruct (get_sentiment_stats_fractions Fixtures.no_reviews "en" fa 4
              Fixtures.third_first
              [Builtin (PStr Fixtures.great); Builtin (PStr Fixtures.mauvais)])
    as [Hreturns _]; [discriminate|].
  destruct Hreturns as (stats & _ & Hrun & _ & _ & Hp & Hg & Hu & _); [lia|].
  exists stats. split; [exact Hrun|].
  rewrite Hp, Hg, Hu. vm_compute. repeat split.
Defined.

Lemma analyze_sentiment_provenance_witness :
  ("en" = "unknown"
   \/ detect Fixtures.no_reviews
        (_preprocess_text Fixtures.no_reviews (PStr Fixtures.great))
      = Ok "en")
  /\ (1%Q = 0%Q
      \/ ("en" = "en"
          /\ polarity Fixtures.no_reviews
               (_preprocess_text Fixtures.no_reviews (PStr Fixtures.great))
             = Ok 1%Q)
      \/ ("en" <> "en"
          /\ exists translated,
               translate Fixtures.no_reviews
                 (_preprocess_text Fixtures.no_reviews (PStr Fixtures.great))
                 "en" = Ok translated
               /\ polarity Fixtures.no_reviews translated = Ok 1%Q)).
Proof.
  apply (analyze_sentiment_provenance Fixtures.no_reviews "en"
           (PStr Fixtures.great) 1%Q "en").
  vm_compute. reflexivity.
Defined.

(** ** The text functions: [strip], [_preprocess_text], [sanitize_text] *)

Section TextFacts.

Lemma lstrip_spaces s :
  exists spaces, s = spaces ++ lstrip s
                 /\ Forall (fun c => is_space c = true) spaces.
Proof.
  induction s as [|c s (spaces & Hs & Hall)]; [by exists []|].
  simpl. destruct (is_space c) eqn:Hc.
  - exists (c :: spaces). split; [simpl; by f_equal|by constructor].
  - by exists [].
Qed.

Lemma lstrip_starts_clean s : starts_clean (lstrip s).
Proof.
  induction s as [|c s IH]; [done|]. simpl.
  by destruct (is_space c) eqn:Hc.
Qed.

Lemma lstrip_clean s : starts_clean s -> lstrip s = s.
Proof. destruct s as [|c s]; [done|]. simpl. by intros ->. Qed.

Lemma starts_clean_app s t : s <> [] -> starts_clean (s ++ t) <-> starts_clean s.
Proof. by destruct s. Qed.

Lemma lstrip_ends_clean s : starts_clean (rev s) -> starts_clean (rev (lstrip s)).
Proof.
  destruct (lstrip_spaces s) as (spaces & Hs & _).
  destruct (lstrip s) as [|c m] eqn:Hm; [done|].
  rewrite Hs at 1. rewrite rev_app_distr.
  apply starts_clean_app. simpl. by destruct (rev m).
Qed.

(** [strip] takes whitespace away at both ends and nothing else. *)
Lemma strip_spaces s :
  exists before after,
    s = before ++ strip s ++ after
    /\ Forall (fun c => is_space c = true) before
    /\ Forall (fun c => is_space c = true) after.
Proof.
  unfold strip.
  destruct (lstrip_spaces s) as (before & Hs & Hbefore).
  destruct (lstrip_spaces (rev (lstrip s))) as (after & Hr & Hafter).
  exists before, (rev after). split_and!; [|done|by apply Forall_rev].
  rewrite Hs at 1. f_equal.
  rewrite <- (rev_involutive (lstrip s)), Hr at 1.
  by rewrite rev_app_distr.
Qed.

Lemma strip_clean s :
  starts_clean (strip s) /\ starts_clean (rev (strip s)).
Proof.
  unfold strip. rewrite rev_involutive. split; [|apply lstrip_starts_clean].
  apply lstrip_ends_clean. rewrite rev_involutive. apply lstrip_starts_clean.
Qed.

Lemma strip_id s : starts_clean s -> starts_clean (rev s) -> strip s = s.
Proof.
  intros Hs Hr. unfold strip.
  by rewrite (lstrip_clean s Hs), (lstrip_clean _ Hr), rev_involutive.
Qed.

Lemma strip_idempotent s : strip (strip s) = strip s.
Proof. destruct (strip_clean s). by apply strip_id. Qed.

Lemma strip_Forall (P : N -> Prop) s : Forall P s -> Forall P (strip s).
Proof.
  destruct (strip_spaces s) as (before & after & Hs & _).
  rewrite Hs at 1. rewrite !Forall_app. tauto.
Qed.

Lemma strip_length s : (length (strip s) <= length s)%nat.
Proof.
  destruct (strip_spaces s) as (before & after & Hs & _).
  rewrite Hs at 2. rewrite !length_app. lia.
Qed.

(** The whitespace of a collapsed text. *)
Lemma single_blanks_collapse s : forall after_space,
  single_blanks after_space (collapse_spaces after_space s) = true.
Proof.
  induction s as [|c s IH]; intros after_space; [done|]. simpl.
  destruct (is_space c) eqn:Hc.
  - destruct after_space; [apply IH|]. simpl. by rewrite IH.
  - simpl. by rewrite Hc, IH.
Qed.

Lemma collapse_single_blanks s : forall after_space,
  single_blanks after_space s = true -> collapse_spaces after_space s = s.
Proof.
  induction s as [|c s IH]; intros after_space; [done|]. simpl.
  destruct (is_space c) eqn:Hc.
  - destruct after_space; [done|]. simpl.
    intros [Hblank Hrest]%andb_true_iff.
    apply N.eqb_eq in Hblank as ->. by rewrite IH.
  - intros Hrest. by rewrite IH.
Qed.

Lemma single_blanks_app_l s t : forall after_space,
  single_blanks after_space (s ++ t) = true ->
  single_blanks after_space s = true.
Proof.
  induction s as [|c s IH]; intros after_space; [done|]. simpl.
  destruct (is_space c).
  - intros [Hc Hrest]%andb_true_iff. rewrite Hc. by eapply IH.
  - apply IH.
Qed.

Lemma single_blanks_app_r s t : forall after_space,
  single_blanks after_space (s ++ t) = true ->
  starts_clean t ->
  single_blanks false t = true.
Proof.
  induction s as [|c s IH]; intros after_space.
  - simpl. destruct t as [|c t]; [done|]. simpl.
    intros H Hc. by rewrite Hc in *.
  - simpl. destruct (is_space c).
    + intros [_ Hrest]%andb_true_iff. by eapply IH.
    + apply IH.
Qed.

Lemma single_blanks_strip s after_space :
  single_blanks after_space s = true -> single_blanks false (strip s) = true.
Proof.
  intros Hs. destruct (strip_spaces s) as (before & after & Heq & _).
  destruct (strip_clean s) as [Hclean _].
  destruct (strip s) as [|c m] eqn:Hstrip; [done|].
  rewrite Heq in Hs.
  apply single_blanks_app_r in Hs; [|done].
  by apply single_blanks_app_l in Hs.
Qed.

End TextFacts.

Section TextTheorems.

Context (rt : Runtime).

Lemma is_kept_blank : is_kept rt 32 = true.
Proof. reflexivity. Qed.

Lemma is_kept_markup c : is_kept rt c = true -> c <> 60%N /\ c <> 62%N.
Proof. intros Hc. split; intros ->; vm_compute in Hc; discriminate. Qed.

Lemma collapse_spaces_Forall (P : N -> Prop) s : forall after_space,
  P 32%N -> Forall P s -> Forall P (collapse_spaces after_space s).
Proof.
  induction s as [|c s IH]; intros after_space Hblank Hall; [done|].
  apply Forall_cons in Hall as [Hc Hall]. simpl.
  destruct (is_space c); [destruct after_space|];
    repeat constructor; auto.
Qed.

Lemma filter_all {A} (f : A -> bool) l :
  Forall (fun x => f x = true) l -> List.filter f l = l.
Proof.
  induction 1 as [|x l Hx _ IH]; [done|]. simpl. by rewrite Hx, IH.
Qed.

Lemma filter_Forall {A} (f : A -> bool) l :
  Forall (fun x => f x = true) (List.filter f l).
Proof.
  induction l as [|x l IH]; [done|]. simpl.
  destruct (f x) eqn:Hx; [by constructor|done].
Qed.

Lemma keep_all s :
  Forall (fun c => is_kept rt c = true) s ->
  map (fun c => if is_kept rt c then c else 32%N) s = s.
Proof.
  induction 1 as [|c s Hc _ IH]; [done|]. simpl. by rewrite Hc, IH.
Qed.

Lemma _preprocess_text_shape (text : pyval) :
  Forall (fun c => is_kept rt c = true) (_preprocess_text rt text)
  /\ single_blanks false (_preprocess_text rt text) = true
  /\ starts_clean (_preprocess_text rt text)
  /\ starts_clean (rev (_preprocess_text rt text)).
Proof.
  unfold _preprocess_text. destruct text as [|b|z|q|s|l|d]; try done.
  case_bool_decide; [done|]. split_and!.
  - apply strip_Forall, collapse_spaces_Forall; [done|].
    apply Forall_forall. intros c Hc.
    apply list_elem_of_fmap in Hc as (c0 & -> & _).
    by destruct (is_kept rt c0) eqn:Hc0.
  - eapply single_blanks_strip, single_blanks_collapse.
  - apply strip_clean.
  - apply strip_clean.
Qed.

Lemma _preprocess_text_idempotent (text : pyval) :
  _preprocess_text rt (PStr (_preprocess_text rt text))
  = _preprocess_text rt text.
Proof.
  destruct (_preprocess_text_shape text) as (Hkept & Hblanks & Hstart & Hend).
  generalize dependent (_preprocess_text rt text).
  intros r Hkept Hblanks Hstart Hend.
  unfold _preprocess_text. case_bool_decide; [done|].
  rewrite (keep_all _ Hkept), (collapse_single_blanks _ _ Hblanks).
  by apply strip_id.
Qed.

(** X16.  What [_preprocess_text] returns is in normal form: every
    character is a word character, whitespace or one of [.,!?-]; the
    whitespace is made of single blanks (U+0020), none of them at either
    end.  Preprocessing such a text again changes nothing. *)
Theorem _preprocess_text_normal_form (text : pyval) :
  Forall (fun c => is_kept rt c = true) (_preprocess_text rt text)
  /\ single_blanks false (_preprocess_text rt text) = true
  /\ starts_clean (_preprocess_text rt text)
  /\ starts_clean (rev (_preprocess_text rt text))
  /\ _preprocess_text rt (PStr (_preprocess_text rt text))
     = _preprocess_text rt text.
Proof.
  destruct (_preprocess_text_shape text) as (Hkept & Hblanks & Hstart & Hend).
  split_and!; try done. apply _preprocess_text_idempotent.
Qed.

Lemma analyze_sentiment_of_preprocessed (target_language : string) (s : pystr) :
  analyze_sentiment rt target_language (PStr s)
  = if bool_decide (_preprocess_text rt (PStr s) = []) then Ok (0%Q, "unknown")
    else
      try_except
        (let text := _preprocess_text rt (PStr s) in
         detected_lang ← _detect_language rt text;
         step ←
           (if negb (String.eqb detected_lang target_language) then
              try_except
                (translated ← translate rt text target_language;
                 Ok (inl translated))
                [(None, fun _ => Ok (inr (0%Q, detected_lang)))]
            else Ok (inl text));
         match step with
         | inr returned => Ok returned
         | inl text =>
             sentiment ← _get_sentiment rt text;
             Ok (sentiment, detected_lang)
         end)
        [(None, fun _ => Ok (0%Q, "unknown"))].
Proof.
  case_bool_decide as Hempty; [|by apply analyze_sentiment_str].
  unfold analyze_sentiment.
  destruct (negb (truthy (PStr s)) || negb (isinstance_str (PStr s)));
    [done|].
  by rewrite Hempty.
Qed.

(** X17.  [analyze_sentiment] sees a text only through its preprocessed
    form: two strings that preprocessing makes equal get the same
    sentiment and the same language, and a text and its preprocessed form
    get the same answer. *)
Theorem analyze_sentiment_respects_preprocessing (target_language : string)
    (s1 s2 : pystr) :
  _preprocess_text rt (PStr s1) = _preprocess_text rt (PStr s2) ->
  analyze_sentiment rt target_language (PStr s1)
  = analyze_sentiment rt target_language (PStr s2)
  /\ analyze_sentiment rt target_language
       (PStr (_preprocess_text rt (PStr s1)))
     = analyze_sentiment rt target_language (PStr s1).
Proof.
  intros Heq. split.
  - by rewrite !analyze_sentiment_of_preprocessed, Heq.
  - by rewrite !analyze_sentiment_of_preprocessed, _preprocess_text_idempotent.
Qed.

Lemma remove_tags_without_markup s :
  Forall (fun c => c <> 60%N) s -> remove_tags None s = s.
Proof.
  induction 1 as [|c s Hc _ IH]; [done|]. simpl.
  apply N.eqb_neq in Hc. by rewrite Hc, IH.
Qed.

Lemma remove_tags_length s : forall inside,
  (length (remove_tags inside s) <= length (default [] inside) + length s)%nat.
Proof.
  induction s as [|c s IH]; intros inside; cbn [remove_tags length]; [lia|].
  pose proof (IH None) as Hnone. simpl in Hnone.
  destruct inside as [read|].
  - change (default [] (Some read)) with read.
    destruct (c =? 62)%N.
    + destruct (2 <=? length read)%nat; [lia|].
      rewrite length_app. cbn [length]. lia.
    + specialize (IH (Some (read ++ [c]))).
      change (default [] (Some (read ++ [c]))) with (read ++ [c]) in IH.
      rewrite length_app in IH. cbn [length] in IH. lia.
  - change (default [] None) with (@nil N). cbn [length].
    destruct (c =? 60)%N.
    + specialize (IH (Some [c])). simpl in IH. lia.
    + cbn [length]. lia.
Qed.

Lemma filter_length_le {A} (f : A -> bool) l :
  (length (List.filter f l) <= length l)%nat.
Proof. induction l as [|x l IH]; simpl; [lia|]. destruct (f x); simpl; lia. Qed.

(** X18.  What [sanitize_text] returns: only word characters, whitespace
    and [.,!?-], so no [<] and no [>]; no whitespace at either end; never
    more characters than it was given.  A text made of such characters
    only is returned stripped and otherwise unchanged, and to sanitize a
    text twice is to sanitize it once. *)
Theorem sanitize_text_is_clean (text : pystr) :
  Forall (fun c => is_kept rt c = true /\ c <> 60%N /\ c <> 62%N)
         (sanitize_text rt text)
  /\ starts_clean (sanitize_text rt text)
  /\ starts_clean (rev (sanitize_text rt text))
  /\ (length (sanitize_text rt text) <= length text)%nat
  /\ (Forall (fun c => is_kept rt c = true) text ->
      sanitize_text rt text = strip text)
  /\ sanitize_text rt (sanitize_text rt text) = sanitize_text rt text.
Proof.
  assert (Hclean : forall s, Forall (fun c => is_kept rt c = true) s ->
                             sanitize_text rt s = strip s).
  { intros s Hs. unfold sanitize_text.
    rewrite remove_tags_without_markup.
    - by rewrite filter_all.
    - eapply Forall_impl; [exact Hs|]. intros c Hc.
      by apply is_kept_markup in Hc as [? _]. }
  assert (Hkept : Forall (fun c => is_kept rt c = true) (sanitize_text rt text)).
  { unfold sanitize_text. apply strip_Forall, filter_Forall. }
  split_and!.
  - eapply Forall_impl; [exact Hkept|]. intros c Hc. split; [done|].
    by apply is_kept_markup.
  - apply strip_clean.
  - apply strip_clean.
  - unfold sanitize_text.
    etrans; [apply strip_length|]. etrans; [apply filter_length_le|].
    pose proof (remove_tags_length text None) as Hlen. simpl in Hlen. lia.
  - apply Hclean.
  - rewrite (Hclean _ Hkept). apply strip_idempotent.
Qed.

End TextTheorems.

(** ** The extraction of the reviews of a page *)

Section ExtractorFacts.

Context (py_float : pystr -> option pyfloat) (today : pystr).

Lemma validate_review_accepts (d : gmap string pyval) text rating q date :
  d !! "text" = Some (PStr text) -> strip text <> [] ->
  d !! "rating" = Some rating -> as_number rating = Some q ->
  Qle_bool 0 q && Qle_bool q 5 = true ->
  d !! "date" = Some (PStr date) ->
  validate_review (ReviewDict d) = Ok true.
Proof.
  intros Ht Hblank Hr Hq Hrange Hd.
  unfold validate_review, dict_get. cbn [forallb].
  rewrite Ht, Hr, Hd. rewrite !bool_decide_eq_true_2 by done.
  cbn [andb negb default id]. rewrite (bool_decide_eq_false_2 _ Hblank).
  cbn [negb]. by rewrite Hq, Hrange.
Qed.

Lemma _get_element_text_stripped e selector text :
  _get_element_text e selector = Ok (Some text) -> strip text = text.
Proof.
  unfold _get_element_text. destruct (e selector); try done.
  intros [= <-]. apply strip_idempotent.
Qed.

Lemma or_else_nonempty x fallback : fallback <> [] -> or_else x fallback <> [].
Proof.
  intros Hf. unfold or_else. destruct x as [s|]; [|done].
  by case_bool_decide.
Qed.

(** What the function has read when it returns a review. *)
Lemma _parse_review_element_review e r :
  _parse_review_element py_float today e = Ok (Some r) ->
  exists rating_text tok author date,
    _get_element_text e ".review-text" = Ok (Some (r_text r))
    /\ r_text r <> []
    /\ _get_element_text e ".rating" = Ok (Some rating_text)
    /\ first_token rating_text = Some tok
    /\ py_float tok = Some (Finite (r_rating r))
    /\ Qle_bool 0 (r_rating r) && Qle_bool (r_rating r) 5 = true
    /\ _get_element_text e ".author-name" = Ok author
    /\ r_author r = or_else author (str "Anonymous")
    /\ _get_element_text e ".review-date" = Ok date
    /\ r_date r = or_else date today.
Proof.
  unfold _parse_review_element. rewrite try_except_eq_catch.
  destruct (_get_element_text e ".review-text") as [[[|c text]|]|err];
    try done.
  rewrite bind_ok.
  destruct (_get_element_text e ".rating") as [[[|c' rating_text]|]|err];
    try done.
  rewrite bind_ok.
  destruct (first_token (c' :: rating_text)) as [tok|] eqn:Htok; [|done].
  destruct (py_float tok) as [[rating|]|] eqn:Hfloat; try done.
  destruct (Qle_bool 0 rating && Qle_bool rating 5) eqn:Hrange; [|done].
  cbn [negb].
  destruct (_get_element_text e ".author-name") as [author|err]; [|done].
  rewrite bind_ok.
  destruct (_get_element_text e ".review-date") as [date|err]; [|done].
  rewrite bind_ok. intros [= <-]. cbn [r_text r_rating r_author r_date].
  exists (c' :: rating_text), tok, author, date. by split_and!.
Qed.

Lemma _parse_review_element_returns e :
  exists r, _parse_review_element py_float today e = Ok r.
Proof.
  unfold _parse_review_element. rewrite try_except_catch_all.
  match goal with |- context [match ?b with Ok _ => _ | Raise _ => _ end] =>
    destruct b end; by eexists.
Qed.

Lemma _parse_review_element_shape e r :
  _parse_review_element py_float today e = Ok (Some r) ->
  r_text r <> [] /\ strip (r_text r) = r_text r
  /\ (0 <= r_rating r)%Q /\ (r_rating r <= 5)%Q
  /\ r_author r <> []
  /\ (e ".author-name" = NoSuchElement -> r_author r = str "Anonymous")
  /\ (today <> [] -> r_date r <> [])
  /\ validate_review (ReviewDict (review_dict r)) = Ok true.
Proof.
  intros Hparsed.
  apply _parse_review_element_review in Hparsed
    as (rating_text & tok & author & date & Htext & Hne & _ & _ & _ & Hrange
        & Hauthor & Ha & _ & Hd).
  pose proof (_get_element_text_stripped _ _ _ Htext) as Hstrip.
  pose proof Hrange as [H0 H5]%andb_true_iff.
  apply Qle_bool_iff in H0, H5.
  split_and!; try done.
  - rewrite Ha. by apply or_else_nonempty.
  - intros Hnone. unfold _get_element_text in Hauthor.
    rewrite Hnone in Hauthor. injection Hauthor as <-. by rewrite Ha.
  - rewrite Hd. apply or_else_nonempty.
  - eapply (validate_review_accepts _ (r_text r) (PFloat (r_rating r))
              (r_rating r)); try done.
    by rewrite Hstrip.
Qed.


Lemma for_each_parse elements : forall acc,
  for_each (fun (acc : list (option Review)) e =>
              r ← _parse_review_element py_float today e; Ok (acc ++ [r]))
           elements acc
  = Ok (acc ++ map (fun e => match _parse_review_element py_float today e with
                             | Ok r => r
                             | Raise _ => None
                             end) elements).
Proof.
  induction elements as [|e elements IH]; intros acc; cbn [for_each map].
  - by rewrite app_nil_r.
  - destruct (_parse_review_element_returns e) as [r ->].
    rewrite !bind_ok, IH. by rewrite <- app_assoc.
Qed.

Lemma omap_id_map {A B} (f : A -> option B) l : omap id (map f l) = omap f l.
Proof.
  induction l as [|x l IH]; [done|]. cbn [map]. csimpl. rewrite IH.
  by destruct (f x).
Qed.

Lemma omap_length_le {A B} (f : A -> option B) l :
  (length (omap f l) <= length l)%nat.
Proof.
  induction l as [|x l IH]; [done|]. csimpl.
  destruct (f x); simpl; lia.
Qed.

(** X20.  The reviews of a page.  On a parser with at least one worker
    [extract_reviews] never raises; it returns, in the order of the page,
    the reviews of the containers [_parse_review_element] could read, and
    drops the other containers without a trace in the result.  Every
    review it returns passes [validate_review] as a dictionary.  On a
    parser without a worker it returns the empty list for a page without
    containers and raises the ValueError of the pool for any other
    page. *)
Theorem extract_reviews_returns_valid_reviews (max_workers : Z)
    (review_elements : list element) :
  (1 <= max_workers ->
   exists reviews,
     extract_reviews py_float today max_workers review_elements = Ok reviews
     /\ reviews
        = omap (fun e => match _parse_review_element py_float today e with
                         | Ok r => r
                         | Raise _ => None
                         end) review_elements
     /\ (length reviews <= length review_elements)%nat
     /\ Forall (fun r => validate_review (ReviewDict (review_dict r)) = Ok true)
               reviews)
  /\ extract_reviews py_float today max_workers [] = Ok []
  /\ (max_workers <= 0 ->
      review_elements <> [] ->
      raises_class
        (extract_reviews py_float today max_workers review_elements)
        ValueError).
Proof.
  split_and!.
  - intros Hworkers. eexists. split_and!; [|reflexivity|apply omap_length_le|].
    + unfold extract_reviews.
      destruct review_elements as [|e elements] eqn:He; [done|].
      destruct (Z.leb_spec max_workers 0); [lia|].
      rewrite <- He. rewrite for_each_parse, bind_ok.
      cbn [app]. by rewrite omap_id_map.
    + apply Forall_forall. intros r Hr.
      apply list_elem_of_omap in Hr as (e & _ & He).
      destruct (_parse_review_element py_float today e) as [parsed|err] eqn:Hp;
        [|done].
      subst parsed.
      by apply _parse_review_element_shape
        in Hp as (_ & _ & _ & _ & _ & _ & _ & ?).
  - done.
  - intros Hworkers Hne. unfold extract_reviews.
    destruct review_elements as [|e elements]; [done|].
    destruct (Z.leb_spec max_workers 0); [|lia].
    by eexists.
Qed.

End ExtractorFacts.

(** ** What is kept between runs *)

(** X21.  Nothing is kept between runs.  The class [SecurityManager] has
    neither [load_secure_cache] nor [save_secure_cache]: [load_cache]
    returns the empty list and [save_cache] returns without writing, both
    after an AttributeError their handlers swallow.  So the statements of
    [main] that load the cache, process the batch and save the cache
    return what [process_reviews_batch] returns on the empty cache and
    leave the cache file as they found it, whatever it holds and whether
    the cache is enabled or not: a review fetched by two runs is analysed
    and stored by both. *)
Theorem run_batch_keeps_nothing (rt : Runtime)
    (invoke_load : method -> string -> cache_file -> result (list CacheEntry))
    (invoke_save : method -> string -> list CacheEntry -> cache_file
                   -> result unit * cache_file)
    (security_manager : SecurityManager) (max_retries : Z)
    (target_language : string) (cache_enabled : bool) (file : cache_file) :
  (forall cache,
      save_cache invoke_save security_manager cache file = (Ok tt, file))
  /\ run_batch rt invoke_load invoke_save security_manager max_retries
       target_language cache_enabled file
     = (process_reviews_batch rt max_retries target_language [], file).
Proof.
  assert (Hsave : forall cache,
            save_cache invoke_save security_manager cache file = (Ok tt, file))
    by reflexivity.
  split; [exact Hsave|].
  unfold run_batch.
  assert (Hload : initial_cache (fun m name => invoke_load m name file)
                    security_manager cache_enabled = Ok [])
    by (by destruct cache_enabled).
  rewrite Hload.
  destruct (process_reviews_batch_extends rt max_retries target_language [])
    as [added ->].
  destruct cache_enabled; [|done].
  by rewrite Hsave.
Qed.

Section SecureConfigFacts.

Context (fernet_encrypt fernet_decrypt : pystr -> result pystr).

(** [load_secure_config] returns the object of the file with the token
    decrypted, or the value of the file as it is when that is no object
    and does not hold the name of the key; anything else ends in a
    SecurityError. *)
Lemma load_secure_config_cases file :
  (exists d0 d, file = Some (PDict d0)
                /\ SecureConfig.load_secure_config fernet_decrypt file
                   = Ok (PDict d))
  \/ (exists document, file = Some document
                       /\ (forall d, document <> PDict d)
                       /\ SecureConfig.load_secure_config fernet_decrypt file
                          = Ok document)
  \/ SecureConfig.load_secure_config fernet_decrypt file
     = Raise (Exn SecurityError "Failed to load secure configuration").
Proof.
  unfold SecureConfig.load_secure_config. rewrite try_except_eq_catch.
  destruct file as [document|]; [|by do 2 right].
  rewrite bind_ok.
  destruct document as [|b|z|q|s|l|d]; try (by do 2 right).
  - cbn [Json.contains]. rewrite bind_ok.
    destruct (negb _); [|by do 2 right].
    right; left. by eexists.
  - cbn [Json.contains]. rewrite bind_ok.
    destruct (negb _); [|by do 2 right].
    right; left. by eexists.
  - cbn [Json.contains Json.subscript]. rewrite bind_ok.
    destruct (d !! "telegram_token") as [token|] eqn:Htoken.
    + rewrite bool_decide_eq_true_2 by done. cbn [negb]. rewrite bind_ok.
      destruct (SecureConfig.decrypt_data fernet_decrypt token) as [t|e];
        [|by do 2 right].
      rewrite bind_ok. left. by eexists _, _.
    + rewrite bool_decide_eq_false_2 by (by intros [? ?]). cbn [negb].
      left. by eexists _, _.
Qed.

Lemma load_config_of_object d :
  SecureConfig.load_config fernet_decrypt (Some (PDict d))
  = match d !! "telegram_token" with
    | Some token =>
        match SecureConfig.decrypt_data fernet_decrypt token with
        | Ok decrypted => Ok (<["telegram_token" := PStr decrypted]> d)
        | Raise _ =>
            Raise (Exn SecurityError "Failed to load secure configuration")
        end
    | None => Ok d
    end.
Proof.
  unfold SecureConfig.load_config, SecureConfig.load_secure_config.
  rewrite try_except_eq_catch, bind_ok.
  cbn [Json.contains Json.subscript]. rewrite bind_ok.
  destruct (d !! "telegram_token") as [token|] eqn:Htoken.
  - rewrite bool_decide_eq_true_2 by done. cbn [negb]. rewrite bind_ok.
    by destruct (SecureConfig.decrypt_data fernet_decrypt token) as [t|e].
  - by rewrite bool_decide_eq_false_2 by (by intros [? ?]).
Qed.

(** X22.  The protected configuration.  [save_secure_config] writes the
    file and returns exactly when the configuration has no key
    [telegram_token] at the top, and is then written as it is (a token
    kept inside the [notifier] section is stored in clear), or has under
    that key a string the cipher encrypts, and is then written with the
    encrypted token in its place; otherwise it raises SecurityError and
    leaves the file as it was.  For a cipher that decrypts what it
    encrypted, [load_config] of [main.py] on a file that was so written
    gives back the configuration that was saved.  On any file
    [load_config] raises nothing but a SecurityError, or the
    AttributeError of [config.keys()] when the file holds a JSON value
    that is no object; it raises on every such file. *)
Theorem secure_config_round_trip (cfg : config) (file : option pyval) :
  (forall s t, fernet_encrypt s = Ok t -> fernet_decrypt t = Ok s) ->
  (cfg !! "telegram_token" = None ->
   SecureConfig.save_secure_config fernet_encrypt cfg file
   = (Ok tt, Some (PDict cfg)))
  /\ (forall s t,
        cfg !! "telegram_token" = Some (PStr s) ->
        fernet_encrypt s = Ok t ->
        SecureConfig.save_secure_config fernet_encrypt cfg file
        = (Ok tt, Some (PDict (<["telegram_token" := PStr t]> cfg))))
  /\ (forall token,
        cfg !! "telegram_token" = Some token ->
        (forall s, token = PStr s -> raises (fernet_encrypt s)) ->
        SecureConfig.save_secure_config fernet_encrypt cfg file
        = (Raise (Exn SecurityError "Failed to save secure configuration"),
           file))
  /\ (forall written,
        SecureConfig.save_secure_config fernet_encrypt cfg file
        = (Ok tt, written) ->
        SecureConfig.load_config fernet_decrypt written = Ok cfg)
  /\ (forall e,
        SecureConfig.load_config fernet_decrypt file = Raise e ->
        exn_cls e = SecurityError
        \/ (exn_cls e = AttributeError
            /\ exists document,
                 file = Some document /\ forall d, document <> PDict d))
  /\ (forall document,
        file = Some document ->
        (forall d, document <> PDict d) ->
        raises (SecureConfig.load_config fernet_decrypt file)).
Proof.
  intros Hcipher.
  assert (Hsave_none : cfg !! "telegram_token" = None ->
            SecureConfig.save_secure_config fernet_encrypt cfg file
            = (Ok tt, Some (PDict cfg))).
  { intros Htoken.
    unfold SecureConfig.save_secure_config, SecureConfig.secure_config.
    by rewrite Htoken. }
  assert (Hsave_str : forall s t,
            cfg !! "telegram_token" = Some (PStr s) ->
            fernet_encrypt s = Ok t ->
            SecureConfig.save_secure_config fernet_encrypt cfg file
            = (Ok tt, Some (PDict (<["telegram_token" := PStr t]> cfg)))).
  { intros s t Htoken Henc.
    unfold SecureConfig.save_secure_config, SecureConfig.secure_config.
    rewrite Htoken. unfold SecureConfig.encrypt_data.
    by rewrite Henc. }
  assert (Hsave_fails : forall token,
            cfg !! "telegram_token" = Some token ->
            (forall s, token = PStr s -> raises (fernet_encrypt s)) ->
            SecureConfig.save_secure_config fernet_encrypt cfg file
            = (Raise (Exn SecurityError "Failed to save secure configuration"),
               file)).
  { intros token Htoken Hrefused.
    unfold SecureConfig.save_secure_config, SecureConfig.secure_config.
    rewrite Htoken. unfold SecureConfig.encrypt_data.
    destruct token as [|b|z|q|s|l|d]; try done.
    by destruct (Hrefused s eq_refl) as [e ->]. }
  split_and!; [done|done|done| | |].
  - intros written Hsaved.
    destruct (cfg !! "telegram_token") as [token|] eqn:Htoken.
    + destruct token as [|b|z|q|s|l|d];
        try (rewrite (Hsave_fails _ eq_refl) in Hsaved; [done|done]).
      destruct (fernet_encrypt s) as [t|e] eqn:Henc.
      * rewrite (Hsave_str s t eq_refl Henc) in Hsaved.
        injection Hsaved as <-.
        rewrite load_config_of_object, lookup_insert_eq.
        unfold SecureConfig.decrypt_data.
        rewrite (Hcipher s t Henc). cbn [try_except].
        by rewrite insert_insert_eq, insert_id.
      * rewrite (Hsave_fails _ eq_refl) in Hsaved; [done|].
        intros s' [= <-]. by exists e.
    + rewrite (Hsave_none eq_refl) in Hsaved. injection Hsaved as <-.
      by rewrite load_config_of_object, Htoken.
  - intros e. unfold SecureConfig.load_config.
    destruct (load_secure_config_cases file)
      as [(d0 & d & _ & ->)|[(document & -> & Hshape & ->)| ->]].
    + by rewrite bind_ok.
    + rewrite bind_ok.
      destruct document as [|b|z|q|s|l|d]; try (by destruct (Hshape d));
        intros [= <-]; right; (split; [done|by eexists]).
    + intros [= <-]. by left.
  - intros document -> Hshape. unfold SecureConfig.load_config.
    destruct (load_secure_config_cases (Some document))
      as [(d0 & d & [= ->] & _)|[(document' & [= <-] & _ & ->)| ->]].
    + by destruct (Hshape d0).
    + rewrite bind_ok.
      destruct document as [|b|z|q|s|l|d]; try (by destruct (Hshape d));
        by eexists.
    + by eexists.
Qed.

End SecureConfigFacts.

(** The witness of X22, with a cipher that reverses the string. *)
Lemma secure_config_round_trip_witness :
  SecureConfig.save_secure_config (fun s => Ok (rev s))
    (<["telegram_token" := PStr (str "123456:token")]> Fixtures.configured)
    None
  = (Ok tt,
     Some (PDict (<["telegram_token" := PStr (rev (str "123456:token"))]>
                    (<["telegram_token" := PStr (str "123456:token")]>
                       Fixtures.configured))))
  /\ SecureConfig.load_config (fun t => Ok (rev t))
       (Some (PDict (<["telegram_token" := PStr (rev (str "123456:token"))]>
                       (<["telegram_token" := PStr (str "123456:token")]>
                          Fixtures.configured))))
     = Ok (<["telegram_token" := PStr (str "123456:token")]>
             Fixtures.configured).
Proof.
  destruct (secure_config_round_trip (fun s => Ok (rev s))
              (fun t => Ok (rev t))
              (<["telegram_token" := PStr (str "123456:token")]>
                 Fixtures.configured)
              None) as (_ & Hsave & _ & Hround & _).
  { intros s t [= <-]. by rewrite rev_involutive. }
  assert (Hsaved := Hsave (str "123456:token") (rev (str "123456:token"))
                      (lookup_insert_eq _ _ _) eq_refl).
  split; [exact Hsaved|]. exact (Hround _ Hsaved).
Defined.

Example array_is_no_configuration :
  raises_class
    (SecureConfig.load_config (fun t => Ok (rev t))
       (Some (PList [PInt 1; PInt 2])))
    AttributeError.
Proof. eexists. vm_compute. reflexivity. Qed.

(** ** The program *)

Section ProgramFacts.

Import Program.

Context (file : option config) (world : World).

Lemma call_setup_logging {A} (r : result A) :
  call setup_logging_params
    ["log_dir"; "log_level"; "max_bytes"; "backup_count"] r = r.
Proof. reflexivity. Qed.

Lemma call_ReviewParser {A} (r : result A) :
  call ReviewParser_params ["max_retries"; "timeout"; "max_workers"] r = r.
Proof. reflexivity. Qed.

Lemma call_SentimentAnalyzer {A} (r : result A) :
  call SentimentAnalyzer_params
    ["target_language"; "min_confidence"; "batch_size"] r
  = Raise (Exn TypeError "got an unexpected keyword argument 'min_confidence'").
Proof. reflexivity. Qed.

(** The [try] block ends in an exception before it binds
    [notifier_config], whatever follows the creation of the analyzer. *)
Lemma body_raises (pipeline : stmt unit) :
  exists e l,
    body file world pipeline no_locals = (Raise e, l)
    /\ notifier_config l = None
    /\ forall pipeline', body file world pipeline' no_locals = (Raise e, l).
Proof.
  unfold body, andthen, lift.
  destruct (load_config file) as [cfg|e]; [|by eexists _, _].
  rewrite call_setup_logging.
  destruct (setup_logging world) as [[]|e]; [|by eexists _, _].
  destruct (SecurityManager_init world) as [[]|e]; [|by eexists _, _].
  rewrite call_ReviewParser. cbn [bind_parser].
  rewrite call_SentimentAnalyzer. by eexists _, _.
Qed.

(** X23.  [main] cannot complete.  It creates the analyzer with the
    keywords [min_confidence] and [batch_size], which
    [SentimentAnalyzer.__init__] does not take, so that the [try] block
    raises, at that call if not before; the handler then reads
    [notifier_config], which is bound only after that call, and raises
    UnboundLocalError.  For every configuration file and whatever the
    outside world does, [main] ends in UnboundLocalError, and nothing that
    follows the creation of the analyzer runs: the cache is not loaded,
    no page is fetched, nothing is saved and no statistics are made. *)
Theorem main_never_completes (pipeline : stmt unit) :
  exists msg l,
    main file world pipeline no_locals
    = (Raise (Exn UnboundLocalError msg), l)
    /\ forall pipeline',
         main file world pipeline' no_locals
         = main file world pipeline no_locals.
Proof.
  destruct (body_raises pipeline) as (e & l & Hbody & Hconfig & Hany).
  assert (Hmain : forall p,
            main file world p no_locals
            = (if parser l then unbound "notifier_config" else unbound "parser",
               l)).
  { intros p. unfold main. rewrite Hany.
    unfold handler, andthen, read_notifier_config. rewrite Hconfig.
    unfold unbound, finalizer, read_parser. cbv iota beta.
    by destruct (parser l). }
  destruct (parser l) eqn:Hparser.
  - eexists _, l. split; [by rewrite Hmain|].
    intros p. by rewrite !Hmain.
  - eexists _, l. split; [by rewrite Hmain|].
    intros p. by rewrite !Hmain.
Qed.

End ProgramFacts.

(** ** The fingerprint *)

Section FingerprintFacts.

Lemma encode_char_cases c :
  (is_surrogate c = false /\ exists bs, encode_char c = Ok bs)
  \/ (is_surrogate c = true
      /\ encode_char c = Raise (Exn UnicodeEncodeError "surrogates not allowed")).
Proof.
  unfold encode_char, is_surrogate.
  destruct (N.leb_spec 0xD800 c), (N.leb_spec c 0xDFFF); cbn [andb];
    repeat match goal with
           | |- context [Z.ltb ?a ?b] => destruct (Z.ltb_spec a b); try lia
           | |- context [Z.leb ?a ?b] => destruct (Z.leb_spec a b); try lia
           end; cbn [andb]; try (left; split; [done|by eexists]);
    by right.
Qed.

Lemma encode_cases s :
  (encodable s = true /\ exists bs, encode s = Ok bs)
  \/ (encodable s = false
      /\ encode s = Raise (Exn UnicodeEncodeError "surrogates not allowed")).
Proof.
  induction s as [|c s IH]; [left; split; [done|by eexists]|].
  cbn [encode encodable forallb].
  destruct (encode_char_cases c) as [[-> [bs ->]]|[-> ->]]; [|by right].
  rewrite bind_ok. cbn [negb andb]. fold (encodable s).
  destruct IH as [[-> [more ->]]|[-> ->]]; [|by right].
  left. split; [done|]. by eexists.
Qed.

Lemma compress_length h block :
  length h = 8%nat -> length (SHA256.compress h block) = 8%nat.
Proof.
  intros Hh. unfold SHA256.compress. rewrite length_zip_with, Hh. done.
Qed.

Lemma digest_length msg : length (SHA256.digest msg) = 32%nat.
Proof.
  unfold SHA256.digest.
  rewrite (flat_map_constant_length (c := 4)); [|done].
  generalize (SHA256.blocks (length (SHA256.be_words (SHA256.pad msg)) / 16)
                (SHA256.be_words (SHA256.pad msg))).
  intros blocks.
  assert (H : length SHA256.H0 = 8%nat) by reflexivity.
  revert H. generalize SHA256.H0.
  induction blocks as [|block blocks IH]; intros h Hh; simpl.
  - by rewrite Hh.
  - apply IH. by apply compress_length.
Qed.

Lemma digest_bytes msg : Forall (fun b => 0 <= b < 256) (SHA256.digest msg).
Proof.
  unfold SHA256.digest. apply Forall_forall. intros b Hb.
  apply list_elem_of_In, in_flat_map in Hb as (x & _ & Hb).
  unfold SHA256.be_bytes in Hb. apply in_map_iff in Hb as (i & <- & _).
  change 255 with (Z.ones 8). rewrite Z.land_ones by lia.
  apply Z.mod_pos_bound. lia.
Qed.

Lemma hex_digit_is_hex d : 0 <= d < 16 -> is_hex_digit (SHA256.hex_digit d) = true.
Proof.
  intros Hd.
  assert (H : d = 0 \/ d = 1 \/ d = 2 \/ d = 3 \/ d = 4 \/ d = 5 \/ d = 6
              \/ d = 7 \/ d = 8 \/ d = 9 \/ d = 10 \/ d = 11 \/ d = 12
              \/ d = 13 \/ d = 14 \/ d = 15) by lia.
  repeat (destruct H as [->|H]; [reflexivity|]). by subst.
Qed.

Lemma string_length_of_list l :
  String.length (String.string_of_list_ascii l) = length l.
Proof. induction l as [|a l IH]; [done|]. simpl. by rewrite IH. Qed.

Lemma hexdigest_format msg :
  String.length (SHA256.hexdigest msg) = 64%nat
  /\ Forall (fun a => is_hex_digit a = true)
            (String.list_ascii_of_string (SHA256.hexdigest msg)).
Proof.
  unfold SHA256.hexdigest. split.
  - rewrite string_length_of_list.
    rewrite (flat_map_constant_length (c := 2)); [|done].
    by rewrite digest_length.
  - rewrite String.list_ascii_of_string_of_list_ascii.
    apply Forall_forall. intros a Ha.
    apply list_elem_of_In, in_flat_map in Ha as (b & Hb & Ha).
    apply list_elem_of_In in Hb.
    pose proof (proj1 (Forall_forall _ _) (digest_bytes msg) b Hb) as Hrange.
    cbv beta in Hrange.
    assert (H4 : 0 <= Z.shiftr b 4 < 16).
    { rewrite Z.shiftr_div_pow2 by lia. change (2 ^ 4) with 16.
      split; [apply Z.div_pos; lia|apply Z.div_lt_upper_bound; lia]. }
    assert (H0 : 0 <= Z.land b 15 < 16).
    { change 15 with (Z.ones 4). rewrite Z.land_ones by lia.
      apply Z.mod_pos_bound. lia. }
    destruct Ha as [<-|[<-|[]]]; by apply hex_digit_is_hex.
Qed.

(** X24.  [hash_data] returns for every text whose characters can be
    encoded, and what it returns is a string of 64 characters, each a
    digit or a letter from [a] to [f]; it raises exactly when the text
    holds a surrogate code point, and then a UnicodeEncodeError. *)
Theorem hash_data_format (data : pystr) :
  (encodable data = true
   /\ exists h, hash_data data = Ok h
                /\ String.length h = 64%nat
                /\ Forall (fun a => is_hex_digit a = true)
                          (String.list_ascii_of_string h))
  \/ (encodable data = false
      /\ raises_class (hash_data data) UnicodeEncodeError).
Proof.
  unfold hash_data.
  destruct (encode_cases data) as [[-> [bs ->]]|[-> ->]].
  - left. split; [done|]. exists (SHA256.hexdigest bs).
    split; [done|]. apply hexdigest_format.
  - right. split; [done|]. by eexists.
Qed.

End FingerprintFacts.

Section UnencodableReviews.

Context (rt : Runtime) (max_retries : Z) (target_language : string).

Lemma filter_new_raises cache reviews : forall acc,
  Exists (fun review => encodable (r_text review) = false) reviews ->
  exists e, for_each (keep_if_new cache) reviews acc = Raise e.
Proof.
  induction reviews as [|review reviews IH]; intros acc Hex;
    [by apply Exists_nil in Hex|].
  cbn [for_each]. rewrite keep_if_new_eq. unfold hash_data.
  destruct (encode_cases (r_text review)) as [[Henc [bs ->]]|[Henc ->]].
  - rewrite !bind_ok. apply IH.
    apply Exists_cons in Hex as [Hbad|Hex]; [congruence|done].
  - by eexists.
Qed.

(** X25.  One review whose text cannot be encoded costs the whole batch.
    The first loop of [process_reviews_batch] hashes every fetched review
    outside any [try] of its own, so a text with a surrogate code point
    raises there, the outer handler returns the cache as it was given,
    and none of the other reviews of the batch is stored. *)
Theorem unencodable_review_drops_the_batch (cache : list CacheEntry)
    (reviews : list Review) :
  parse_reviews rt max_retries = Ok (Some reviews) ->
  Exists (fun review => encodable (r_text review) = false) reviews ->
  process_reviews_batch rt max_retries target_language cache = Ok cache.
Proof.
  intros Hparse Hbad.
  rewrite (process_reviews_batch_after_fetch _ _ _ _ _ Hparse).
  unfold filter_new.
  by destruct (filter_new_raises cache reviews [] Hbad) as [e ->].
Qed.

End UnencodableReviews.

(** ** The encoding of the texts *)

Section Utf8Facts.

Lemma lor_checked hi n x :
  forallb (fun i => Z.lor hi i =? hi + i) (map Z.of_nat (List.seq 0 n)) = true ->
  0 <= x < Z.of_nat n -> Z.lor hi x = hi + x.
Proof.
  intros Hall Hx. rewrite forallb_forall in Hall.
  apply Z.eqb_eq, Hall, in_map_iff. exists (Z.to_nat x).
  split; [lia|]. apply in_seq. lia.
Qed.

Lemma lor_continuation x : 0 <= x < 64 -> Z.lor 0x80 x = 0x80 + x.
Proof. apply (lor_checked 0x80 64). vm_compute. reflexivity. Qed.

Lemma lor_lead2 x : 0 <= x < 32 -> Z.lor 0xC0 x = 0xC0 + x.
Proof. apply (lor_checked 0xC0 32). vm_compute. reflexivity. Qed.

Lemma lor_lead3 x : 0 <= x < 16 -> Z.lor 0xE0 x = 0xE0 + x.
Proof. apply (lor_checked 0xE0 16). vm_compute. reflexivity. Qed.

Lemma lor_lead4 x : 0 <= x < 8 -> Z.lor 0xF0 x = 0xF0 + x.
Proof. apply (lor_checked 0xF0 8). vm_compute. reflexivity. Qed.

Lemma encode_char_bytes c bs :
  encode_char c = Ok bs -> bs = utf8_bytes (Z.of_N c).
Proof.
  unfold encode_char, utf8_bytes.
  assert (Hz : 0 <= Z.of_N c) by lia. revert Hz.
  generalize (Z.of_N c). intros z Hz.
  assert (Hland : forall y, Z.land y 63 = y mod 64).
  { intros y. change 63 with (Z.ones 6). by rewrite Z.land_ones by lia. }
  assert (Hland7 : forall y, Z.land y 7 = y mod 8).
  { intros y. change 7 with (Z.ones 3). by rewrite Z.land_ones by lia. }
  rewrite !Hland, Hland7, !Z.shiftr_div_pow2 by lia.
  change (2 ^ 6) with 64. change (2 ^ 12) with 4096.
  change (2 ^ 18) with 262144.
  destruct (Z.ltb_spec z 128); [by intros [= <-]|].
  destruct (Z.ltb_spec z 2048).
  { intros [= <-]. rewrite lor_lead2, lor_continuation; [done| |].
    - apply Z.mod_pos_bound. lia.
    - split; [apply Z.div_pos; lia|apply Z.div_lt_upper_bound; lia]. }
  destruct ((55296 <=? z) && (z <=? 57343)); [done|].
  destruct (Z.ltb_spec z 65536).
  { intros [= <-]. rewrite lor_lead3, !lor_continuation; [done| | |].
    - apply Z.mod_pos_bound. lia.
    - apply Z.mod_pos_bound. lia.
    - split; [apply Z.div_pos; lia|apply Z.div_lt_upper_bound; lia]. }
  intros [= <-]. rewrite lor_lead4, !lor_continuation; [done| | | |];
    apply Z.mod_pos_bound; lia.
Qed.

(** No encoding of a code point is the beginning of the encoding of
    another one. *)
Lemma utf8_bytes_prefix_free z1 z2 r1 r2 :
  0 <= z1 <= 0x10FFFF -> 0 <= z2 <= 0x10FFFF ->
  utf8_bytes z1 ++ r1 = utf8_bytes z2 ++ r2 ->
  z1 = z2 /\ r1 = r2.
Proof.
  intros H1 H2. unfold utf8_bytes.
  destruct (Z.ltb_spec z1 128), (Z.ltb_spec z2 128);
    [|destruct (Z.ltb_spec z2 2048); [|destruct (Z.ltb_spec z2 65536)]
     |destruct (Z.ltb_spec z1 2048); [|destruct (Z.ltb_spec z1 65536)]
     |destruct (Z.ltb_spec z1 2048); [|destruct (Z.ltb_spec z1 65536)];
      (destruct (Z.ltb_spec z2 2048); [|destruct (Z.ltb_spec z2 65536)])];
    cbn [app]; intros Heq; injection Heq; clear Heq; intros;
    try (split; [|done]);
    Z.div_mod_to_equations; lia.
Qed.

Lemma encode_injective_aux s1 : forall s2 bs,
  Forall is_code_point s1 -> Forall is_code_point s2 ->
  encode s1 = Ok bs -> encode s2 = Ok bs -> s1 = s2.
Proof.
  induction s1 as [|c1 s1 IH]; intros s2 bs Hs1 Hs2.
  - intros [= <-]. destruct s2 as [|c2 s2]; [done|].
    cbn [encode].
    destruct (encode_char c2) as [b2|] eqn:Hc2; [|done]. rewrite bind_ok.
    destruct (encode s2) as [more|]; [|done]. rewrite bind_ok.
    intros [= Hnil]. apply app_eq_nil in Hnil as [-> _].
    apply encode_char_bytes in Hc2. unfold utf8_bytes in Hc2.
    repeat (destruct (_ <? _) in Hc2); done.
  - cbn [encode].
    destruct (encode_char c1) as [b1|] eqn:Hc1; [|done]. rewrite bind_ok.
    destruct (encode s1) as [more1|] eqn:Hmore1; [|done]. rewrite bind_ok.
    intros [= <-].
    apply encode_char_bytes in Hc1.
    destruct s2 as [|c2 s2].
    + intros [= Hnil]. symmetry in Hnil. apply app_eq_nil in Hnil as [Hnil _].
      rewrite Hnil in Hc1.
      unfold utf8_bytes in Hc1. repeat (destruct (_ <? _) in Hc1); done.
    + cbn [encode].
      destruct (encode_char c2) as [b2|] eqn:Hc2; [|done]. rewrite bind_ok.
      destruct (encode s2) as [more2|] eqn:Hmore2; [|done]. rewrite bind_ok.
      intros [= Heq]. apply encode_char_bytes in Hc2. subst b1 b2.
      apply Forall_cons in Hs1 as [Hcp1 Hs1].
      apply Forall_cons in Hs2 as [Hcp2 Hs2].
      unfold is_code_point in Hcp1, Hcp2.
      symmetry in Heq.
      apply utf8_bytes_prefix_free in Heq as [Hz ->]; [|lia|lia].
      apply N2Z.inj in Hz as ->. f_equal. by eapply IH.
Qed.

(** X26.  [str.encode()] is one to one: two texts with the same bytes are
    the same text.  So two reviews with different texts get the same
    fingerprint only when SHA-256 gives two different byte strings the
    same digest. *)
Theorem encode_injective (s1 s2 : pystr) :
  Forall is_code_point s1 -> Forall is_code_point s2 ->
  (forall bs, encode s1 = Ok bs -> encode s2 = Ok bs -> s1 = s2)
  /\ (forall h, hash_data s1 = Ok h -> hash_data s2 = Ok h -> s1 <> s2 ->
        exists b1 b2, b1 <> b2
                      /\ SHA256.hexdigest b1 = h /\ SHA256.hexdigest b2 = h).
Proof.
  intros Hs1 Hs2. split.
  - intros bs. by apply encode_injective_aux.
  - unfold hash_data. intros h.
    destruct (encode s1) as [b1|] eqn:H1; [|done].
    destruct (encode s2) as [b2|] eqn:H2; [|done].
    rewrite !bind_ok. intros [= Hh1] [= Hh2] Hne.
    exists b1, b2. split; [|done]. intros <-.
    apply Hne. by eapply encode_injective_aux.
Qed.

End Utf8Facts.

(** ** Further concrete runs *)

Section FurtherRuns.

Import Fixtures MoreFixtures.

Lemma unencodable_review_witness :
  process_reviews_batch (offline [review_of great; review_of broken]) 1 "en"
    [old_entry]
  = Ok [old_entry].
Proof.
  apply (unencodable_review_drops_the_batch
           (offline [review_of great; review_of broken]) 1 "en" [old_entry]
           [review_of great; review_of broken]).
  - vm_compute. reflexivity.
  - apply Exists_cons_tl, Exists_cons_hd. vm_compute. reflexivity.
Defined.

Lemma encode_injective_witness :
  (forall bs, encode great = Ok bs -> encode slow = Ok bs -> great = slow)
  /\ (forall h, hash_data great = Ok h -> hash_data slow = Ok h ->
        great <> slow ->
        exists b1 b2, b1 <> b2
                      /\ SHA256.hexdigest b1 = h /\ SHA256.hexdigest b2 = h).
Proof.
  apply (encode_injective great slow);
    unfold great, slow, str; simpl;
    repeat (constructor; [unfold is_code_point; lia|]); constructor.
Defined.

Lemma analyze_sentiment_respects_preprocessing_witness :
  analyze_sentiment no_reviews "en" (PStr great_spaced)
  = analyze_sentiment no_reviews "en" (PStr great)
  /\ analyze_sentiment no_reviews "en"
       (PStr (_preprocess_text no_reviews (PStr great_spaced)))
     = analyze_sentiment no_reviews "en" (PStr great_spaced).
Proof.
  apply (analyze_sentiment_respects_preprocessing no_reviews "en"
           great_spaced great).
  vm_compute. reflexivity.
Defined.

(** A container of the page and the review read from it. *)
Example parsed_review_example :
  _parse_review_element read_float (str "2024-05-01") container
  = Ok (Some {| r_text := great; r_rating := 9 # 2;
                r_author := str "Anonymous"; r_date := str "2024-05-01" |}).
Proof. vm_compute. reflexivity. Qed.

(** Markup, and what [sanitize_text] leaves of it. *)
Example sanitize_text_example :
  sanitize_text no_reviews (str " <b>Great</b> <service> & more<> ")
  = str "Great   more".
Proof. vm_compute. reflexivity. Qed.

End FurtherRuns.
